(** * Verification of the teaching scripts of swe-hackers

  A shallow embedding of

  - [bparker/code/calculator.py],
  - [bparker/code/examples/async_flow_debugger.py],
  - [bparker/code/examples/resilient_api_client.py],
  - [bparker/code/examples/payment_handlers.py],
  - [bparker/code/examples/payment_service.py],
  - [bparker/code/examples/user_service.py],

  followed by the properties proved about them.  Every Python module is a
  Rocq [Module] of the same name in camel case; functions and fields keep
  their Python names.

  Conventions.  A Python function that may raise returns a sum, and code
  that mutates module-level objects threads an explicit store; [dict]s
  are [gmap]s, [set]s are [gset]s.  Finite [Decimal]s are rationals, with
  the rounding of the decimal context written out ([Decimal]).  Python
  floats are the kernel's binary64 floats in the calculator, in the
  latencies of the metrics, and in the modules whose name ends in [64],
  which follow the retry decorators and the circuit breakers as the
  interpreter runs them: delays computed in binary64, the exceptions of
  [**] and [time.sleep], and wrapped functions that raise what is no
  [Exception].  The modules without that suffix read clocks and delays as
  rationals and let the wrapped function raise [Exception]s only; they
  carry the properties that do not depend on the values of the delays. *)

From Stdlib Require Import ZArith QArith Qpower Qminmax Floats Ascii String List Lia Lqa.
From stdpp Require Import base gmap strings list pretty.
Import ListNotations.

Local Open Scope string_scope.
Local Open Scope list_scope.

(* ===================================================================== *)
(** * Part I: the programs                                                *)
(* ===================================================================== *)

(* --------------------------------------------------------------------- *)
(** ** Python vocabulary shared by the modules                            *)
(* --------------------------------------------------------------------- *)

Module Python.

(** How a call ends: with a value, or with an exception. *)
Inductive outcome (A E : Type) : Type :=
| Returned (value : A)
| Raised (error : E).
Arguments Returned {A E} value.
Arguments Raised {A E} error.

(** What a decorated call does to the world around it, in order. *)
Inductive event (A E : Type) : Type :=
| Invoked (result : outcome A E)
| Slept (delay : Q)
| RecordCall (success : bool) (retries : Z).
Arguments Invoked {A E} result.
Arguments Slept {A E} delay.
Arguments RecordCall {A E} success retries.

(** [str(e)] of an exception. *)
Class Exception (E : Type) : Type := str : E -> string.

(** [f"{e}"] where [e] may still be [None]. *)
Definition str_optional {E : Type} `{Exception E} (e : option E) : string :=
  match e with
  | Some e => str e
  | None => "None"
  end.

(** [x ** n] for a float [x] and a loop index [n]. *)
Definition pow (x : Q) (n : nat) : Q := Qpower x (Z.of_nat n).

(** [time.sleep(delay)] accepts a delay only when it is not negative, and
    raises [ValueError] otherwise. *)
Definition sleep_accepts (delay : Q) : bool := Qle_bool 0 delay.

(** [range(n)] for an integer [n]: empty when [n <= 0]. *)
Definition range (n : Z) : list nat := seq 0 (Z.to_nat n).

(** The calls of the wrapped function in a list of events, and the delays
    slept, each in order. *)
Definition invocations {A E : Type} (trace : list (event A E)) : list (outcome A E) :=
  flat_map (fun ev => match ev with Invoked o => [o] | _ => [] end) trace.

Definition delays {A E : Type} (trace : list (event A E)) : list Q :=
  flat_map (fun ev => match ev with Slept d => [d] | _ => [] end) trace.

End Python.

(* --------------------------------------------------------------------- *)
(** ** Decimal arithmetic                                                 *)
(* --------------------------------------------------------------------- *)

(** The payment modules keep money in [Decimal]s.  A finite [Decimal] is
    modelled by the rational it denotes, and the amounts and balances of
    the models are finite decimals; the special values ([NaN], [sNaN], the
    infinities) appear only in [Decimal.t], for the comparisons of
    [_validate_request].  Comparisons of finite decimals are exact.  Sums,
    differences and products are computed exactly and then rounded by the
    context of the [decimal] module, which these modules leave at its
    default: 28 significant digits, ties to the even digit
    ([ROUND_HALF_EVEN]), and no digit below [10 ** -1000026].  A result of
    [10 ** 1000000] or more raises [Overflow] in Python; this is left out,
    and amounts and balances are taken to be smaller than that. *)

Module Decimal.

Definition prec : Z := 28.

(** [Etiny()]: the exponent of the last digit a result can have,
    [Emin - prec + 1] for [Emin = -999999]. *)
Definition etiny : Z := -1000026.

(** The number of decimal digits of a positive integer. *)
Fixpoint digits_from (fuel : nat) (a : Z) : Z :=
  match fuel with
  | O => 1
  | S fuel => if (a <? 10)%Z then 1%Z else (1 + digits_from fuel (a / 10))%Z
  end.

Definition digits (a : Z) : Z := digits_from (Z.to_nat (Z.log2 a)) a.

(** [a / b] rounded to an integer, ties to even, for [0 <= a] and
    [0 < b]. *)
Definition div_half_even (a b : Z) : Z :=
  let q := (a / b)%Z in
  match (2 * (a mod b) ?= b)%Z with
  | Lt => q
  | Gt => (q + 1)%Z
  | Eq => if Z.even q then q else (q + 1)%Z
  end.

(** The rounding of the context: [x] rounded to [prec] significant
    digits.  With [k] the exponent of the leading digit of [x], the
    coefficient is [|x| / 10 ** e] rounded to an integer, for
    [e = k - (prec - 1)], or for [e = etiny] if that is larger.  A number
    of at most [prec] digits, none of them below [10 ** etiny], is left as
    it is. *)
Definition round (x : Q) : Q :=
  let n := Z.abs (Qnum x) in
  let d := Zpos (Qden x) in
  if (n =? 0)%Z then 0%Q
  else
    let k := (digits n - digits d)%Z in
    let k :=
      if (if (0 <=? k)%Z then (d * 10 ^ k <=? n)%Z else (d <=? n * 10 ^ (- k))%Z)
      then k else (k - 1)%Z in
    let e := Z.max (k - (prec - 1)) etiny in
    let c :=
      if (0 <=? e)%Z then div_half_even n (d * 10 ^ e)
      else div_half_even (n * 10 ^ (- e)) d in
    let c := (Z.sgn (Qnum x) * c)%Z in
    Qred (if (0 <=? e)%Z then inject_Z (c * 10 ^ e) else Qmake c (Z.to_pos (10 ^ (- e)))).

(** [x + y], [x - y] and [x * y] for two finite decimals. *)
Definition add (x y : Q) : Q := round (x + y).

Definition sub (x y : Q) : Q := round (x - y).

Definition mul (x y : Q) : Q := round (x * y).

(** Any [Decimal]: a finite one, an infinity, or a NaN, quiet or
    signalling. *)
Inductive t : Type :=
| Finite (q : Q)
| Infinity (negative : bool)
| NaN (signalling : bool).

(** [x <= y] and [x > y] for a [Decimal] and a finite number.  Ordering a
    NaN raises [InvalidOperation], which is [None] here. *)
Definition le (x : t) (y : Q) : option bool :=
  match x with
  | Finite q => Some (Qle_bool q y)
  | Infinity negative => Some negative
  | NaN _ => None
  end.

Definition gt (x : t) (y : Q) : option bool :=
  match x with
  | Finite q => Some (negb (Qle_bool q y))
  | Infinity negative => Some (negb negative)
  | NaN _ => None
  end.

End Decimal.

(* --------------------------------------------------------------------- *)
(** ** calculator.py                                                      *)
(* --------------------------------------------------------------------- *)

Module Calculator.

(** What [print] writes: a literal line, or the final f-string
    [f"{num1} {operator} {num2} = {result}"] kept with its four
    interpolated values. *)
Inductive line : Type :=
| Text (s : string)
| ResultLine (num1 : float) (operator : string) (num2 : float) (result : float).

(** How the script ends: it runs off its last line, it calls [exit()],
    or an uncaught [ZeroDivisionError] kills it. *)
Inductive exit_status : Type :=
| Finished
| Exited
| ZeroDivisionError.

(** [float.__truediv__]: raises [ZeroDivisionError] when the divisor
    compares equal to zero (either sign), and divides otherwise. *)
Definition truediv (a b : float) : option float :=
  if PrimFloat.eqb b PrimFloat.zero then None else Some (PrimFloat.div a b).

(** The value of [result] after the [if]/[elif] chain (lines 15-28), or
    the reason why the chain did not fall through to the last line. *)
Inductive chain : Type :=
| Computed (result : float)
| Exit (printed : list line)
| Raise.

Definition calculate (num1 num2 : float) (operator : string) : chain :=
  if String.eqb operator "+" then Computed (PrimFloat.add num1 num2)
  else if String.eqb operator "-" then Computed (PrimFloat.sub num1 num2)
  else if String.eqb operator "*" then Computed (PrimFloat.mul num1 num2)
  else if String.eqb operator "/" then
    if PrimFloat.eqb num2 PrimFloat.zero
    then Exit [Text "Error: Cannot divide by zero"]
    else match truediv num1 num2 with
         | Some result => Computed result
         | None => Raise
         end
  else Exit [Text ("Error: Unknown operator '" ++ operator ++ "'")].

(** The whole script after its inputs were parsed: standard output and
    exit status. *)
Definition calculator (num1 num2 : float) (operator : string)
  : list line * exit_status :=
  match calculate num1 num2 operator with
  | Computed result => ([ResultLine num1 operator num2 result], Finished)
  | Exit printed => (printed, Exited)
  | Raise => ([], ZeroDivisionError)
  end.

(** The arithmetic the four operators stand for. *)
Definition arith (operator : string) (num1 num2 : float) : option float :=
  if String.eqb operator "+" then Some (PrimFloat.add num1 num2)
  else if String.eqb operator "-" then Some (PrimFloat.sub num1 num2)
  else if String.eqb operator "*" then Some (PrimFloat.mul num1 num2)
  else if String.eqb operator "/" then Some (PrimFloat.div num1 num2)
  else None.

Definition known_operator (operator : string) : Prop :=
  operator = "+" \/ operator = "-" \/ operator = "*" \/ operator = "/".

End Calculator.

(* --------------------------------------------------------------------- *)
(** ** examples/async_flow_debugger.py                                    *)
(* --------------------------------------------------------------------- *)

Module AsyncFlowDebugger.

Record ScheduledTask : Type := {
  task_name : string;
  task_schedule : string;
  task_touches : list string
}.

Record EventHandler : Type := {
  handler_event : string;
  handler_handler : string;
  handler_touches : list string
}.

Record BackgroundJob : Type := {
  job_name : string;
  job_queue : string;
  job_touches : list string
}.

Record AsyncFlows : Type := {
  scheduled_tasks : list ScheduledTask;
  event_handlers : list EventHandler;
  background_jobs : list BackgroundJob
}.

Definition ASYNC_FLOWS : AsyncFlows := {|
  scheduled_tasks := [
    {| task_name := "nightly_reconciliation"; task_schedule := "0 3 * * *";
       task_touches := ["balance"; "transactions"] |};
    {| task_name := "cleanup_old_sessions"; task_schedule := "0 0 * * *";
       task_touches := ["sessions"] |};
    {| task_name := "generate_reports"; task_schedule := "0 6 * * 1";
       task_touches := ["reports"; "analytics"] |} ];
  event_handlers := [
    {| handler_event := "payment.succeeded"; handler_handler := "update_balance";
       handler_touches := ["balance"; "audit_log"] |};
    {| handler_event := "payment.failed"; handler_handler := "log_failure";
       handler_touches := ["audit_log"; "alerts"] |};
    {| handler_event := "user.registered"; handler_handler := "send_welcome_email";
       handler_touches := ["email_log"; "user_preferences"] |} ];
  background_jobs := [
    {| job_name := "send_notification"; job_queue := "notifications";
       job_touches := ["notification_log"] |};
    {| job_name := "process_refund"; job_queue := "payments";
       job_touches := ["balance"; "transactions"; "audit_log"] |};
    {| job_name := "resize_image"; job_queue := "media";
       job_touches := ["media_storage"; "user_profile"] |} ]
|}.

(** [field in touches] on a Python list of strings. *)
Definition contains (field : string) (touches : list string) : bool :=
  existsb (String.eqb field) touches.

(** The three f-strings of [find_writers]. *)
Definition describe_task (task : ScheduledTask) : string :=
  "⏰ Scheduled: " ++ task_name task ++ " (cron: " ++ task_schedule task ++ ")".

Definition describe_handler (handler : EventHandler) : string :=
  "🔔 Event: " ++ handler_event handler ++ " → " ++ handler_handler handler.

Definition describe_job (job : BackgroundJob) : string :=
  "🔄 Job: " ++ job_name job ++ " (queue: " ++ job_queue job ++ ")".

(** One [for] loop of [find_writers]: [writers.append] under the
    membership test. *)
Definition scan {A : Type} (touches : A -> list string) (describe : A -> string)
    (field : string) (flows : list A) (writers : list string) : list string :=
  fold_left
    (fun writers flow =>
       if contains field (touches flow) then writers ++ [describe flow]
       else writers)
    flows writers.

Definition find_writers (field : string) : list string :=
  let writers := [] in
  let writers :=
    scan task_touches describe_task field (scheduled_tasks ASYNC_FLOWS) writers in
  let writers :=
    scan handler_touches describe_handler field (event_handlers ASYNC_FLOWS) writers in
  let writers :=
    scan job_touches describe_job field (background_jobs ASYNC_FLOWS) writers in
  writers.

(** One [for] loop of [get_all_fields]: [fields.update(flow["touches"])]. *)
Definition collect {A : Type} (touches : A -> list string)
    (flows : list A) (fields : gset string) : gset string :=
  fold_left (fun fields flow => fields ∪ list_to_set (touches flow)) flows fields.

Definition get_all_fields : gset string :=
  let fields := ∅ in
  let fields := collect task_touches (scheduled_tasks ASYNC_FLOWS) fields in
  let fields := collect handler_touches (event_handlers ASYNC_FLOWS) fields in
  let fields := collect job_touches (background_jobs ASYNC_FLOWS) fields in
  fields.

(** The flows of the inventory as one sequence, in the order scheduled
    tasks, event handlers, background jobs. *)
Inductive flow : Type :=
| Scheduled (task : ScheduledTask)
| Event (handler : EventHandler)
| Job (job : BackgroundJob).

Definition all_flows : list flow :=
  map Scheduled (scheduled_tasks ASYNC_FLOWS)
  ++ map Event (event_handlers ASYNC_FLOWS)
  ++ map Job (background_jobs ASYNC_FLOWS).

Definition touches (fl : flow) : list string :=
  match fl with
  | Scheduled task => task_touches task
  | Event handler => handler_touches handler
  | Job job => job_touches job
  end.

Definition describe (fl : flow) : string :=
  match fl with
  | Scheduled task => describe_task task
  | Event handler => describe_handler handler
  | Job job => describe_job job
  end.

End AsyncFlowDebugger.

(* --------------------------------------------------------------------- *)
(** ** examples/resilient_api_client.py                                   *)
(* --------------------------------------------------------------------- *)

(** Logging calls are left out throughout: nothing reads what they write.
    Of the metrics only [metrics.record_call] inside the retry decorator is
    kept, as an event (without its latency argument, a difference of two
    clock readings that no branch depends on). *)

Module ResilientApiClient.
Import Python.

(** Exceptions leaving this module's wrappers, over the type [E] of the
    exceptions of the wrapped function: one of those passing through
    unchanged, the module's own two classes, or the [ValueError] of
    [time.sleep]. *)
Inductive rejection : Type :=
| CircuitIsOpen (recovery_timeout : Q) (failures : Z)
| HalfOpenMaxCalls.

Inductive error (E : Type) : Type :=
| Propagated (e : E)
| CircuitOpenError (why : rejection)
| MaxRetriesExceededError (message : string) (cause : option E)
| ValueError.
Arguments Propagated {E} e.
Arguments CircuitOpenError {E} why.
Arguments MaxRetriesExceededError {E} message cause.
Arguments ValueError {E}.

(** The exception classes the module defines or names, and the default of
    [retryable_exceptions]: [(TransientError, ConnectionError,
    TimeoutError)], matched through subclassing. *)
Inductive exception : Type :=
| TransientError (message : string)
| RateLimitError (message : string)
| ServiceUnavailableError (message : string)
| ConnectionError (message : string)
| TimeoutError (message : string)
| OtherException (message : string).

#[global] Instance exception_str : Exception exception := fun e =>
  match e with
  | TransientError m | RateLimitError m | ServiceUnavailableError m
  | ConnectionError m | TimeoutError m | OtherException m => m
  end.

Definition default_retryable_exceptions (e : exception) : bool :=
  match e with
  | TransientError _ | RateLimitError _ | ServiceUnavailableError _ => true
  | ConnectionError _ => true
  | TimeoutError _ => true
  | OtherException _ => false
  end.

(** *** Circuit breaker *)

Inductive CircuitState : Type := CLOSED | OPEN | HALF_OPEN.

Record CircuitBreaker : Type := {
  failure_threshold : Z;
  recovery_timeout : Q;
  half_open_max_calls : Z;
  _failures : Z;
  _state : CircuitState;
  _last_failure_time : option Q;
  _half_open_calls : Z
}.

(** The dataclass constructor: the four internal fields are [init=False]. *)
Definition new (failure_threshold : Z) (recovery_timeout : Q)
    (half_open_max_calls : Z) : CircuitBreaker :=
  {| failure_threshold := failure_threshold;
     recovery_timeout := recovery_timeout;
     half_open_max_calls := half_open_max_calls;
     _failures := 0;
     _state := CLOSED;
     _last_failure_time := None;
     _half_open_calls := 0 |}.

Definition set_state (cb : CircuitBreaker) (s : CircuitState) : CircuitBreaker :=
  {| failure_threshold := failure_threshold cb;
     recovery_timeout := recovery_timeout cb;
     half_open_max_calls := half_open_max_calls cb;
     _failures := _failures cb;
     _state := s;
     _last_failure_time := _last_failure_time cb;
     _half_open_calls := _half_open_calls cb |}.

Definition set_failures (cb : CircuitBreaker) (n : Z) : CircuitBreaker :=
  {| failure_threshold := failure_threshold cb;
     recovery_timeout := recovery_timeout cb;
     half_open_max_calls := half_open_max_calls cb;
     _failures := n;
     _state := _state cb;
     _last_failure_time := _last_failure_time cb;
     _half_open_calls := _half_open_calls cb |}.

Definition set_last_failure_time (cb : CircuitBreaker) (t : option Q) : CircuitBreaker :=
  {| failure_threshold := failure_threshold cb;
     recovery_timeout := recovery_timeout cb;
     half_open_max_calls := half_open_max_calls cb;
     _failures := _failures cb;
     _state := _state cb;
     _last_failure_time := t;
     _half_open_calls := _half_open_calls cb |}.

Definition set_half_open_calls (cb : CircuitBreaker) (n : Z) : CircuitBreaker :=
  {| failure_threshold := failure_threshold cb;
     recovery_timeout := recovery_timeout cb;
     half_open_max_calls := half_open_max_calls cb;
     _failures := _failures cb;
     _state := _state cb;
     _last_failure_time := _last_failure_time cb;
     _half_open_calls := n |}.

(** The [state] property; [now] is what [time.time()] returns if it is
    read.  The property mutates the breaker, so it returns it too. *)
Definition state (cb : CircuitBreaker) (now : Q) : CircuitState * CircuitBreaker :=
  match _state cb with
  | OPEN =>
      match _last_failure_time cb with
      | Some last =>
          let elapsed := (now - last)%Q in
          if Qle_bool (recovery_timeout cb) elapsed
          then
            let cb := set_state cb HALF_OPEN in
            let cb := set_half_open_calls cb 0 in
            (_state cb, cb)
          else (_state cb, cb)
      | None => (_state cb, cb)
      end
  | _ => (_state cb, cb)
  end.

Definition _on_success (cb : CircuitBreaker) : CircuitBreaker :=
  let cb := set_failures cb 0 in
  let cb := set_state cb CLOSED in
  set_half_open_calls cb 0.

(** [now] is the reading of [time.time()] stored in [_last_failure_time]. *)
Definition _on_failure (cb : CircuitBreaker) (now : Q) : CircuitBreaker :=
  let cb := set_failures cb (_failures cb + 1) in
  let cb := set_last_failure_time cb (Some now) in
  if (failure_threshold cb <=? _failures cb)%Z
  then set_state cb OPEN
  else cb.

Definition reset (cb : CircuitBreaker) : CircuitBreaker :=
  let cb := set_failures cb 0 in
  let cb := set_state cb CLOSED in
  let cb := set_last_failure_time cb None in
  set_half_open_calls cb 0.

(** The surroundings of one [call]: the clock when the [state] property
    is evaluated, how [func] ends if it is invoked, and the clock when
    [_on_failure] runs. *)
Record call_env (A E : Type) : Type := {
  now_state : Q;
  func_result : outcome A E;
  now_failure : Q
}.
Arguments now_state {A E}.
Arguments func_result {A E}.
Arguments now_failure {A E}.

(** The [try] block at the end of [call]. *)
Definition invoke {A E : Type} (cb : CircuitBreaker) (env : call_env A E)
  : outcome A (error E) * CircuitBreaker :=
  match func_result env with
  | Returned result => (Returned result, _on_success cb)
  | Raised e => (Raised (Propagated e), _on_failure cb (now_failure env))
  end.

Definition call {A E : Type} (cb : CircuitBreaker) (env : call_env A E)
  : outcome A (error E) * CircuitBreaker :=
  let '(current_state, cb) := state cb (now_state env) in
  match current_state with
  | OPEN =>
      (Raised (CircuitOpenError (CircuitIsOpen (recovery_timeout cb) (_failures cb))), cb)
  | HALF_OPEN =>
      if (half_open_max_calls cb <=? _half_open_calls cb)%Z
      then (Raised (CircuitOpenError HalfOpenMaxCalls), cb)
      else
        let cb := set_half_open_calls cb (_half_open_calls cb + 1) in
        invoke cb env
  | CLOSED => invoke cb env
  end.

(** *** Retry with exponential backoff *)

(** The [for attempt in range(max_retries + 1)] loop of [wrapper], over the
    attempts still to make.  [func attempt] is how the invocation made in
    that attempt ends and [random attempt] what [random.random()] returns
    in it.  The result is the events of the call, oldest first, and how the
    wrapper ends. *)
Fixpoint wrapper_loop {A E : Type} `{Exception E}
    (max_retries : Z) (base_delay max_delay exponential_base : Q) (jitter : bool)
    (retryable_exceptions : E -> bool)
    (func : nat -> outcome A E) (random : nat -> Q)
    (attempts : list nat) (last_exception : option E) (retries_used : Z)
  : list (event A E) * outcome A (error E) :=
  match attempts with
  | [] =>
      ([], Raised (MaxRetriesExceededError
                     ("Unexpected retry failure: " ++ str_optional last_exception) None))
  | attempt :: attempts =>
      match func attempt with
      | Returned result =>
          ([Invoked (Returned result); RecordCall true retries_used], Returned result)
      | Raised e =>
          if retryable_exceptions e then
            let last_exception := Some e in
            let retries_used := (Z.of_nat attempt + 1)%Z in
            if (Z.of_nat attempt =? max_retries)%Z then
              ([Invoked (Raised e); RecordCall false retries_used],
               Raised (MaxRetriesExceededError
                         ("Failed after " ++ pretty max_retries ++ " retries: " ++ str e)
                         (Some e)))
            else
              let delay := Qmin (base_delay * pow exponential_base attempt)%Q max_delay in
              let delay :=
                if jitter then (delay * ((3 # 4) + random attempt * (1 # 2)))%Q else delay in
              if sleep_accepts delay then
                let '(trace, result) :=
                  wrapper_loop max_retries base_delay max_delay exponential_base jitter
                    retryable_exceptions func random attempts last_exception retries_used in
                (Invoked (Raised e) :: Slept delay :: trace, result)
              else ([Invoked (Raised e)], Raised ValueError)
          else
            ([Invoked (Raised e); RecordCall false retries_used], Raised (Propagated e))
      end
  end.

(** One call of the function decorated with [retry_with_backoff]. *)
Definition retry_with_backoff {A E : Type} `{Exception E}
    (max_retries : Z) (base_delay max_delay exponential_base : Q) (jitter : bool)
    (retryable_exceptions : E -> bool)
    (func : nat -> outcome A E) (random : nat -> Q)
  : list (event A E) * outcome A (error E) :=
  wrapper_loop max_retries base_delay max_delay exponential_base jitter
    retryable_exceptions func random (range (max_retries + 1)) None 0.

End ResilientApiClient.

(* --------------------------------------------------------------------- *)
(** ** examples/payment_handlers.py: circuit breaker and retry decorator  *)
(* --------------------------------------------------------------------- *)

Module PaymentHandlers.
Import Python.

Inductive error (E : Type) : Type :=
| Propagated (e : E)
| CircuitOpenError (name : string)
| MaxRetriesExceededError (message : string) (cause : option E)
| ValueError.
Arguments Propagated {E} e.
Arguments CircuitOpenError {E} name.
Arguments MaxRetriesExceededError {E} message cause.
Arguments ValueError {E}.

(** *** Circuit breaker *)

Inductive CircuitState : Type := CLOSED | OPEN | HALF_OPEN.

Record CircuitBreaker : Type := {
  name : string;
  failure_threshold : Z;
  recovery_timeout : Q;
  half_open_max_calls : Z;
  _failures : Z;
  _state : CircuitState;
  _last_failure_time : option Q;
  _half_open_calls : Z
}.

Definition new (name : string) (failure_threshold : Z) (recovery_timeout : Q)
    (half_open_max_calls : Z) : CircuitBreaker :=
  {| name := name;
     failure_threshold := failure_threshold;
     recovery_timeout := recovery_timeout;
     half_open_max_calls := half_open_max_calls;
     _failures := 0;
     _state := CLOSED;
     _last_failure_time := None;
     _half_open_calls := 0 |}.

Definition set_state (cb : CircuitBreaker) (s : CircuitState) : CircuitBreaker :=
  {| name := name cb;
     failure_threshold := failure_threshold cb;
     recovery_timeout := recovery_timeout cb;
     half_open_max_calls := half_open_max_calls cb;
     _failures := _failures cb;
     _state := s;
     _last_failure_time := _last_failure_time cb;
     _half_open_calls := _half_open_calls cb |}.

Definition set_failures (cb : CircuitBreaker) (n : Z) : CircuitBreaker :=
  {| name := name cb;
     failure_threshold := failure_threshold cb;
     recovery_timeout := recovery_timeout cb;
     half_open_max_calls := half_open_max_calls cb;
     _failures := n;
     _state := _state cb;
     _last_failure_time := _last_failure_time cb;
     _half_open_calls := _half_open_calls cb |}.

Definition set_last_failure_time (cb : CircuitBreaker) (t : option Q) : CircuitBreaker :=
  {| name := name cb;
     failure_threshold := failure_threshold cb;
     recovery_timeout := recovery_timeout cb;
     half_open_max_calls := half_open_max_calls cb;
     _failures := _failures cb;
     _state := _state cb;
     _last_failure_time := t;
     _half_open_calls := _half_open_calls cb |}.

Definition set_half_open_calls (cb : CircuitBreaker) (n : Z) : CircuitBreaker :=
  {| name := name cb;
     failure_threshold := failure_threshold cb;
     recovery_timeout := recovery_timeout cb;
     half_open_max_calls := half_open_max_calls cb;
     _failures := _failures cb;
     _state := _state cb;
     _last_failure_time := _last_failure_time cb;
     _half_open_calls := n |}.

(** Truth value of an [Optional[float]]: [None] and [0.0] are false. *)
Definition truthy (t : option Q) : bool :=
  match t with
  | Some t => negb (Qeq_bool t 0)
  | None => false
  end.

(** The [state] property.  Its test is [self._state == OPEN and
    self._last_failure_time], so a failure recorded at clock [0.0] counts
    as none. *)
Definition state (cb : CircuitBreaker) (now : Q) : CircuitState * CircuitBreaker :=
  match _state cb, _last_failure_time cb with
  | OPEN, Some last =>
      if truthy (_last_failure_time cb) then
        if Qle_bool (recovery_timeout cb) (now - last)%Q
        then
          let cb := set_state cb HALF_OPEN in
          let cb := set_half_open_calls cb 0 in
          (_state cb, cb)
        else (_state cb, cb)
      else (_state cb, cb)
  | _, _ => (_state cb, cb)
  end.

Definition _on_success (cb : CircuitBreaker) : CircuitBreaker :=
  let cb := set_failures cb 0 in
  let cb := set_state cb CLOSED in
  set_half_open_calls cb 0.

Definition _on_failure (cb : CircuitBreaker) (now : Q) : CircuitBreaker :=
  let cb := set_failures cb (_failures cb + 1) in
  let cb := set_last_failure_time cb (Some now) in
  if (failure_threshold cb <=? _failures cb)%Z
  then set_state cb OPEN
  else cb.

Record call_env (A E : Type) : Type := {
  now_state : Q;
  func_result : outcome A E;
  now_failure : Q
}.
Arguments now_state {A E}.
Arguments func_result {A E}.
Arguments now_failure {A E}.

Definition invoke {A E : Type} (cb : CircuitBreaker) (env : call_env A E)
  : outcome A (error E) * CircuitBreaker :=
  match func_result env with
  | Returned result => (Returned result, _on_success cb)
  | Raised e => (Raised (Propagated e), _on_failure cb (now_failure env))
  end.

Definition call {A E : Type} (cb : CircuitBreaker) (env : call_env A E)
  : outcome A (error E) * CircuitBreaker :=
  let '(current_state, cb) := state cb (now_state env) in
  match current_state with
  | OPEN => (Raised (CircuitOpenError (name cb)), cb)
  | HALF_OPEN =>
      let cb := set_half_open_calls cb (_half_open_calls cb + 1) in
      invoke cb env
  | CLOSED => invoke cb env
  end.

(** *** Retry with exponential backoff *)

Fixpoint wrapper_loop {A E : Type} `{Exception E}
    (max_retries : Z) (base_delay max_delay exponential_base : Q) (jitter : bool)
    (retryable_exceptions : E -> bool)
    (func : nat -> outcome A E) (random : nat -> Q)
    (attempts : list nat) (last_exception : option E)
  : list (event A E) * outcome A (error E) :=
  match attempts with
  | [] =>
      ([], Raised (MaxRetriesExceededError
                     ("Unexpected: " ++ str_optional last_exception) None))
  | attempt :: attempts =>
      match func attempt with
      | Returned result => ([Invoked (Returned result)], Returned result)
      | Raised e =>
          if retryable_exceptions e then
            let last_exception := Some e in
            if (Z.of_nat attempt =? max_retries)%Z then
              ([Invoked (Raised e)],
               Raised (MaxRetriesExceededError
                         ("Failed after " ++ pretty max_retries ++ " retries: " ++ str e)
                         (Some e)))
            else
              let delay := Qmin (base_delay * pow exponential_base attempt)%Q max_delay in
              let delay :=
                if jitter then (delay * ((3 # 4) + random attempt * (1 # 2)))%Q else delay in
              if sleep_accepts delay then
                let '(trace, result) :=
                  wrapper_loop max_retries base_delay max_delay exponential_base jitter
                    retryable_exceptions func random attempts last_exception in
                (Invoked (Raised e) :: Slept delay :: trace, result)
              else ([Invoked (Raised e)], Raised ValueError)
          else ([Invoked (Raised e)], Raised (Propagated e))
      end
  end.

Definition retry_with_backoff {A E : Type} `{Exception E}
    (max_retries : Z) (base_delay max_delay exponential_base : Q) (jitter : bool)
    (retryable_exceptions : E -> bool)
    (func : nat -> outcome A E) (random : nat -> Q)
  : list (event A E) * outcome A (error E) :=
  wrapper_loop max_retries base_delay max_delay exponential_base jitter
    retryable_exceptions func random (range (max_retries + 1)) None.

End PaymentHandlers.

(* --------------------------------------------------------------------- *)
(** ** examples/payment_service.py                                        *)
(* --------------------------------------------------------------------- *)

Module PaymentService.
Import Python.

(** *** Error hierarchy *)

(** Values stored in the [details] dict of an API error. *)
Inductive value : Type :=
| VNone
| VStr (s : string)
| VInt (n : Z).

Inductive api_class : Type :=
| BaseAPIError_
| ValidationError_
| PaymentDeclinedError_
| DuplicatePaymentError_
| PaymentServiceUnavailableError_
| PartialFailureError_.

Record BaseAPIError : Type := {
  api_class_of : api_class;
  message : string;
  code : string;
  status_code : Z;
  details : gmap string value
}.

(** A response body: the dict of a processed payment, or the
    [{"error": {...}}] dict, whose [details] key may be missing. *)
Record transaction_dict : Type := {
  dict_id : string;
  dict_user_id : Z;
  dict_amount : Q;
  dict_currency : string;
  dict_status : string;
  dict_stripe_charge_id : option string;
  dict_created_at : Z
}.

Inductive response : Type :=
| Payment (status : string) (transaction : transaction_dict)
| Error (code message : string) (details : option (gmap string value)).

Definition to_response (self : BaseAPIError) : response :=
  Error (code self) (message self) (Some (details self)).

(** Truth value of an [Optional[str]]: [None] and the empty string are
    false. *)
Definition nonempty (s : option string) : bool :=
  match s with
  | Some s => negb (String.eqb s "")
  | None => false
  end.

Definition ValidationError (message : string) (field : option string) : BaseAPIError :=
  {| api_class_of := ValidationError_;
     message := message;
     code := "VALIDATION_ERROR";
     status_code := 400;
     details := match field with
                | Some f => if nonempty field then {[ "field" := VStr f ]} else ∅
                | None => ∅
                end |}.

Definition PaymentDeclinedError (decline_code : option string) (message : string)
  : BaseAPIError :=
  {| api_class_of := PaymentDeclinedError_;
     message := message;
     code := "PAYMENT_DECLINED";
     status_code := 402;
     details := {[ "decline_code" := match decline_code with
                                     | Some c => VStr c
                                     | None => VNone
                                     end ]} |}.

Definition DuplicatePaymentError (original_transaction_id : string) : BaseAPIError :=
  {| api_class_of := DuplicatePaymentError_;
     message := "This payment has already been processed";
     code := "DUPLICATE_PAYMENT";
     status_code := 409;
     details := {[ "original_transaction_id" := VStr original_transaction_id ]} |}.

Definition PaymentServiceUnavailableError (retry_after : option Z) : BaseAPIError :=
  {| api_class_of := PaymentServiceUnavailableError_;
     message := "Payment service temporarily unavailable. Please try again.";
     code := "SERVICE_UNAVAILABLE";
     status_code := 503;
     details := match retry_after with
                | Some n => if (n =? 0)%Z then ∅ else {[ "retry_after_seconds" := VInt n ]}
                | None => ∅
                end |}.

Definition PartialFailureError (stripe_charge_id : option string) (failure_reason : string)
  : BaseAPIError :=
  {| api_class_of := PartialFailureError_;
     message := "Payment processed but record creation failed. Support notified.";
     code := "PARTIAL_FAILURE";
     status_code := 500;
     details :=
       {[ "stripe_charge_id" := match stripe_charge_id with
                                | Some c => VStr c
                                | None => VNone
                                end;
          "failure_reason" := VStr failure_reason;
          "action" :=
            VStr "Your payment was successful. Our team will ensure it's recorded." ]} |}.

(** The exceptions that occur in the module: its retryable classes, the
    API errors, and any other [Exception] (named by its class). *)
Inductive exception : Type :=
| RetryableError (message : string)
| StripeTimeoutError (message : string)
| StripeRateLimitError (retry_after : Z)
| APIError (e : BaseAPIError)
| OtherException (class_name : string) (message : string).

#[global] Instance exception_str : Exception exception := fun e =>
  match e with
  | RetryableError m | StripeTimeoutError m | OtherException _ m => m
  | StripeRateLimitError retry_after =>
      ("Rate limited. Retry after " ++ pretty retry_after ++ "s")%string
  | APIError e => message e
  end.

(** Classes named in [except] clauses and [isinstance] tests. *)
Inductive class : Type :=
| Exception_
| RetryableError_
| StripeTimeoutError_
| StripeRateLimitError_
| BaseAPIError_c.

Definition isinstance (e : exception) (c : class) : bool :=
  match c, e with
  | Exception_, _ => true
  | RetryableError_, (RetryableError _ | StripeTimeoutError _ | StripeRateLimitError _) => true
  | StripeTimeoutError_, StripeTimeoutError _ => true
  | StripeRateLimitError_, StripeRateLimitError _ => true
  | BaseAPIError_c, APIError _ => true
  | _, _ => false
  end.

(** [isinstance(e, classes)] for a tuple of classes, as in
    [except classes as e]. *)
Definition isinstance_any (e : exception) (classes : list class) : bool :=
  existsb (isinstance e) classes.

(** *** Retry decorator *)

Fixpoint wrapper_loop {A : Type}
    (max_retries : Z) (base_delay max_delay exponential_base : Q)
    (retryable_exceptions : list class)
    (func : nat -> outcome A exception)
    (attempts : list nat) (last_exception : option exception)
  : list (event A exception) * outcome A exception :=
  match attempts with
  | [] =>
      ([], match last_exception with
           | Some e => Raised e
           | None => Raised (OtherException "TypeError"
                               "exceptions must derive from BaseException")
           end)
  | attempt :: attempts =>
      match func attempt with
      | Returned result => ([Invoked (Returned result)], Returned result)
      | Raised e =>
          if isinstance_any e retryable_exceptions then
            let last_exception := Some e in
            if (Z.of_nat attempt =? max_retries)%Z then
              ([Invoked (Raised e)], Raised e)
            else
              let delay :=
                match e with
                | StripeRateLimitError retry_after => Qmin (inject_Z retry_after) max_delay
                | _ => Qmin (base_delay * pow exponential_base attempt)%Q max_delay
                end in
              if sleep_accepts delay then
                let '(trace, result) :=
                  wrapper_loop max_retries base_delay max_delay exponential_base
                    retryable_exceptions func attempts last_exception in
                (Invoked (Raised e) :: Slept delay :: trace, result)
              else
                ([Invoked (Raised e)],
                 Raised (OtherException "ValueError" "sleep length must be non-negative"))
          else ([Invoked (Raised e)], Raised e)
      end
  end.

Definition retry_with_backoff {A : Type}
    (max_retries : Z) (base_delay max_delay exponential_base : Q)
    (retryable_exceptions : list class)
    (func : nat -> outcome A exception)
  : list (event A exception) * outcome A exception :=
  wrapper_loop max_retries base_delay max_delay exponential_base
    retryable_exceptions func (range (max_retries + 1)) None.

(** *** Data models *)

Inductive TransactionStatus : Type := PENDING | COMPLETED | FAILED | REFUNDED.

Definition status_value (s : TransactionStatus) : string :=
  match s with
  | PENDING => "pending"
  | COMPLETED => "completed"
  | FAILED => "failed"
  | REFUNDED => "refunded"
  end.

Module User.
Record t : Type := {
  id : Z;
  email : string;
  balance : Q;
  default_card_id : option string
}.

Definition has_valid_card (self : t) : bool :=
  match default_card_id self with
  | Some _ => true
  | None => false
  end.

Definition set_balance (self : t) (new_balance : Q) : t :=
  {| id := id self; email := email self; balance := new_balance;
     default_card_id := default_card_id self |}.
End User.

Module Transaction.
Record t : Type := {
  id : string;
  user_id : Z;
  amount : Q;
  currency : string;
  status : TransactionStatus;
  stripe_charge_id : option string;
  idempotency_key : string;
  created_at : Z;
  error_message : option string
}.

Definition to_dict (self : t) : transaction_dict :=
  {| dict_id := id self;
     dict_user_id := user_id self;
     dict_amount := amount self;
     dict_currency := currency self;
     dict_status := status_value (status self);
     dict_stripe_charge_id := stripe_charge_id self;
     dict_created_at := created_at self |}.

Definition set_status (self : t) (s : TransactionStatus) : t :=
  {| id := id self; user_id := user_id self; amount := amount self;
     currency := currency self; status := s;
     stripe_charge_id := stripe_charge_id self;
     idempotency_key := idempotency_key self; created_at := created_at self;
     error_message := error_message self |}.

Definition set_error_message (self : t) (m : option string) : t :=
  {| id := id self; user_id := user_id self; amount := amount self;
     currency := currency self; status := status self;
     stripe_charge_id := stripe_charge_id self;
     idempotency_key := idempotency_key self; created_at := created_at self;
     error_message := m |}.

Definition set_stripe_charge_id (self : t) (c : option string) : t :=
  {| id := id self; user_id := user_id self; amount := amount self;
     currency := currency self; status := status self;
     stripe_charge_id := c;
     idempotency_key := idempotency_key self; created_at := created_at self;
     error_message := error_message self |}.
End Transaction.

Module PaymentRequest.
(** [user_id] is [None] when the request body has no such key. *)
Record t : Type := {
  user_id : option Z;
  amount : Q;
  currency : string;
  description : option string;
  idempotency_key : option string
}.
End PaymentRequest.

(** An entry of the reconciliation queue. *)
Record queue_item : Type := {
  item_type : string;
  item_stripe_charge_id : option string;
  item_transaction_id : string;
  item_user_id : Z;
  item_amount : Q;
  item_error : string;
  item_action_required : string;
  item_queued_at : Z
}.

(** *** The module-level state

    The dicts of the repositories, the list of the queue and the counter
    of the Stripe mock are class attributes: every instance shares them,
    and they outlive a request. *)
Record store : Type := {
  _users : gmap Z User.t;
  _transactions : gmap string Transaction.t;
  _idempotency_index : gmap string string;
  _queue : list queue_item;
  _failure_counter : Z
}.

Definition set_users (σ : store) (m : gmap Z User.t) : store :=
  {| _users := m; _transactions := _transactions σ;
     _idempotency_index := _idempotency_index σ; _queue := _queue σ;
     _failure_counter := _failure_counter σ |}.

Definition set_transactions (σ : store) (m : gmap string Transaction.t) : store :=
  {| _users := _users σ; _transactions := m;
     _idempotency_index := _idempotency_index σ; _queue := _queue σ;
     _failure_counter := _failure_counter σ |}.

Definition set_idempotency_index (σ : store) (m : gmap string string) : store :=
  {| _users := _users σ; _transactions := _transactions σ;
     _idempotency_index := m; _queue := _queue σ;
     _failure_counter := _failure_counter σ |}.

Definition set_queue (σ : store) (q : list queue_item) : store :=
  {| _users := _users σ; _transactions := _transactions σ;
     _idempotency_index := _idempotency_index σ; _queue := q;
     _failure_counter := _failure_counter σ |}.

Definition set_failure_counter (σ : store) (n : Z) : store :=
  {| _users := _users σ; _transactions := _transactions σ;
     _idempotency_index := _idempotency_index σ; _queue := _queue σ;
     _failure_counter := n |}.

(** The state when the module has just been imported. *)
Definition initial_store : store :=
  {| _users :=
       {[ 1%Z := {| User.id := 1; User.email := "alice@example.com";
                    User.balance := 1000; User.default_card_id := Some "card_abc123" |};
          2%Z := {| User.id := 2; User.email := "bob@example.com";
                    User.balance := 500; User.default_card_id := Some "card_def456" |};
          3%Z := {| User.id := 3; User.email := "charlie@example.com";
                    User.balance := 250; User.default_card_id := None |} ]};
     _transactions := ∅;
     _idempotency_index := ∅;
     _queue := [];
     _failure_counter := 0 |}.

(** What the outside world supplies during one request: the random roll
    and the charge id of the [create_charge] call that raises
    [_failure_counter] to a given value, the id of the new transaction,
    the clock, and the digest of [_generate_idempotency_key] (a function
    of the user id, amount, currency and date it hashes). *)
Record env : Type := {
  roll : Z -> Q;
  charge_id : Z -> string;
  transaction_id : string;
  utcnow : Z;
  today : Z;
  digest : option Z -> Q -> string -> Z -> string
}.

(** *** Repositories *)

Definition get_by_id (σ : store) (user_id : option Z) : option User.t :=
  match user_id with
  | Some user_id => _users σ !! user_id
  | None => None
  end.

(** Only the dict is written; it cannot fail. *)
Definition update_balance (σ : store) (user_id : Z) (new_balance : Q)
  : outcome unit exception * store :=
  match _users σ !! user_id with
  | Some user =>
      (Returned tt, set_users σ (<[user_id := User.set_balance user new_balance]> (_users σ)))
  | None => (Returned tt, σ)
  end.

Definition create (σ : store) (transaction : Transaction.t) : store :=
  let σ :=
    set_transactions σ (<[Transaction.id transaction := transaction]> (_transactions σ)) in
  if negb (String.eqb (Transaction.idempotency_key transaction) "")
  then set_idempotency_index σ
         (<[Transaction.idempotency_key transaction := Transaction.id transaction]>
            (_idempotency_index σ))
  else σ.

Definition get_by_idempotency_key (σ : store) (key : string) : option Transaction.t :=
  match _idempotency_index σ !! key with
  | Some tx_id => if negb (String.eqb tx_id "") then _transactions σ !! tx_id else None
  | None => None
  end.

Definition update (σ : store) (transaction : Transaction.t)
  : outcome unit exception * store :=
  (Returned tt,
   set_transactions σ (<[Transaction.id transaction := transaction]> (_transactions σ))).

(** An attribute assignment on [transaction] after [create] stored it: the
    dict holds the very same object, so the stored record changes with
    it. *)
Definition assign (σ : store) (transaction : Transaction.t) : store :=
  set_transactions σ (<[Transaction.id transaction := transaction]> (_transactions σ)).

Definition enqueue (σ : store) (item : queue_item) : store :=
  set_queue σ (_queue σ ++ [item]).

(** *** Mock Stripe client *)

Record charge : Type := {
  charge_id_of : option string;
  charge_status : string;
  failure_code : option string;
  failure_message : option string;
  charge_amount : option Z;
  charge_currency : option string;
  charge_customer : option string;
  charge_source : option string;
  charge_description : option string
}.

Definition Qltb (a b : Q) : bool := negb (Qle_bool b a).

Definition create_charge (σ : store) (ρ : env)
    (amount : Z) (currency customer : string) (source : option string)
    (description : option string) (idempotency_key : option string)
  : outcome charge exception * store :=
  let σ := set_failure_counter σ (_failure_counter σ + 1) in
  let roll := roll ρ (_failure_counter σ) in
  if Qltb roll (10 # 100) then
    (Raised (StripeTimeoutError "Connection to Stripe timed out"), σ)
  else if Qltb roll (15 # 100) then
    (Raised (StripeRateLimitError 30), σ)
  else if Qltb roll (25 # 100) then
    (Returned {| charge_id_of := None;
                 charge_status := "failed";
                 failure_code := Some "card_declined";
                 failure_message :=
                   Some "Your card was declined. Please try a different payment method.";
                 charge_amount := None; charge_currency := None;
                 charge_customer := None; charge_source := None;
                 charge_description := None |}, σ)
  else
    let charge_id := ("ch_" ++ charge_id ρ (_failure_counter σ))%string in
    (Returned {| charge_id_of := Some charge_id;
                 charge_status := "succeeded";
                 failure_code := None;
                 failure_message := None;
                 charge_amount := Some amount; charge_currency := Some currency;
                 charge_customer := Some customer; charge_source := source;
                 charge_description := description |}, σ).

(** *** Payment service *)

Definition _validate_request (request : PaymentRequest.t) : outcome unit exception :=
  if Qle_bool (PaymentRequest.amount request) 0 then
    Raised (APIError (ValidationError "Amount must be greater than 0" (Some "amount")))
  else if Qltb 10000 (PaymentRequest.amount request) then
    Raised (APIError (ValidationError "Amount exceeds maximum ($10,000)" (Some "amount")))
  else if negb (existsb (String.eqb (PaymentRequest.currency request)) ["usd"; "eur"; "gbp"])
  then Raised (APIError (ValidationError "Unsupported currency" (Some "currency")))
  else Returned tt.

(** [_validate_request] once more, for a request whose amount is any
    [Decimal]: the first comparison raises [InvalidOperation] for a NaN.
    Whatever passes is finite, and is an amount of [PaymentRequest.t]. *)
Definition _validate_request_of (amount : Decimal.t) (currency : string)
  : outcome unit exception :=
  match Decimal.le amount 0 with
  | None => Raised (OtherException "InvalidOperation" "")
  | Some true =>
      Raised (APIError (ValidationError "Amount must be greater than 0" (Some "amount")))
  | Some false =>
      match Decimal.gt amount 10000 with
      | None => Raised (OtherException "InvalidOperation" "")
      | Some true =>
          Raised (APIError
                    (ValidationError "Amount exceeds maximum ($10,000)" (Some "amount")))
      | Some false =>
          if negb (existsb (String.eqb currency) ["usd"; "eur"; "gbp"])
          then Raised (APIError (ValidationError "Unsupported currency" (Some "currency")))
          else Returned tt
      end
  end.

Definition _generate_idempotency_key (ρ : env) (request : PaymentRequest.t) : string :=
  digest ρ (PaymentRequest.user_id request) (PaymentRequest.amount request)
    (PaymentRequest.currency request) (today ρ).

(** [request.idempotency_key or self._generate_idempotency_key(request)]. *)
Definition idempotency_key_of (ρ : env) (request : PaymentRequest.t) : string :=
  match PaymentRequest.idempotency_key request with
  | Some key =>
      if nonempty (Some key) then key else _generate_idempotency_key ρ request
  | None => _generate_idempotency_key ρ request
  end.

(** [int(x)] of a decimal: truncation towards zero. *)
Definition int (x : Q) : Z := Z.quot (Qnum x) (Zpos (Qden x)).

(** The decorated [_call_stripe_with_retry].  The attempt [k] of the
    decorator calls [create_charge] when [k] earlier calls have already
    raised the counter. *)
Definition _call_stripe_with_retry (σ : store) (ρ : env) (user : User.t)
    (amount : Q) (currency : string) (description : option string)
    (idempotency_key : string)
  : list (event charge exception) * outcome charge exception * store :=
  let func (attempt : nat) :=
    fst (create_charge
           (set_failure_counter σ (_failure_counter σ + Z.of_nat attempt))
           ρ
           (int (Decimal.mul amount 100))
           currency
           ("cus_" ++ pretty (User.id user))%string
           (User.default_card_id user)
           (if nonempty description then description
            else Some ("Payment for user " ++ pretty (User.id user))%string)
           (Some idempotency_key)) in
  let '(trace, result) :=
    retry_with_backoff 3 1 30 2 [StripeTimeoutError_; StripeRateLimitError_] func in
  (trace, result,
   set_failure_counter σ (_failure_counter σ + Z.of_nat (length (invocations trace)))).

Definition _handle_partial_failure (σ : store) (ρ : env)
    (stripe_charge_id : option string) (transaction : Transaction.t) (error : exception)
  : store :=
  enqueue σ
    {| item_type := "partial_payment_failure";
       item_stripe_charge_id := stripe_charge_id;
       item_transaction_id := Transaction.id transaction;
       item_user_id := Transaction.user_id transaction;
       item_amount := Transaction.amount transaction;
       item_error := str error;
       item_action_required := "verify_and_complete_transaction";
       item_queued_at := utcnow ρ |}.

(** Steps 4 to 9 of [process_payment]. *)
Definition charge_and_record (request : PaymentRequest.t) (idempotency_key : string)
    (user : User.t) (σ : store) (ρ : env)
  : list (event charge exception) * outcome response exception * store :=
  let transaction :=
    {| Transaction.id := ("txn_" ++ transaction_id ρ)%string;
       Transaction.user_id := User.id user;
       Transaction.amount := PaymentRequest.amount request;
       Transaction.currency := PaymentRequest.currency request;
       Transaction.status := PENDING;
       Transaction.stripe_charge_id := None;
       Transaction.idempotency_key := idempotency_key;
       Transaction.created_at := utcnow ρ;
       Transaction.error_message := None |} in
  let σ := create σ transaction in
  let '(trace, stripe_outcome, σ) :=
    _call_stripe_with_retry σ ρ user (PaymentRequest.amount request)
      (PaymentRequest.currency request) (PaymentRequest.description request)
      idempotency_key in
  match stripe_outcome with
  | Raised e =>
      if isinstance_any e [StripeTimeoutError_; StripeRateLimitError_] then
        let transaction := Transaction.set_status transaction FAILED in
        let transaction := Transaction.set_error_message transaction (Some (str e)) in
        let σ := assign σ transaction in
        let '(_, σ) := update σ transaction in
        (trace, Raised (APIError (PaymentServiceUnavailableError (Some 60%Z))), σ)
      else (trace, Raised e, σ)
  | Returned stripe_result =>
      if String.eqb (charge_status stripe_result) "failed" then
        let transaction := Transaction.set_status transaction FAILED in
        let transaction :=
          Transaction.set_error_message transaction (failure_message stripe_result) in
        let σ := assign σ transaction in
        let '(_, σ) := update σ transaction in
        (trace,
         Raised (APIError
                   (PaymentDeclinedError
                      (Some (default "unknown" (failure_code stripe_result)))
                      (default "Your payment was declined."
                         (failure_message stripe_result)))),
         σ)
      else
        let stripe_charge_id := charge_id_of stripe_result in
        let transaction := Transaction.set_stripe_charge_id transaction stripe_charge_id in
        let transaction := Transaction.set_status transaction COMPLETED in
        let σ := assign σ transaction in
        match update σ transaction with
        | (Raised e, σ) =>
            let σ := _handle_partial_failure σ ρ stripe_charge_id transaction e in
            (trace,
             Raised (APIError
                       (PartialFailureError stripe_charge_id
                          "Transaction record update failed")),
             σ)
        | (Returned _, σ) =>
            let new_balance :=
              Decimal.add (User.balance user) (PaymentRequest.amount request) in
            let σ :=
              match update_balance σ (User.id user) new_balance with
              | (Raised e, σ) => _handle_partial_failure σ ρ stripe_charge_id transaction e
              | (Returned _, σ) => σ
              end in
            (trace, Returned (Payment "success" (Transaction.to_dict transaction)), σ)
        end
  end.

(** [PaymentService.process_payment]: the Stripe calls and sleeps made,
    how the method ends, and the state it leaves. *)
Definition process_payment (request : PaymentRequest.t) (σ : store) (ρ : env)
  : list (event charge exception) * outcome response exception * store :=
  match _validate_request request with
  | Raised e => ([], Raised e, σ)
  | Returned _ =>
      let idempotency_key := idempotency_key_of ρ request in
      let existing := get_by_idempotency_key σ idempotency_key in
      let duplicate :=
        match existing with
        | Some existing =>
            match Transaction.status existing with
            | COMPLETED =>
                Some (Raised (APIError (DuplicatePaymentError (Transaction.id existing))))
            | PENDING =>
                Some (Returned (Payment "pending" (Transaction.to_dict existing)))
            | _ => None
            end
        | None => None
        end in
      match duplicate with
      | Some early => ([], early, σ)
      | None =>
          match get_by_id σ (PaymentRequest.user_id request) with
          | None =>
              ([], Raised (APIError (ValidationError "User not found" (Some "user_id"))), σ)
          | Some user =>
              if negb (User.has_valid_card user) then
                ([], Raised (APIError
                               (ValidationError
                                  "No valid payment method on file. Please add a card."
                                  (Some "payment_method"))), σ)
              else charge_and_record request idempotency_key user σ ρ
          end
      end
  end.

(** *** The endpoint handler *)

(** The [amount] entry of a request body after [Decimal(str(...))]: the
    key is missing; or its text is no number, in that [Decimal] raises
    [InvalidOperation] or reads a NaN, on which the first comparison of
    [_validate_request] raises [InvalidOperation], so that either way the
    [try] block ends with that exception before anything is written; or it
    is the finite decimal [q].  The texts of the infinities are left
    out. *)
Inductive amount_entry : Type :=
| Missing
| Malformed
| Amount (q : Q).

(** A request body whose other entries have the types that
    [PaymentRequest] declares: [user_id] an int, [currency],
    [description] and [idempotency_key] strings, each of them possibly
    absent ([None]). *)
Record request_body : Type := {
  body_user_id : option Z;
  body_amount : amount_entry;
  body_currency : option string;
  body_description : option string;
  body_idempotency_key : option string
}.

(** The construction of the [PaymentRequest] at the start of the [try]
    block. *)
Definition parse (request_body : request_body) : outcome PaymentRequest.t exception :=
  match body_amount request_body with
  | Malformed => Raised (OtherException "InvalidOperation" "")
  | amount =>
      Returned
        {| PaymentRequest.user_id := body_user_id request_body;
           PaymentRequest.amount := match amount with Amount q => q | _ => 0 end;
           PaymentRequest.currency := default "usd" (body_currency request_body);
           PaymentRequest.description := body_description request_body;
           PaymentRequest.idempotency_key := body_idempotency_key request_body |}
  end.

(** The [try] block of the handler. *)
Definition attempt_payment (request_body : request_body) (σ : store) (ρ : env)
  : list (event charge exception) * outcome response exception * store :=
  match parse request_body with
  | Raised e => ([], Raised e, σ)
  | Returned payment_request => process_payment payment_request σ ρ
  end.

(** The [return] of the [try] block and the two [except] clauses. *)
Definition respond (tried : outcome response exception) : response * Z :=
  match tried with
  | Returned result => (result, 200%Z)
  | Raised (APIError e) => (to_response e, status_code e)
  | Raised _ => (Error "INTERNAL_ERROR" "An unexpected error occurred" None, 500%Z)
  end.

Definition handle_post_payments (request_body : request_body) (σ : store) (ρ : env)
  : (response * Z) * store :=
  let '(_, tried, σ) := attempt_payment request_body σ ρ in
  (respond tried, σ).

(** *** Notions used in the statements *)

(** The request is one of those [_validate_request] rejects. *)
Definition rejected (request : PaymentRequest.t) : Prop :=
  (PaymentRequest.amount request <= 0)%Q
  \/ (10000 < PaymentRequest.amount request)%Q
  \/ ~ In (PaymentRequest.currency request) ["usd"; "eur"; "gbp"].

(** The request names no user, or a user without a default card. *)
Definition cardless (σ : store) (request : PaymentRequest.t) : Prop :=
  get_by_id σ (PaymentRequest.user_id request) = None
  \/ exists user,
       get_by_id σ (PaymentRequest.user_id request) = Some user
       /\ User.default_card_id user = None.

(** The idempotency key of the request leads to no stored transaction
    that is completed or pending. *)
Definition fresh (σ : store) (ρ : env) (request : PaymentRequest.t) : Prop :=
  match get_by_idempotency_key σ (idempotency_key_of ρ request) with
  | Some existing =>
      Transaction.status existing <> COMPLETED /\ Transaction.status existing <> PENDING
  | None => True
  end.

(** The status code of each subclass of [BaseAPIError]. *)
Definition class_status : list (api_class * Z) :=
  [ (ValidationError_, 400%Z); (PaymentDeclinedError_, 402%Z);
    (DuplicatePaymentError_, 409%Z); (PaymentServiceUnavailableError_, 503%Z);
    (PartialFailureError_, 500%Z) ].

(** A world in which Stripe accepts every charge. *)
Definition obliging : env :=
  {| roll := fun _ => 1 # 2;
     charge_id := fun n => pretty n;
     transaction_id := "0123456789abcdef";
     utcnow := 0;
     today := 0;
     digest := fun _ _ _ _ => "digest" |}.

(** The first request of the demo with the key of its two last ones. *)
Definition paid_request : PaymentRequest.t :=
  {| PaymentRequest.user_id := Some 1%Z;
     PaymentRequest.amount := 9999 # 100;
     PaymentRequest.currency := "usd";
     PaymentRequest.description := Some "Test payment";
     PaymentRequest.idempotency_key := Some "test_key_123" |}.

(** The state after that request went through. *)
Definition store_after_payment : store :=
  snd (process_payment paid_request initial_store obliging).

End PaymentService.

(* --------------------------------------------------------------------- *)
(** ** Notions used in the statements                                     *)
(* --------------------------------------------------------------------- *)

Module Backoff.
Import Python.

(** The delay before the retry that follows attempt [k], as the docstrings
    describe it: [min(base_delay * exponential_base ** k, max_delay)]. *)
Definition capped (base_delay max_delay exponential_base : Q) (k : nat) : Q :=
  Qmin (base_delay * pow exponential_base k)%Q max_delay.

(** The jitter factor made from one draw [r] of [random.random()]. *)
Definition factor (r : Q) : Q := ((3 # 4) + r * (1 # 2))%Q.

(** The delay slept after attempt [k] by the two decorators that have a
    [jitter] flag; [random k] is the draw made in that attempt. *)
Definition slept (base_delay max_delay exponential_base : Q) (jitter : bool)
    (random : nat -> Q) (k : nat) : Q :=
  if jitter
  then (capped base_delay max_delay exponential_base k * factor (random k))%Q
  else capped base_delay max_delay exponential_base k.

(** When two wrappers of different modules end alike.  The two modules
    with a [MaxRetriesExceededError] class each raise their own. *)
Definition same_result {A E : Type}
    (r1 : outcome A (ResilientApiClient.error E))
    (r2 : outcome A (PaymentHandlers.error E)) : Prop :=
  match r1, r2 with
  | Returned a, Returned b => a = b
  | Raised (ResilientApiClient.Propagated e), Raised (PaymentHandlers.Propagated e') =>
      e = e'
  | Raised (ResilientApiClient.MaxRetriesExceededError m c),
    Raised (PaymentHandlers.MaxRetriesExceededError m' c') => m = m' /\ c = c'
  | Raised ResilientApiClient.ValueError, Raised PaymentHandlers.ValueError => True
  | _, _ => False
  end.

(** How the wrapper of [payment_service] ends where the one of
    [resilient_api_client] ends with [r1]: alike, except that it re-raises
    the last exception where the other raises [MaxRetriesExceededError]
    chained from it. *)
Definition reraised {A : Type}
    (r1 : outcome A (ResilientApiClient.error PaymentService.exception))
    (r2 : outcome A PaymentService.exception) : Prop :=
  match r1, r2 with
  | Returned a, Returned b => a = b
  | Raised (ResilientApiClient.Propagated e), Raised e' => e = e'
  | Raised (ResilientApiClient.MaxRetriesExceededError _ (Some e)), Raised e' => e = e'
  | Raised ResilientApiClient.ValueError, Raised e' =>
      exists m, e' = PaymentService.OtherException "ValueError" m
  | _, _ => False
  end.

(** The delay [payment_service] sleeps after attempt [k] raised [x]. *)
Definition slept_after (base_delay max_delay exponential_base : Q)
    (x : PaymentService.exception) (k : nat) : Q :=
  match x with
  | PaymentService.StripeRateLimitError retry_after => Qmin (inject_Z retry_after) max_delay
  | _ => capped base_delay max_delay exponential_base k
  end.

Definition is_rate_limit (e : PaymentService.exception) : bool :=
  match e with
  | PaymentService.StripeRateLimitError _ => true
  | _ => false
  end.

End Backoff.

Module Breaker.
Import Python.

(** What the claims about the two circuit breakers look at: the state,
    the failure counter, the threshold, the time of the last recorded
    failure and the recovery timeout. *)
Inductive phase : Type := Closed | Open | HalfOpen.

Record view : Type := {
  phase_of : phase;
  failures : Z;
  threshold : Z;
  last_failure : option Q;
  timeout : Q
}.

(** What makes a breaker change: the [state] property read at clock
    [now], or the end of the call it let through. *)
Inductive cause : Type :=
| StateRead (now : Q)
| Succeeded
| Failed.




Definition rac_phase (s : ResilientApiClient.CircuitState) : phase :=
  match s with
  | ResilientApiClient.CLOSED => Closed
  | ResilientApiClient.OPEN => Open
  | ResilientApiClient.HALF_OPEN => HalfOpen
  end.

Definition rac_view (cb : ResilientApiClient.CircuitBreaker) : view :=
  {| phase_of := rac_phase (ResilientApiClient._state cb);
     failures := ResilientApiClient._failures cb;
     threshold := ResilientApiClient.failure_threshold cb;
     last_failure := ResilientApiClient._last_failure_time cb;
     timeout := ResilientApiClient.recovery_timeout cb |}.

Definition ph_phase (s : PaymentHandlers.CircuitState) : phase :=
  match s with
  | PaymentHandlers.CLOSED => Closed
  | PaymentHandlers.OPEN => Open
  | PaymentHandlers.HALF_OPEN => HalfOpen
  end.

Definition ph_view (cb : PaymentHandlers.CircuitBreaker) : view :=
  {| phase_of := ph_phase (PaymentHandlers._state cb);
     failures := PaymentHandlers._failures cb;
     threshold := PaymentHandlers.failure_threshold cb;
     last_failure := PaymentHandlers._last_failure_time cb;
     timeout := PaymentHandlers.recovery_timeout cb |}.

(** A breaker after a sequence of calls. *)
Definition rac_run {A E : Type} (cb : ResilientApiClient.CircuitBreaker)
    (envs : list (ResilientApiClient.call_env A E)) : ResilientApiClient.CircuitBreaker :=
  fold_left (fun cb env => snd (ResilientApiClient.call cb env)) envs cb.

Definition ph_run {A E : Type} (cb : PaymentHandlers.CircuitBreaker)
    (envs : list (PaymentHandlers.call_env A E)) : PaymentHandlers.CircuitBreaker :=
  fold_left (fun cb env => snd (PaymentHandlers.call cb env)) envs cb.

(** What the induction over the calls carries: outside CLOSED the counter
    has reached the threshold, and in CLOSED it is below it or zero. *)
Definition counted (v : view) : Prop :=
  match phase_of v with
  | Closed => failures v = 0%Z \/ (failures v < threshold v)%Z
  | Open | HalfOpen => (threshold v <= failures v)%Z
  end.

End Breaker.

Module Traces.
Import Python.

(** The arguments of the [metrics.record_call] calls in a list of events. *)
Definition recorded {A E : Type} (trace : list (event A E)) : list (bool * Z) :=
  flat_map (fun ev => match ev with RecordCall s r => [(s, r)] | _ => [] end) trace.

(** Whether a call ended with a value. *)
Definition returned {A E : Type} (o : outcome A E) : bool :=
  match o with
  | Returned _ => true
  | Raised _ => false
  end.

(** The invocations that raised an exception the decorator retries on. *)
Definition retryable_failures {A E : Type} (retryable : E -> bool)
    (os : list (outcome A E)) : nat :=
  length (List.filter (fun o => match o with
                                | Raised x => retryable x
                                | Returned _ => false
                                end) os).

(** Seconds slept in all. *)
Definition total (ds : list Q) : Q := fold_right Qplus 0%Q ds.

End Traces.

Module BreakerRuns.
Import Python Breaker.

(** What holds of a breaker between two calls, for one built with the
    given settings: the settings are still the same, the counter fits the
    state, the state is not HALF_OPEN, and an OPEN breaker has the time of
    a failure on record. *)
Definition rac_settled (failure_threshold : Z) (recovery_timeout : Q)
    (half_open_max_calls : Z) (cb : ResilientApiClient.CircuitBreaker) : Prop :=
  ResilientApiClient.failure_threshold cb = failure_threshold
  /\ ResilientApiClient.recovery_timeout cb = recovery_timeout
  /\ ResilientApiClient.half_open_max_calls cb = half_open_max_calls
  /\ counted (rac_view cb)
  /\ ResilientApiClient._state cb <> ResilientApiClient.HALF_OPEN
  /\ (ResilientApiClient._state cb = ResilientApiClient.OPEN ->
      exists last, ResilientApiClient._last_failure_time cb = Some last).

Definition ph_settled (name : string) (failure_threshold : Z) (recovery_timeout : Q)
    (half_open_max_calls : Z) (cb : PaymentHandlers.CircuitBreaker) : Prop :=
  PaymentHandlers.name cb = name
  /\ PaymentHandlers.failure_threshold cb = failure_threshold
  /\ PaymentHandlers.recovery_timeout cb = recovery_timeout
  /\ PaymentHandlers.half_open_max_calls cb = half_open_max_calls
  /\ counted (ph_view cb)
  /\ PaymentHandlers._state cb <> PaymentHandlers.HALF_OPEN
  /\ (PaymentHandlers._state cb = PaymentHandlers.OPEN ->
      exists last, PaymentHandlers._last_failure_time cb = Some last).



Definition rac_fails {A E : Type} (env : ResilientApiClient.call_env A E) : Prop :=
  exists e, ResilientApiClient.func_result env = Raised e.

Definition ph_fails {A E : Type} (env : PaymentHandlers.call_env A E) : Prop :=
  exists e, PaymentHandlers.func_result env = Raised e.

End BreakerRuns.

Module BreakerExamples.
Import Python.

(** A call at clock [t] whose function fails, and one whose function
    returns. *)
Definition failing (t : Q) : ResilientApiClient.call_env unit string :=
  {| ResilientApiClient.now_state := t;
     ResilientApiClient.func_result := Raised "boom";
     ResilientApiClient.now_failure := t |}.


End BreakerExamples.

(* --------------------------------------------------------------------- *)
(** ** payment_service.py: the rest of the repositories                   *)
(* --------------------------------------------------------------------- *)

Module PaymentServiceMore.
Import Python PaymentService.

Module TransactionRepository.
(** [TransactionRepository.get_by_id]. *)
Definition get_by_id (σ : store) (transaction_id : string) : option Transaction.t :=
  _transactions σ !! transaction_id.
End TransactionRepository.

Module ReconciliationQueue.
(** [ReconciliationQueue.get_pending]: a copy of the list. *)
Definition get_pending (σ : store) : list queue_item := _queue σ.
End ReconciliationQueue.

(** *** Notions used in the statements *)

(** Every user is stored under its own id, as in the dict of the module. *)
Definition users_keyed (σ : store) : Prop :=
  forall k user, _users σ !! k = Some user -> User.id user = k.

(** No stored transaction is pending. *)
Definition none_pending (σ : store) : Prop :=
  forall id transaction,
    _transactions σ !! id = Some transaction -> Transaction.status transaction <> PENDING.

(** The request passes [_validate_request]. *)
Definition valid (request : PaymentRequest.t) : Prop :=
  (0 < PaymentRequest.amount request)%Q
  /\ (PaymentRequest.amount request <= 10000)%Q
  /\ In (PaymentRequest.currency request) ["usd"; "eur"; "gbp"].

(** The parts of the state that hold money and records, apart from the
    call counter of the Stripe mock. *)
Definition same_books (σ σ' : store) : Prop :=
  _users σ' = _users σ
  /\ _transactions σ' = _transactions σ
  /\ _idempotency_index σ' = _idempotency_index σ
  /\ _queue σ' = _queue σ.

(** The transaction of step 4, as it is created. *)
Definition pending_transaction (request : PaymentRequest.t) (idempotency_key : string)
    (user : User.t) (ρ : env) : Transaction.t :=
  {| Transaction.id := ("txn_" ++ transaction_id ρ)%string;
     Transaction.user_id := User.id user;
     Transaction.amount := PaymentRequest.amount request;
     Transaction.currency := PaymentRequest.currency request;
     Transaction.status := PENDING;
     Transaction.stripe_charge_id := None;
     Transaction.idempotency_key := idempotency_key;
     Transaction.created_at := utcnow ρ;
     Transaction.error_message := None |}.

(** Two transactions that differ at most in what steps 5 to 7 write:
    status, charge id and error message. *)
Definition same_payment (t t' : Transaction.t) : Prop :=
  Transaction.id t' = Transaction.id t
  /\ Transaction.user_id t' = Transaction.user_id t
  /\ Transaction.amount t' = Transaction.amount t
  /\ Transaction.currency t' = Transaction.currency t
  /\ Transaction.idempotency_key t' = Transaction.idempotency_key t
  /\ Transaction.created_at t' = Transaction.created_at t.

(** How steps 4 to 9 can end, with the final record [t] of the new
    transaction. *)
Inductive ending : Type := Charged | Declined | Unavailable.

Definition ends (how : ending) (t : Transaction.t)
    (result : outcome response exception) : Prop :=
  match how with
  | Charged =>
      result = Returned (Payment "success" (Transaction.to_dict t))
      /\ Transaction.status t = COMPLETED
      /\ (exists charge, Transaction.stripe_charge_id t = Some charge)
      /\ Transaction.error_message t = None
  | Declined =>
      (exists decline_code message,
         result = Raised (APIError (PaymentDeclinedError (Some decline_code) message)))
      /\ Transaction.status t = FAILED
      /\ Transaction.stripe_charge_id t = None
  | Unavailable =>
      result = Raised (APIError (PaymentServiceUnavailableError (Some 60%Z)))
      /\ Transaction.status t = FAILED
      /\ Transaction.stripe_charge_id t = None
      /\ (exists message, Transaction.error_message t = Some message)
  end.

(** The user dict after step 8 credited [amount] to [user], or as it was
    when the payment did not go through. *)
Definition credited (how : ending) (users : gmap Z User.t) (user : User.t) (amount : Q)
  : gmap Z User.t :=
  match how with
  | Charged =>
      match users !! User.id user with
      | Some stored =>
          <[User.id user := User.set_balance stored (Decimal.add (User.balance user) amount)]>
            users
      | None => users
      end
  | _ => users
  end.

(** The index after [create] stored a transaction under [key]. *)
Definition indexed (index : gmap string string) (key id : string) : gmap string string :=
  if negb (String.eqb key "") then <[key := id]> index else index.

(** The state after a sequence of calls of [process_payment], each in
    its own surroundings. *)
Definition serve (σ : store) (requests : list (PaymentRequest.t * env)) : store :=
  fold_left (fun σ r => snd (process_payment (fst r) σ (snd r))) requests σ.

(** A world in which Stripe declines the card. *)
Definition declining : env :=
  {| roll := fun _ => 2 # 10;
     charge_id := fun n => pretty n;
     transaction_id := "fedcba9876543210";
     utcnow := 1;
     today := 0;
     digest := fun _ _ _ _ => "digest" |}.

End PaymentServiceMore.

(* --------------------------------------------------------------------- *)
(** ** resilient_api_client.py: the metrics and the client                *)
(* --------------------------------------------------------------------- *)

Module Metrics.

(** An entry of [_call_history].  Latencies are Python floats: binary64
    numbers, added as the processor adds them. *)
Record entry : Type := {
  entry_timestamp : string;
  entry_success : bool;
  entry_latency_ms : float;
  entry_retries : Z
}.

Record t : Type := {
  total_calls : Z;
  successful_calls : Z;
  failed_calls : Z;
  retries : Z;
  circuit_breaks : Z;
  total_latency_ms : float;
  _call_history : list entry
}.

(** [Metrics()]. *)
Definition new : t :=
  {| total_calls := 0;
     successful_calls := 0;
     failed_calls := 0;
     retries := 0;
     circuit_breaks := 0;
     total_latency_ms := 0;
     _call_history := [] |}.

(** [Metrics.record_call]; [timestamp] is what
    [datetime.utcnow().isoformat()] returns during the call.  The decorator
    passes the int [0] as the latency of a failed call, which [+=] adds as
    the float [0.0]. *)
Definition record_call (self : t) (success : bool) (latency_ms : float) (retries' : Z)
    (timestamp : string) : t :=
  let history :=
    _call_history self
    ++ [ {| entry_timestamp := timestamp;
            entry_success := success;
            entry_latency_ms := latency_ms;
            entry_retries := retries' |} ] in
  {| total_calls := total_calls self + 1;
     successful_calls :=
       if success then (successful_calls self + 1)%Z else successful_calls self;
     failed_calls := if success then failed_calls self else (failed_calls self + 1)%Z;
     retries := retries self + retries';
     circuit_breaks := circuit_breaks self;
     total_latency_ms := (total_latency_ms self + latency_ms)%float;
     _call_history :=
       if (1000 <? length history)%nat
       then drop (length history - 1000) history
       else history |}.

(** [Metrics.record_circuit_break]. *)
Definition record_circuit_break (self : t) : t :=
  {| total_calls := total_calls self;
     successful_calls := successful_calls self;
     failed_calls := failed_calls self;
     retries := retries self;
     circuit_breaks := circuit_breaks self + 1;
     total_latency_ms := total_latency_ms self;
     _call_history := _call_history self |}.

(** A call of one of the two recording methods, with its arguments. *)
Inductive op : Type :=
| Call (success : bool) (latency_ms : float) (retries : Z) (timestamp : string)
| CircuitBreak.

Definition apply (self : t) (o : op) : t :=
  match o with
  | Call success latency_ms retries' timestamp =>
      record_call self success latency_ms retries' timestamp
  | CircuitBreak => record_circuit_break self
  end.

(** The collector after a sequence of such calls. *)
Definition run (self : t) (ops : list op) : t := fold_left apply ops self.

(** The entries [record_call] appends for a sequence of calls, oldest
    first. *)
Definition entries (ops : list op) : list entry :=
  flat_map (fun o => match o with
                     | Call success latency_ms retries' timestamp =>
                         [ {| entry_timestamp := timestamp;
                              entry_success := success;
                              entry_latency_ms := latency_ms;
                              entry_retries := retries' |} ]
                     | CircuitBreak => []
                     end) ops.

End Metrics.

Module ApiClient.
Import Python.

(** *** The circuit breaker, with the metrics it writes *)

(** [CircuitBreaker._on_failure], with the call of
    [metrics.record_circuit_break] that ends it. *)
Definition _on_failure (cb : ResilientApiClient.CircuitBreaker) (now : Q) (metrics : Metrics.t)
  : ResilientApiClient.CircuitBreaker * Metrics.t :=
  let cb := ResilientApiClient.set_failures cb (ResilientApiClient._failures cb + 1) in
  let cb := ResilientApiClient.set_last_failure_time cb (Some now) in
  if (ResilientApiClient.failure_threshold cb <=? ResilientApiClient._failures cb)%Z
  then (ResilientApiClient.set_state cb ResilientApiClient.OPEN,
        Metrics.record_circuit_break metrics)
  else (cb, metrics).

(** [CircuitBreaker.call] of a function that leaves events behind and
    writes metrics of its own: the events of the call, how it ends, and the
    breaker and the metrics after it.  [now_state] and [now_failure] are
    the two readings of the clock, as in [ResilientApiClient.call]. *)
Definition call {A E Ev : Type} (cb : ResilientApiClient.CircuitBreaker)
    (metrics : Metrics.t) (now_state : Q)
    (func : Metrics.t -> list Ev * outcome A E * Metrics.t) (now_failure : Q)
  : list Ev * outcome A (ResilientApiClient.error E)
    * (ResilientApiClient.CircuitBreaker * Metrics.t) :=
  let invoke cb :=
    let '(trace, result, metrics) := func metrics in
    match result with
    | Returned result =>
        (trace, Returned result, (ResilientApiClient._on_success cb, metrics))
    | Raised e =>
        (trace, Raised (ResilientApiClient.Propagated e), _on_failure cb now_failure metrics)
    end in
  let '(current_state, cb) := ResilientApiClient.state cb now_state in
  match current_state with
  | ResilientApiClient.OPEN =>
      ([],
       Raised (ResilientApiClient.CircuitOpenError
                 (ResilientApiClient.CircuitIsOpen
                    (ResilientApiClient.recovery_timeout cb)
                    (ResilientApiClient._failures cb))),
       (cb, Metrics.record_circuit_break metrics))
  | ResilientApiClient.HALF_OPEN =>
      if (ResilientApiClient.half_open_max_calls cb
          <=? ResilientApiClient._half_open_calls cb)%Z
      then
        ([],
         Raised (ResilientApiClient.CircuitOpenError ResilientApiClient.HalfOpenMaxCalls),
         (cb, metrics))
      else
        invoke (ResilientApiClient.set_half_open_calls cb
                  (ResilientApiClient._half_open_calls cb + 1))
  | ResilientApiClient.CLOSED => invoke cb
  end.

(** *** The client *)

Record ResilientAPIClient : Type := {
  base_url : string;
  timeout : Q;
  circuit_breaker : ResilientApiClient.CircuitBreaker
}.

Definition set_circuit_breaker (self : ResilientAPIClient)
    (cb : ResilientApiClient.CircuitBreaker) : ResilientAPIClient :=
  {| base_url := base_url self; timeout := timeout self; circuit_breaker := cb |}.

(** [s.rstrip("/")]: [s] without the slashes it ends with. *)
Fixpoint rstrip (s : string) : string :=
  match s with
  | EmptyString => EmptyString
  | String c rest =>
      match rstrip rest with
      | EmptyString => if Ascii.eqb c "/"%char then EmptyString else String c EmptyString
      | rest => String c rest
      end
  end.

(** [ResilientAPIClient.__init__]: a breaker is an object without
    [__bool__] or [__len__], so [or] builds the default one only for
    [None]. *)
Definition init (base_url : string) (timeout : Q)
    (circuit_breaker : option ResilientApiClient.CircuitBreaker) : ResilientAPIClient :=
  {| base_url := rstrip base_url;
     timeout := timeout;
     circuit_breaker :=
       match circuit_breaker with
       | Some cb => cb
       | None => ResilientApiClient.new 5 60 3
       end |}.

(** The dict a request returns. *)
Record response : Type := {
  status : string;
  url : string;
  method : string
}.

(** What the outside world supplies during one [request]: the clock read
    by the [state] property, the draws of [random.random()] in each attempt
    (the two of the mock and the one of the jitter), the latency the
    wrapper measures around the invocation that returns, the timestamp of
    [record_call], and the clock read by [_on_failure]. *)
Record world : Type := {
  clock_state : Q;
  failure_draw : nat -> Q;
  kind_draw : nat -> Q;
  jitter_draw : nat -> Q;
  latency_ms : float;
  utcnow : string;
  clock_failure : Q
}.

Definition lt (x y : Q) : bool := negb (Qle_bool y x).

(** The body of [_make_request], as invoked in a given attempt. *)
Definition _make_request_body (self : ResilientAPIClient) (method endpoint : string)
    (ρ : world) (attempt : nat) : outcome response ResilientApiClient.exception :=
  let url := (base_url self ++ endpoint)%string in
  if lt (failure_draw ρ attempt) (3 # 10) then
    if lt (kind_draw ρ attempt) (1 # 2) then
      Raised (ResilientApiClient.ServiceUnavailableError "Service temporarily unavailable")
    else Raised (ResilientApiClient.RateLimitError "Rate limit exceeded")
  else Returned {| status := "ok"; url := url; method := method |}.

(** The calls of [metrics.record_call] in the events of a decorated call,
    applied to the collector: a success carries the latency measured, a
    failure the latency 0. *)
Definition record {A E : Type} (metrics : Metrics.t) (ρ : world)
    (trace : list (event A E)) : Metrics.t :=
  fold_left
    (fun metrics ev =>
       match ev with
       | RecordCall true retries =>
           Metrics.record_call metrics true (latency_ms ρ) retries (utcnow ρ)
       | RecordCall false retries =>
           Metrics.record_call metrics false 0 retries (utcnow ρ)
       | _ => metrics
       end)
    trace metrics.

(** [_make_request], decorated with
    [retry_with_backoff(max_retries=3, base_delay=1.0)]. *)
Definition _make_request (self : ResilientAPIClient) (method endpoint : string)
    (ρ : world) (metrics : Metrics.t)
  : list (event response ResilientApiClient.exception)
    * outcome response (ResilientApiClient.error ResilientApiClient.exception)
    * Metrics.t :=
  let '(trace, result) :=
    ResilientApiClient.retry_with_backoff 3 1 60 2 true
      ResilientApiClient.default_retryable_exceptions
      (_make_request_body self method endpoint ρ) (jitter_draw ρ) in
  (trace, result, record metrics ρ trace).

(** [ResilientAPIClient.request]. *)
Definition request (self : ResilientAPIClient) (metrics : Metrics.t)
    (method endpoint : string) (ρ : world)
  : list (event response ResilientApiClient.exception)
    * outcome response
        (ResilientApiClient.error (ResilientApiClient.error ResilientApiClient.exception))
    * (ResilientAPIClient * Metrics.t) :=
  let '(trace, result, (cb, metrics)) :=
    call (circuit_breaker self) metrics (clock_state ρ)
      (_make_request self method endpoint ρ) (clock_failure ρ) in
  (trace, result, (set_circuit_breaker self cb, metrics)).

(** [get], [post], [put] and [delete]. *)
Definition get (self : ResilientAPIClient) (metrics : Metrics.t) (endpoint : string) :=
  request self metrics "GET" endpoint.

Definition post (self : ResilientAPIClient) (metrics : Metrics.t) (endpoint : string) :=
  request self metrics "POST" endpoint.

Definition put (self : ResilientAPIClient) (metrics : Metrics.t) (endpoint : string) :=
  request self metrics "PUT" endpoint.

Definition delete (self : ResilientAPIClient) (metrics : Metrics.t) (endpoint : string) :=
  request self metrics "DELETE" endpoint.

(** A world in which the service is down: every attempt fails. *)
Definition outage : world :=
  {| clock_state := 0;
     failure_draw := fun _ => 1 # 10;
     kind_draw := fun _ => 1 # 4;
     jitter_draw := fun _ => 1 # 2;
     latency_ms := 12;
     utcnow := "2024-01-01T00:00:00";
     clock_failure := 9 |}.

End ApiClient.

(* --------------------------------------------------------------------- *)
(** ** user_service.py                                                    *)
(* --------------------------------------------------------------------- *)

Module UserService.
Import Python.

(** A row of the mock database: the dict stored for a user, with its four
    keys. *)
Record row : Type := {
  row_id : Z;
  row_name : string;
  row_email : string;
  row_is_active : bool
}.

Record MockDatabase : Type := { _users : gmap Z row }.

(** The global [db = MockDatabase()]. *)
Definition db : MockDatabase :=
  {| _users :=
       {[ 1%Z := {| row_id := 1; row_name := "Alice"; row_email := "alice@example.com";
                    row_is_active := true |};
          2%Z := {| row_id := 2; row_name := "Bob"; row_email := "bob@example.com";
                    row_is_active := true |};
          3%Z := {| row_id := 3; row_name := "Charlie";
                    row_email := "charlie@example.com"; row_is_active := false |} ]} |}.

(** [MockDatabase.query]: the first parameter, or [None] for an empty
    tuple, looked up with [dict.get]; [None] is no key of the dict. *)
Definition query (self : MockDatabase) (sql : string) (params : list Z) : option row :=
  match params with
  | user_id :: _ => _users self !! user_id
  | [] => None
  end.

Inductive exception : Type :=
| TypeError (message : string)
| ValueError (message : string)
| UserNotFoundError (message : string).

Record User : Type := {
  id : Z;
  name : string;
  email : string;
  is_active : bool;
  created_at : Z
}.

(** ["@" in s]. *)
Fixpoint contains_at (s : string) : bool :=
  match s with
  | EmptyString => false
  | String c rest => Ascii.eqb c "@"%char || contains_at rest
  end.

(** The constructor of the dataclass, which ends with [__post_init__];
    [created_at] is what [datetime.utcnow] returns. *)
Definition User_init (id : Z) (name email : string) (is_active : bool) (created_at : Z)
  : outcome User exception :=
  if String.eqb email "" || negb (contains_at email) then
    Raised (ValueError ("Invalid email format: " ++ email))
  else
    Returned {| id := id; name := name; email := email; is_active := is_active;
                created_at := created_at |}.

(** What a caller may pass as [user_id]: an [int] or a [bool] (a subclass
    of [int], so [isinstance] accepts it), or an object of another type, of
    which only the name of the type matters. *)
Inductive integer : Type :=
| Int (n : Z)
| Bool (b : bool).

Inductive object : Type :=
| Integer (i : integer)
| Other (type_name : string).

(** The integer an [int] or [bool] stands for in comparisons and as a key
    of a dict. *)
Definition value (i : integer) : Z :=
  match i with
  | Int n => n
  | Bool true => 1
  | Bool false => 0
  end.

(** [f"{user_id}"]. *)
Definition format (i : integer) : string :=
  match i with
  | Int n => pretty n
  | Bool true => "True"
  | Bool false => "False"
  end.

(** [get_user], reading the database [database]. *)
Definition get_user (database : MockDatabase) (utcnow : Z)
    (user_id : object) (raise_on_missing : bool) : outcome (option User) exception :=
  match user_id with
  | Other type_name => Raised (TypeError ("user_id must be int, got " ++ type_name))
  | Integer i =>
      if (value i <? 1)%Z then
        Raised (ValueError ("user_id must be positive, got " ++ format i))
      else
        match query database "SELECT * FROM users WHERE id = %s" [value i] with
        | None =>
            if raise_on_missing then
              Raised (UserNotFoundError ("No user with id=" ++ format i))
            else Returned None
        | Some result =>
            match User_init (row_id result) (row_name result) (row_email result)
                    (row_is_active result) utcnow with
            | Returned user => Returned (Some user)
            | Raised e => Raised e
            end
        end
  end.

End UserService.

(* --------------------------------------------------------------------- *)
(** ** payment_handlers.py: metrics, mock services and handlers           *)
(* --------------------------------------------------------------------- *)

Module PaymentHandlersMore.
Import Python PaymentHandlers.

(** *** Exceptions *)

(** [TransientError] and its subclasses: what the decorators of this
    module retry on. *)
Inductive transient : Type :=
| TransientError (message : string)
| PaymentServiceError (message : string)
| DatabaseError (message : string).

#[global] Instance transient_str : Exception transient := fun e =>
  match e with
  | TransientError m | PaymentServiceError m | DatabaseError m => m
  end.

(** The exceptions raised in the module, every one of them an
    [Exception].  [BalanceUpdateError] carries the two decimals its message
    shows; [InvalidOperation] is what [Decimal] raises for a text it
    rejects; [ValueError] is raised for an unknown operation and by
    [time.sleep]. *)
Inductive exception : Type :=
| Transient (e : transient)
| CircuitOpenError (message : string)
| MaxRetriesExceededError (message : string) (cause : option transient)
| BalanceUpdateError (current amount : Q)
| InvalidOperation
| ValueError (message : string).

(** *** Metrics *)

Record PaymentMetrics : Type := {
  payments_processed : Z;
  payments_succeeded : Z;
  payments_failed : Z;
  refunds_processed : Z;
  balance_updates : Z;
  total_retries : Z;
  circuit_breaks : Z;
  total_latency_ms : float;
  total_amount_processed : Q;
  total_refunded : Q
}.

(** [PaymentMetrics()]. *)
Definition new_metrics : PaymentMetrics :=
  {| payments_processed := 0;
     payments_succeeded := 0;
     payments_failed := 0;
     refunds_processed := 0;
     balance_updates := 0;
     total_retries := 0;
     circuit_breaks := 0;
     total_latency_ms := 0;
     total_amount_processed := 0;
     total_refunded := 0 |}.

Definition record_payment (self : PaymentMetrics) (success : bool) (amount : Q)
    (latency_ms : float) (retries : Z) : PaymentMetrics :=
  {| payments_processed := payments_processed self + 1;
     payments_succeeded :=
       if success then (payments_succeeded self + 1)%Z else payments_succeeded self;
     payments_failed :=
       if success then payments_failed self else (payments_failed self + 1)%Z;
     refunds_processed := refunds_processed self;
     balance_updates := balance_updates self;
     total_retries := total_retries self + retries;
     circuit_breaks := circuit_breaks self;
     total_latency_ms := (total_latency_ms self + latency_ms)%float;
     total_amount_processed :=
       if success then Decimal.add (total_amount_processed self) amount
       else total_amount_processed self;
     total_refunded := total_refunded self |}.


Definition record_balance_update (self : PaymentMetrics) : PaymentMetrics :=
  {| payments_processed := payments_processed self;
     payments_succeeded := payments_succeeded self;
     payments_failed := payments_failed self;
     refunds_processed := refunds_processed self;
     balance_updates := balance_updates self + 1;
     total_retries := total_retries self;
     circuit_breaks := circuit_breaks self;
     total_latency_ms := total_latency_ms self;
     total_amount_processed := total_amount_processed self;
     total_refunded := total_refunded self |}.

Definition record_circuit_break (self : PaymentMetrics) (service : string)
  : PaymentMetrics :=
  {| payments_processed := payments_processed self;
     payments_succeeded := payments_succeeded self;
     payments_failed := payments_failed self;
     refunds_processed := refunds_processed self;
     balance_updates := balance_updates self;
     total_retries := total_retries self;
     circuit_breaks := circuit_breaks self + 1;
     total_latency_ms := total_latency_ms self;
     total_amount_processed := total_amount_processed self;
     total_refunded := total_refunded self |}.

(** *** The mock database and the mock payment service *)

(** An entry of the audit log: the keys the handlers write, a key that is
    absent being [None]; [entry_amount] and [entry_new_balance] are the
    decimals of which the entry holds the text. *)
Record audit_entry : Type := {
  action : string;
  entry_user_id : option Z;
  entry_payment_id : option string;
  entry_amount : option Q;
  entry_new_balance : option Q;
  entry_error : option string;
  entry_reason : option string;
  entry_refund_id : option string;
  timestamp : option string
}.

Definition set_timestamp (entry : audit_entry) (t : string) : audit_entry :=
  {| action := action entry;
     entry_user_id := entry_user_id entry;
     entry_payment_id := entry_payment_id entry;
     entry_amount := entry_amount entry;
     entry_new_balance := entry_new_balance entry;
     entry_error := entry_error entry;
     entry_reason := entry_reason entry;
     entry_refund_id := entry_refund_id entry;
     timestamp := Some t |}.

(** The balances are keyed by what [event.get("user_id")] gives: an [int],
    or [None] when the key is missing.  Other keys, and the [TypeError] of
    a key that cannot be hashed, are left out. *)
Record MockDatabase : Type := {
  _balances : gmap (option Z) Q;
  _audit_log : list audit_entry
}.

(** The module-level objects: [db], the two circuit breakers and
    [metrics]. *)
Record state : Type := {
  db : MockDatabase;
  db_circuit : CircuitBreaker;
  payment_circuit : CircuitBreaker;
  metrics : PaymentMetrics
}.

Definition set_db (s : state) (d : MockDatabase) : state :=
  {| db := d; db_circuit := db_circuit s; payment_circuit := payment_circuit s;
     metrics := metrics s |}.

Definition set_db_circuit (s : state) (cb : CircuitBreaker) : state :=
  {| db := db s; db_circuit := cb; payment_circuit := payment_circuit s;
     metrics := metrics s |}.

Definition set_payment_circuit (s : state) (cb : CircuitBreaker) : state :=
  {| db := db s; db_circuit := db_circuit s; payment_circuit := cb;
     metrics := metrics s |}.

Definition set_metrics (s : state) (m : PaymentMetrics) : state :=
  {| db := db s; db_circuit := db_circuit s; payment_circuit := payment_circuit s;
     metrics := m |}.

(** The state in which the module is loaded. *)
Definition initial_state : state :=
  {| db := {| _balances := {[ Some 1%Z := 1000%Q; Some 2%Z := 500%Q; Some 3%Z := 250%Q ]};
              _audit_log := [] |};
     db_circuit := new "database" 3 30 3;
     payment_circuit := new "payment_service" 5 60 3;
     metrics := new_metrics |}.

(** What the outside world supplies while a decorated function makes one
    attempt: the clock read by the [state] property, the draws of
    [random.random()] in the function called (the second one is made by
    [update_balance]), what [random.randint(10, 500)] and
    [datetime.utcnow().isoformat()] return, the clock read by
    [_on_failure], and the draw of the jitter. *)
Record tick : Type := {
  clock_state : Q;
  draw : Q;
  second_draw : Q;
  randint : Z;
  utcnow : string;
  clock_failure : Q;
  jitter_draw : Q
}.

Definition lt (x y : Q) : bool := negb (Qle_bool y x).

Definition get_balance (self : MockDatabase) (user_id : option Z) (t : tick)
  : outcome Q exception :=
  if lt (draw t) (1 # 10) then
    Raised (Transient (DatabaseError "Database connection timeout"))
  else Returned (default 0%Q (_balances self !! user_id)).

Definition update_balance (self : MockDatabase) (user_id : option Z) (new_balance : Q)
    (t : tick) : outcome unit exception * MockDatabase :=
  if lt (second_draw t) (1 # 10) then
    (Raised (Transient (DatabaseError "Database write failed")), self)
  else
    (Returned tt,
     {| _balances := <[user_id := new_balance]> (_balances self);
        _audit_log := _audit_log self |}).

Definition add_audit_log (self : MockDatabase) (entry : audit_entry) (t : tick)
  : MockDatabase :=
  {| _balances := _balances self;
     _audit_log := _audit_log self ++ [set_timestamp entry (utcnow t)] |}.

Record payment_details : Type := {
  details_payment_id : option string;
  verified : bool;
  details_amount : Q
}.

Definition verify_payment (payment_id : option string) (t : tick)
  : outcome payment_details exception :=
  if lt (draw t) (15 # 100) then
    Raised (Transient (PaymentServiceError "Payment service unavailable"))
  else
    Returned {| details_payment_id := payment_id;
                verified := true;
                details_amount := inject_Z (randint t) |}.


(** [f"{payment_id}"] for a string or [None]. *)
Definition format (payment_id : option string) : string := default "None" payment_id.


(** *** The circuit breaker, acting on the module's objects *)

(** One of the two breakers of the module. *)
Inductive circuit : Type := Database | PaymentService.

Definition get (c : circuit) (s : state) : CircuitBreaker :=
  match c with
  | Database => db_circuit s
  | PaymentService => payment_circuit s
  end.

Definition set (c : circuit) (s : state) (cb : CircuitBreaker) : state :=
  match c with
  | Database => set_db_circuit s cb
  | PaymentService => set_payment_circuit s cb
  end.

(** [CircuitBreaker._on_failure] of the breaker [c], with the
    [metrics.record_circuit_break] that ends it. *)
Definition _on_failure (c : circuit) (now : Q) (s : state) : state :=
  let cb := get c s in
  let cb := set_failures cb (_failures cb + 1) in
  let cb := set_last_failure_time cb (Some now) in
  if (failure_threshold cb <=? _failures cb)%Z then
    let s := set c s (set_state cb OPEN) in
    set_metrics s (record_circuit_break (metrics s) (name cb))
  else set c s cb.

(** [CircuitBreaker.call] of the breaker [c] on a function that may change
    the module's objects. *)
Definition call {A : Type} (c : circuit) (t : tick)
    (func : state -> outcome A exception * state) (s : state)
  : outcome A exception * state :=
  let '(current_state, cb) := PaymentHandlers.state (get c s) (clock_state t) in
  let s := set c s cb in
  match current_state with
  | OPEN =>
      (Raised (CircuitOpenError ("Circuit '" ++ name cb ++ "' is open")),
       set_metrics s (record_circuit_break (metrics s) (name cb)))
  | _ =>
      let s :=
        match current_state with
        | HALF_OPEN => set c s (set_half_open_calls cb (_half_open_calls cb + 1))
        | _ => s
        end in
      match func s with
      | (Returned result, s) => (Returned result, set c s (_on_success (get c s)))
      | (Raised e, s) => (Raised e, _on_failure c (clock_failure t) s)
      end
  end.

(** *** The retry decorator, around functions that change the module's
    objects *)

(** The loop of [wrapper] for [retryable_exceptions=(TransientError,)], as
    every use of the decorator in the module has it. *)
Fixpoint wrapper_loop {A : Type}
    (max_retries : Z) (base_delay max_delay exponential_base : Q) (jitter : bool)
    (func : nat -> state -> outcome A exception * state) (random : nat -> Q)
    (attempts : list nat) (last_exception : option transient) (s : state)
  : list (event A exception) * outcome A exception * state :=
  match attempts with
  | [] =>
      ([],
       Raised (MaxRetriesExceededError ("Unexpected: " ++ str_optional last_exception) None),
       s)
  | attempt :: attempts =>
      match func attempt s with
      | (Returned result, s) => ([Invoked (Returned result)], Returned result, s)
      | (Raised (Transient e), s) =>
          let last_exception := Some e in
          if (Z.of_nat attempt =? max_retries)%Z then
            ([Invoked (Raised (Transient e))],
             Raised (MaxRetriesExceededError
                       ("Failed after " ++ pretty max_retries ++ " retries: " ++ str e)
                       (Some e)),
             s)
          else
            let delay := Qmin (base_delay * pow exponential_base attempt)%Q max_delay in
            let delay :=
              if jitter then (delay * ((3 # 4) + random attempt * (1 # 2)))%Q else delay in
            if sleep_accepts delay then
              let '(trace, result, s) :=
                wrapper_loop max_retries base_delay max_delay exponential_base jitter
                  func random attempts last_exception s in
              (Invoked (Raised (Transient e)) :: Slept delay :: trace, result, s)
            else
              ([Invoked (Raised (Transient e))],
               Raised (ValueError "sleep length must be non-negative"), s)
      | (Raised e, s) => ([Invoked (Raised e)], Raised e, s)
      end
  end.

Definition retry_with_backoff {A : Type}
    (max_retries : Z) (base_delay max_delay exponential_base : Q) (jitter : bool)
    (func : nat -> state -> outcome A exception * state) (random : nat -> Q) (s : state)
  : list (event A exception) * outcome A exception * state :=
  wrapper_loop max_retries base_delay max_delay exponential_base jitter func random
    (range (max_retries + 1)) None s.

(** *** The decorated functions *)

(** The ticks of the attempts of one decorated call. *)
Definition ticks : Type := nat -> tick.

Definition _fetch_and_verify_payment (payment_id : option string) (w : ticks) (s : state)
  : list (event payment_details exception) * outcome payment_details exception * state :=
  retry_with_backoff 3 (1 # 2) 60 2 true
    (fun attempt =>
       call PaymentService (w attempt) (fun s => (verify_payment payment_id (w attempt), s)))
    (fun attempt => jitter_draw (w attempt)) s.

(** The inner function [do_update] of [_update_user_balance]. *)
Definition do_update (user_id : option Z) (amount : Q) (operation : string) (t : tick)
    (s : state) : outcome Q exception * state :=
  match get_balance (db s) user_id t with
  | Raised e => (Raised e, s)
  | Returned current =>
      let write (new_balance : Q) :=
        match update_balance (db s) user_id new_balance t with
        | (Raised e, d) => (Raised e, set_db s d)
        | (Returned _, d) => (Returned new_balance, set_db s d)
        end in
      if String.eqb operation "credit" then write (Decimal.add current amount)
      else if String.eqb operation "debit" then
        let new_balance := Decimal.sub current amount in
        if lt new_balance 0 then (Raised (BalanceUpdateError current amount), s)
        else write new_balance
      else (Raised (ValueError ("Unknown operation: " ++ operation)), s)
  end.

Definition _update_user_balance (user_id : option Z) (amount : Q) (operation : string)
    (w : ticks) (s : state)
  : list (event Q exception) * outcome Q exception * state :=
  retry_with_backoff 3 (1 # 2) 60 2 true
    (fun attempt => call Database (w attempt) (do_update user_id amount operation (w attempt)))
    (fun attempt => jitter_draw (w attempt)) s.

Definition _write_audit_log (entry : audit_entry) (w : ticks) (s : state)
  : list (event unit exception) * outcome unit exception * state :=
  retry_with_backoff 2 (3 # 10) 60 2 true
    (fun attempt =>
       call Database (w attempt)
         (fun s => (Returned tt, set_db s (add_audit_log (db s) entry (w attempt)))))
    (fun attempt => jitter_draw (w attempt)) s.

(** *** The handlers *)

(** An event: the keys the handlers read, a missing key being [None]. *)
Record event_dict : Type := {
  event_payment_id : option string;
  event_user_id : option Z;
  event_reason : option string
}.

(** What the outside world supplies during [handle_payment_succeeded]:
    the ticks of its decorated calls (the last ones for the audit entry of
    the failure branch) and the two readings of the clock from which the
    latency is computed. *)
Record succeeded_world : Type := {
  verify_ticks : ticks;
  update_ticks : ticks;
  audit_ticks : ticks;
  failure_audit_ticks : ticks;
  start_time : float;
  end_time : float
}.

(** The dict a handler or the job returns; [Error] holds the exception of
    which the dict has the text. *)
Inductive handler_result : Type :=
| Success (user_id : option Z) (amount_credited new_balance : Q)
| Failed (error : string)
| Logged (alert_sent : bool)
| Error (error : exception)
| Refunded (refund_id : string) (new_balance : Q).

(** The [try] block of [handle_payment_succeeded]: how the block ends and
    the state it leaves.  The sleeps of the decorated calls change nothing
    the handler reads. *)
Definition credit_payment (event : event_dict) (ρ : succeeded_world) (s : state)
  : outcome handler_result exception * state :=
  let payment_id := event_payment_id event in
  let user_id := event_user_id event in
  let '(_, verified, s) := _fetch_and_verify_payment payment_id (verify_ticks ρ) s in
  match verified with
  | Raised e => (Raised e, s)
  | Returned payment_details =>
      let amount := details_amount payment_details in
      let '(_, updated, s) :=
        _update_user_balance user_id amount "credit" (update_ticks ρ) s in
      match updated with
      | Raised e => (Raised e, s)
      | Returned new_balance =>
          let s := set_metrics s (record_balance_update (metrics s)) in
          let '(_, written, s) :=
            _write_audit_log
              {| action := "payment_credited";
                 entry_user_id := user_id;
                 entry_payment_id := payment_id;
                 entry_amount := Some amount;
                 entry_new_balance := Some new_balance;
                 entry_error := None;
                 entry_reason := None;
                 entry_refund_id := None;
                 timestamp := None |}
              (audit_ticks ρ) s in
          match written with
          | Raised e => (Raised e, s)
          | Returned _ =>
              let latency_ms := ((end_time ρ - start_time ρ) * 1000)%float in
              let s := set_metrics s (record_payment (metrics s) true amount latency_ms 0) in
              (Returned (Success user_id amount new_balance), s)
          end
      end
  end.

(** The [except (CircuitOpenError, MaxRetriesExceededError)] branch, for
    an exception with the text [message]; whatever the audit log raises is
    swallowed. *)
Definition payment_not_credited (event : event_dict) (ρ : succeeded_world)
    (message : string) (s : state) : outcome handler_result exception * state :=
  let latency_ms := ((end_time ρ - start_time ρ) * 1000)%float in
  let s := set_metrics s (record_payment (metrics s) false 0 latency_ms 0) in
  let '(_, _, s) :=
    _write_audit_log
      {| action := "payment_failed";
         entry_user_id := event_user_id event;
         entry_payment_id := event_payment_id event;
         entry_amount := None;
         entry_new_balance := None;
         entry_error := Some message;
         entry_reason := None;
         entry_refund_id := None;
         timestamp := None |}
      (failure_audit_ticks ρ) s in
  (Returned (Failed message), s).

Definition handle_payment_succeeded (event : event_dict) (ρ : succeeded_world) (s : state)
  : outcome handler_result exception * state :=
  match credit_payment event ρ s with
  | (Raised (CircuitOpenError message), s)
  | (Raised (MaxRetriesExceededError message _), s) =>
      payment_not_credited event ρ message s
  | run => run
  end.

Definition handle_payment_failed (event : event_dict) (w : ticks) (s : state)
  : outcome handler_result exception * state :=
  let reason := default "unknown" (event_reason event) in
  let '(_, written, s) :=
    _write_audit_log
      {| action := "payment_failed";
         entry_user_id := event_user_id event;
         entry_payment_id := event_payment_id event;
         entry_amount := None;
         entry_new_balance := None;
         entry_error := None;
         entry_reason := Some reason;
         entry_refund_id := None;
         timestamp := None |}
      w s in
  match written with
  | Returned _ => (Returned (Logged true), s)
  | Raised e => (Returned (Error e), s)
  end.

(** *** The refund job *)

(** The [amount] of the job data after [Decimal(str(job_data.get("amount",
    0)))]: the key is missing, its text is one that [Decimal] rejects with
    [InvalidOperation], or it is the finite decimal [q].  The texts that
    [Decimal] reads as a NaN or an infinity are left out. *)
Inductive amount_entry : Type :=
| Missing
| Malformed
| Amount (q : Q).





(** *** Notions used in the statements *)

(** The balance [get_balance] reads for a user. *)
Definition balance (s : state) (user_id : option Z) : Q :=
  default 0%Q (_balances (db s) !! user_id).

(** Two collectors that differ at most in [circuit_breaks]. *)
Definition same_counts (m m' : PaymentMetrics) : Prop :=
  payments_processed m' = payments_processed m
  /\ payments_succeeded m' = payments_succeeded m
  /\ payments_failed m' = payments_failed m
  /\ refunds_processed m' = refunds_processed m
  /\ balance_updates m' = balance_updates m
  /\ total_retries m' = total_retries m
  /\ total_latency_ms m' = total_latency_ms m
  /\ total_amount_processed m' = total_amount_processed m
  /\ total_refunded m' = total_refunded m.

(** Two states with the same database, and the same metrics up to
    [circuit_breaks]: only the breakers may have moved. *)
Definition quiet (s s' : state) : Prop :=
  db s' = db s /\ same_counts (metrics s) (metrics s').

(** The draws of the jitter are not negative. *)
Definition drawn (w : ticks) : Prop := forall k, (0 <= jitter_draw (w k))%Q.

(** A tick in which no mock fails, at a given time. *)
Definition calm (now : Q) (amount : Z) : tick :=
  {| clock_state := now;
     draw := 1 # 2;
     second_draw := 1 # 2;
     randint := amount;
     utcnow := "2024-01-01T00:00:00";
     clock_failure := now;
     jitter_draw := 1 # 2 |}.

(** A world in which the payment of 42 of an event goes through. *)
Definition calm_world : succeeded_world :=
  {| verify_ticks := fun _ => calm 0 42;
     update_ticks := fun _ => calm 0 42;
     audit_ticks := fun _ => calm 0 42;
     failure_audit_ticks := fun _ => calm 0 42;
     start_time := 0;
     end_time := 1 |}.


(** The first event and the refund job of the demo. *)
Definition first_event : event_dict :=
  {| event_payment_id := Some "pay_001";
     event_user_id := Some 1%Z;
     event_reason := None |}.


End PaymentHandlersMore.

(* --------------------------------------------------------------------- *)
(** ** The interpreter underneath the decorators                          *)
(* --------------------------------------------------------------------- *)

(** The delays of the decorators are Python floats, and what is slept is
    what binary64 arithmetic gives, not the rational the formula denotes.
    This module has the vocabulary for the decorators as the interpreter
    runs them: floats with the operations of IEEE 754, the two library
    calls whose answer depends on the platform, and the exceptions the
    interpreter can raise between two attempts. *)

Module Runtime.
Import Python.

(** What [time.sleep] is given: an [int] or a [float]. *)
Inductive number : Type :=
| Int (n : Z)
| Float (x : float).

(** [min(a, b)] for two floats: [b] when [b < a], and [a] otherwise (also
    when one of them is a NaN). *)
Definition min (a b : float) : float := if (b <? a)%float then b else a.

(** [x < n] for a float and an int; Python compares the two numbers
    exactly, without converting the int. *)
Definition lt_int (x : float) (n : Z) : bool :=
  match Prim2SF x with
  | S754_zero _ => (0 <? n)%Z
  | S754_infinity negative => negative
  | S754_nan => false
  | S754_finite negative m e =>
      let m := if negative then Z.neg m else Z.pos m in
      if (0 <=? e)%Z then (m * 2 ^ e <? n)%Z else (m <? n * 2 ^ (- e))%Z
  end.

(** [min(n, b)] for an int and a float. *)
Definition min_int (n : Z) (b : float) : number :=
  if lt_int b n then Float b else Int n.


(** The jitter factor [0.75 + random.random() * 0.5]. *)
Definition factor (r : float) : float := (0.75 + r * 0.5)%float.

(** The largest float below 1, which is the largest value of
    [random.random()]. *)
Definition below_one : float := 0x1.fffffffffffffp-1%float.

(** The exceptions the interpreter raises inside the [except] block of a
    wrapper: [OverflowError] by [**] and by [time.sleep], [ValueError] by
    [time.sleep]. *)
Inductive fault : Type :=
| OverflowError
| ValueError.

(** The two calls whose answer is the platform's.  [pow x n] is
    [x ** n] for a float [x] and a loop index [n]: the float the C library
    computes, or the exception raised ([OverflowError] when the result is
    out of range).  [sleep d] is [time.sleep(d)]: nothing when it returns,
    or the exception it raises ([ValueError] for a negative delay or a NaN,
    [OverflowError] for a delay too long for the clock).  The properties
    proved hold whatever the two answer. *)
Class Platform : Type := {
  pow : float -> nat -> outcome float fault;
  sleep : number -> option fault
}.

(** What a decorated call does to the world around it, in order. *)
Inductive event (A E : Type) : Type :=
| Invoked (result : outcome A E)
| Slept (delay : number)
| RecordCall (success : bool) (retries : Z).
Arguments Invoked {A E} result.
Arguments Slept {A E} delay.
Arguments RecordCall {A E} success retries.

Definition invocations {A E : Type} (trace : list (event A E)) : list (outcome A E) :=
  flat_map (fun ev => match ev with Invoked o => [o] | _ => [] end) trace.

Definition delays {A E : Type} (trace : list (event A E)) : list number :=
  flat_map (fun ev => match ev with Slept d => [d] | _ => [] end) trace.

(** The arguments of the [metrics.record_call] calls. *)
Definition recorded {A E : Type} (trace : list (event A E)) : list (bool * Z) :=
  flat_map (fun ev => match ev with RecordCall s r => [(s, r)] | _ => [] end) trace.

(** A platform for the examples: powers by repeated multiplication, which
    is exact for the first powers of 2.0, of 3.0 and of [2.0 ** 600] that
    the examples use and overflows where the C library does, and a clock
    that takes the delays from 0 to 9223372036 seconds. *)
Definition example_pow (x : float) (n : nat) : outcome float fault :=
  let p := Nat.iter n (fun p => (p * x)%float) 1%float in
  if PrimFloat.is_infinity p && negb (PrimFloat.is_infinity x)
  then Raised OverflowError
  else Returned p.

Definition example_sleep (d : number) : option fault :=
  match d with
  | Int n =>
      if (n <? 0)%Z then Some ValueError
      else if (9223372036 <? n)%Z then Some OverflowError
      else None
  | Float x =>
      if PrimFloat.is_nan x || (x <? 0)%float then Some ValueError
      else if (9223372036 <? x)%float then Some OverflowError
      else None
  end.

Definition example : Platform := {| pow := example_pow; sleep := example_sleep |}.

End Runtime.

(* --------------------------------------------------------------------- *)
(** ** examples/resilient_api_client.py, as the interpreter runs it        *)
(* --------------------------------------------------------------------- *)

(** The retry decorator and the circuit breaker once more, closer to the
    interpreter: the delay is computed in binary64, [**] and [time.sleep]
    may raise, and the wrapped function may raise an exception that is no
    [Exception] ([KeyboardInterrupt], [SystemExit], [GeneratorExit]),
    which [except Exception] lets through.  The breaker is the one of
    [ResilientApiClient], with its clock; only the [try] block of [call]
    differs. *)

Module ResilientApiClient64.
Import Python Runtime.

(** How a decorated call can fail: with the exception of the function,
    with [MaxRetriesExceededError], or with an exception of the interpreter
    raised while the delay was computed or slept. *)
Inductive error (E : Type) : Type :=
| Propagated (e : E)
| MaxRetriesExceededError (message : string) (cause : option E)
| Interrupted (x : fault).
Arguments Propagated {E} e.
Arguments MaxRetriesExceededError {E} message cause.
Arguments Interrupted {E} x.

(** The delay computed in the [except] block before the retry of a given
    attempt, for the draw [r] of [random.random()].  The power is
    evaluated first, and its [OverflowError] leaves the wrapper. *)
Definition backoff {platform : Platform} (base_delay max_delay exponential_base : float)
    (jitter : bool) (r : float) (attempt : nat) : outcome float fault :=
  match pow exponential_base attempt with
  | Raised x => Raised x
  | Returned power =>
      let delay := min (base_delay * power)%float max_delay in
      Returned (if jitter then (delay * factor r)%float else delay)
  end.

(** The loop of [wrapper].  [is_Exception e] is [isinstance(e, Exception)],
    on which the second [except] clause depends; the first one matches
    [retryable_exceptions], whatever they derive from. *)
Fixpoint wrapper_loop {A E : Type} `{Exception E} {platform : Platform}
    (max_retries : Z) (base_delay max_delay exponential_base : float) (jitter : bool)
    (retryable_exceptions is_Exception : E -> bool)
    (func : nat -> outcome A E) (random : nat -> float)
    (attempts : list nat) (last_exception : option E) (retries_used : Z)
  : list (event A E) * outcome A (error E) :=
  match attempts with
  | [] =>
      ([], Raised (MaxRetriesExceededError
                     ("Unexpected retry failure: " ++ str_optional last_exception) None))
  | attempt :: attempts =>
      match func attempt with
      | Returned result =>
          ([Invoked (Returned result); RecordCall true retries_used], Returned result)
      | Raised e =>
          if retryable_exceptions e then
            let last_exception := Some e in
            let retries_used := (Z.of_nat attempt + 1)%Z in
            if (Z.of_nat attempt =? max_retries)%Z then
              ([Invoked (Raised e); RecordCall false retries_used],
               Raised (MaxRetriesExceededError
                         ("Failed after " ++ pretty max_retries ++ " retries: " ++ str e)
                         (Some e)))
            else
              match backoff base_delay max_delay exponential_base jitter
                      (random attempt) attempt with
              | Raised x => ([Invoked (Raised e)], Raised (Interrupted x))
              | Returned delay =>
                  match sleep (Float delay) with
                  | Some x => ([Invoked (Raised e)], Raised (Interrupted x))
                  | None =>
                      let '(trace, result) :=
                        wrapper_loop max_retries base_delay max_delay exponential_base
                          jitter retryable_exceptions is_Exception func random attempts
                          last_exception retries_used in
                      (Invoked (Raised e) :: Slept (Float delay) :: trace, result)
                  end
              end
          else if is_Exception e then
            ([Invoked (Raised e); RecordCall false retries_used], Raised (Propagated e))
          else ([Invoked (Raised e)], Raised (Propagated e))
      end
  end.

Definition retry_with_backoff {A E : Type} `{Exception E} {platform : Platform}
    (max_retries : Z) (base_delay max_delay exponential_base : float) (jitter : bool)
    (retryable_exceptions is_Exception : E -> bool)
    (func : nat -> outcome A E) (random : nat -> float)
  : list (event A E) * outcome A (error E) :=
  wrapper_loop max_retries base_delay max_delay exponential_base jitter
    retryable_exceptions is_Exception func random (range (max_retries + 1)) None 0.

(** Whether the wrapper ends where [metrics.record_call] is called: with a
    value, with [MaxRetriesExceededError], or with an [Exception] of the
    function. *)
Definition records {A E : Type} (is_Exception : E -> bool)
    (result : outcome A (error E)) : bool :=
  match result with
  | Returned _ => true
  | Raised (MaxRetriesExceededError _ _) => true
  | Raised (Propagated e) => is_Exception e
  | Raised (Interrupted _) => false
  end.

(** The [try] block at the end of [CircuitBreaker.call]: [_on_failure]
    runs for an [Exception] only. *)
Definition invoke {A E : Type} (is_Exception : E -> bool)
    (cb : ResilientApiClient.CircuitBreaker) (env : ResilientApiClient.call_env A E)
  : outcome A (ResilientApiClient.error E) * ResilientApiClient.CircuitBreaker :=
  match ResilientApiClient.func_result env with
  | Returned result => (Returned result, ResilientApiClient._on_success cb)
  | Raised e =>
      (Raised (ResilientApiClient.Propagated e),
       if is_Exception e
       then ResilientApiClient._on_failure cb (ResilientApiClient.now_failure env)
       else cb)
  end.

Definition call {A E : Type} (is_Exception : E -> bool)
    (cb : ResilientApiClient.CircuitBreaker) (env : ResilientApiClient.call_env A E)
  : outcome A (ResilientApiClient.error E) * ResilientApiClient.CircuitBreaker :=
  let '(current_state, cb) := ResilientApiClient.state cb (ResilientApiClient.now_state env) in
  match current_state with
  | ResilientApiClient.OPEN =>
      (Raised (ResilientApiClient.CircuitOpenError
                 (ResilientApiClient.CircuitIsOpen
                    (ResilientApiClient.recovery_timeout cb)
                    (ResilientApiClient._failures cb))), cb)
  | ResilientApiClient.HALF_OPEN =>
      if (ResilientApiClient.half_open_max_calls cb
          <=? ResilientApiClient._half_open_calls cb)%Z
      then (Raised (ResilientApiClient.CircuitOpenError ResilientApiClient.HalfOpenMaxCalls),
            cb)
      else
        let cb :=
          ResilientApiClient.set_half_open_calls cb
            (ResilientApiClient._half_open_calls cb + 1) in
        invoke is_Exception cb env
  | ResilientApiClient.CLOSED => invoke is_Exception cb env
  end.

(** The function of the call returns, or raises an [Exception]. *)
Definition caught {A E : Type} (is_Exception : E -> bool)
    (env : ResilientApiClient.call_env A E) : Prop :=
  forall e, ResilientApiClient.func_result env = Raised e -> is_Exception e = true.

(** The function of the call raises an [Exception]. *)
Definition fails {A E : Type} (is_Exception : E -> bool)
    (env : ResilientApiClient.call_env A E) : Prop :=
  exists e, ResilientApiClient.func_result env = Raised e /\ is_Exception e = true.

(** A breaker after a sequence of calls. *)
Definition run {A E : Type} (is_Exception : E -> bool)
    (cb : ResilientApiClient.CircuitBreaker)
    (envs : list (ResilientApiClient.call_env A E)) : ResilientApiClient.CircuitBreaker :=
  fold_left (fun cb env => snd (call is_Exception cb env)) envs cb.

End ResilientApiClient64.

(* --------------------------------------------------------------------- *)
(** ** examples/payment_handlers.py, as the interpreter runs it            *)
(* --------------------------------------------------------------------- *)

Module PaymentHandlers64.
Import Python.

(** The [try] block at the end of [CircuitBreaker.call]: [_on_failure]
    runs for an [Exception] only. *)
Definition invoke {A E : Type} (is_Exception : E -> bool)
    (cb : PaymentHandlers.CircuitBreaker) (env : PaymentHandlers.call_env A E)
  : outcome A (PaymentHandlers.error E) * PaymentHandlers.CircuitBreaker :=
  match PaymentHandlers.func_result env with
  | Returned result => (Returned result, PaymentHandlers._on_success cb)
  | Raised e =>
      (Raised (PaymentHandlers.Propagated e),
       if is_Exception e
       then PaymentHandlers._on_failure cb (PaymentHandlers.now_failure env)
       else cb)
  end.

Definition call {A E : Type} (is_Exception : E -> bool)
    (cb : PaymentHandlers.CircuitBreaker) (env : PaymentHandlers.call_env A E)
  : outcome A (PaymentHandlers.error E) * PaymentHandlers.CircuitBreaker :=
  let '(current_state, cb) := PaymentHandlers.state cb (PaymentHandlers.now_state env) in
  match current_state with
  | PaymentHandlers.OPEN =>
      (Raised (PaymentHandlers.CircuitOpenError (PaymentHandlers.name cb)), cb)
  | PaymentHandlers.HALF_OPEN =>
      let cb :=
        PaymentHandlers.set_half_open_calls cb (PaymentHandlers._half_open_calls cb + 1) in
      invoke is_Exception cb env
  | PaymentHandlers.CLOSED => invoke is_Exception cb env
  end.

(** The function of the call returns, or raises an [Exception]. *)
Definition caught {A E : Type} (is_Exception : E -> bool)
    (env : PaymentHandlers.call_env A E) : Prop :=
  forall e, PaymentHandlers.func_result env = Raised e -> is_Exception e = true.

(** The function of the call raises an [Exception]. *)
Definition fails {A E : Type} (is_Exception : E -> bool)
    (env : PaymentHandlers.call_env A E) : Prop :=
  exists e, PaymentHandlers.func_result env = Raised e /\ is_Exception e = true.

(** A breaker after a sequence of calls. *)
Definition run {A E : Type} (is_Exception : E -> bool)
    (cb : PaymentHandlers.CircuitBreaker)
    (envs : list (PaymentHandlers.call_env A E)) : PaymentHandlers.CircuitBreaker :=
  fold_left (fun cb env => snd (call is_Exception cb env)) envs cb.

End PaymentHandlers64.

(* --------------------------------------------------------------------- *)
(** ** examples/payment_service.py, as the interpreter runs it             *)
(* --------------------------------------------------------------------- *)

Module PaymentService64.
Import Python Runtime PaymentService.

(** How a decorated call can fail: with the exception of the function,
    with the [TypeError] of [raise None] after a loop that made no attempt,
    or with an exception of the interpreter raised while the delay was
    computed or slept. *)
Inductive error : Type :=
| Propagated (e : exception)
| RaiseNone
| Interrupted (x : fault).

(** The delay computed in the [except] block before the retry that
    follows the exception [e] of a given attempt.  [retry_after] is an int,
    and [min] returns it as it is. *)
Definition backoff {platform : Platform} (base_delay max_delay exponential_base : float)
    (e : exception) (attempt : nat) : outcome number fault :=
  match e with
  | StripeRateLimitError retry_after => Returned (min_int retry_after max_delay)
  | _ =>
      match pow exponential_base attempt with
      | Raised x => Raised x
      | Returned power => Returned (Float (min (base_delay * power)%float max_delay))
      end
  end.

Fixpoint wrapper_loop {A : Type} {platform : Platform}
    (max_retries : Z) (base_delay max_delay exponential_base : float)
    (retryable_exceptions : list class)
    (func : nat -> outcome A exception)
    (attempts : list nat) (last_exception : option exception)
  : list (event A exception) * outcome A error :=
  match attempts with
  | [] =>
      ([], match last_exception with
           | Some e => Raised (Propagated e)
           | None => Raised RaiseNone
           end)
  | attempt :: attempts =>
      match func attempt with
      | Returned result => ([Invoked (Returned result)], Returned result)
      | Raised e =>
          if isinstance_any e retryable_exceptions then
            let last_exception := Some e in
            if (Z.of_nat attempt =? max_retries)%Z then
              ([Invoked (Raised e)], Raised (Propagated e))
            else
              match backoff base_delay max_delay exponential_base e attempt with
              | Raised x => ([Invoked (Raised e)], Raised (Interrupted x))
              | Returned delay =>
                  match sleep delay with
                  | Some x => ([Invoked (Raised e)], Raised (Interrupted x))
                  | None =>
                      let '(trace, result) :=
                        wrapper_loop max_retries base_delay max_delay exponential_base
                          retryable_exceptions func attempts last_exception in
                      (Invoked (Raised e) :: Slept delay :: trace, result)
                  end
              end
          else ([Invoked (Raised e)], Raised (Propagated e))
      end
  end.

Definition retry_with_backoff {A : Type} {platform : Platform}
    (max_retries : Z) (base_delay max_delay exponential_base : float)
    (retryable_exceptions : list class)
    (func : nat -> outcome A exception)
  : list (event A exception) * outcome A error :=
  wrapper_loop max_retries base_delay max_delay exponential_base
    retryable_exceptions func (range (max_retries + 1)) None.

End PaymentService64.

(* ===================================================================== *)
(** * Part II: properties                                                 *)
(* ===================================================================== *)

(* --------------------------------------------------------------------- *)
(** ** The calculator                                                     *)
(* --------------------------------------------------------------------- *)

Section CalculatorProofs.
Import Calculator.

Example calculator_adds :
  calculator 2%float 3%float "+" = ([ResultLine 2%float "+" 3%float 5%float], Finished).
Proof. reflexivity. Qed.

Example calculator_refuses_zero :
  calculator 1%float (-0)%float "/" = ([Text "Error: Cannot divide by zero"], Exited).
Proof. reflexivity. Qed.

Lemma truediv_nonzero (a b : float) :
  PrimFloat.eqb b PrimFloat.zero = false -> truediv a b = Some (PrimFloat.div a b).
Proof. intros Hb. unfold truediv. now rewrite Hb. Qed.

Lemma known_operator_cases (operator : string) :
  known_operator operator \/
  (String.eqb operator "+" = false /\ String.eqb operator "-" = false /\
   String.eqb operator "*" = false /\ String.eqb operator "/" = false).
Proof.
  unfold known_operator.
  destruct (String.eqb_spec operator "+"); [tauto|].
  destruct (String.eqb_spec operator "-"); [tauto|].
  destruct (String.eqb_spec operator "*"); [tauto|].
  destruct (String.eqb_spec operator "/"); tauto.
Qed.

(** C9. For all numbers [num1], [num2] and every operator string:
    dividing by a zero [num2] prints the divide-by-zero error and exits
    with nothing else printed (the division is never evaluated, so no
    [ZeroDivisionError] can occur); an operator outside [+ - * /] prints
    the unknown-operator error and exits with nothing else printed; in
    every other case exactly one line is printed, the result line, and it
    carries the arithmetic result of the operator. *)
Theorem calculator_output (num1 num2 : float) (operator : string) :
  (operator = "/" /\ PrimFloat.eqb num2 PrimFloat.zero = true ->
     calculator num1 num2 operator
     = ([Text "Error: Cannot divide by zero"], Exited))
  /\ (~ known_operator operator ->
     calculator num1 num2 operator
     = ([Text ("Error: Unknown operator '" ++ operator ++ "'")], Exited))
  /\ (known_operator operator ->
      ~ (operator = "/" /\ PrimFloat.eqb num2 PrimFloat.zero = true) ->
      exists result,
        arith operator num1 num2 = Some result /\
        calculator num1 num2 operator
        = ([ResultLine num1 operator num2 result], Finished))
  /\ snd (calculator num1 num2 operator) <> ZeroDivisionError.
Proof.
  repeat split.
  - intros [-> Hz]. unfold calculator, calculate. simpl. now rewrite Hz.
  - intros Hk. destruct (known_operator_cases operator) as [|(H1 & H2 & H3 & H4)];
      [contradiction|].
    unfold calculator, calculate. now rewrite H1, H2, H3, H4.
  - intros Hk Hnz. destruct Hk as [-> | [-> | [-> | ->]]];
      try (eexists; split; reflexivity).
    destruct (PrimFloat.eqb num2 PrimFloat.zero) eqn:Hz; [exfalso; auto|].
    exists (PrimFloat.div num1 num2). split; [reflexivity|].
    unfold calculator, calculate, truediv. simpl. now rewrite Hz.
  - unfold calculator, calculate, truediv.
    repeat (match goal with |- context [if ?b then _ else _] => destruct b end;
            simpl; try discriminate).
Qed.

End CalculatorProofs.

(* --------------------------------------------------------------------- *)
(** ** The async flow debugger                                            *)
(* --------------------------------------------------------------------- *)

Section AsyncFlowDebuggerProofs.
Import AsyncFlowDebugger.

Example find_writers_balance :
  find_writers "balance" =
  [ "⏰ Scheduled: nightly_reconciliation (cron: 0 3 * * *)";
    "🔔 Event: payment.succeeded → update_balance";
    "🔄 Job: process_refund (queue: payments)" ].
Proof. reflexivity. Qed.

Example find_writers_unknown : find_writers "password" = [].
Proof. reflexivity. Qed.

Lemma contains_elem_of (field : string) (l : list string) :
  contains field l = true <-> field ∈ l.
Proof.
  unfold contains. rewrite existsb_exists, list_elem_of_In. split.
  - intros (x & Hx & Heq). apply String.eqb_eq in Heq. now subst.
  - intros Hin. exists field. split; [assumption | apply String.eqb_refl].
Qed.

(** A loop of [find_writers] appends, in order, the description of every
    flow that passes the test. *)
Lemma scan_filter {A : Type} (tch : A -> list string) (descr : A -> string)
    (field : string) (flows : list A) (writers : list string) :
  scan tch descr field flows writers
  = writers ++ map descr (List.filter (fun fl => contains field (tch fl)) flows).
Proof.
  unfold scan. revert writers.
  induction flows as [|fl flows IH]; intros writers; simpl.
  - now rewrite app_nil_r.
  - rewrite IH. destruct (contains field (tch fl)); simpl; [|reflexivity].
    now rewrite <- app_assoc.
Qed.

(** A loop of [get_all_fields] adds exactly the fields touched by some
    flow of the list. *)
Lemma elem_of_collect {A : Type} (tch : A -> list string) (flows : list A)
    (fields : gset string) (field : string) :
  field ∈ collect tch flows fields
  <-> field ∈ fields \/ exists fl, In fl flows /\ field ∈ tch fl.
Proof.
  unfold collect. revert fields.
  induction flows as [|fl flows IH]; intros fields; simpl.
  - split; [auto | intros [H | (fl & [] & _)]; exact H].
  - rewrite IH, elem_of_union, elem_of_list_to_set. split.
    + intros [[H | H] | (fl' & Hin & H)]; eauto.
    + intros [H | (fl' & [<- | Hin] & H)]; eauto.
Qed.

Lemma filter_map_comm {A B : Type} (f : A -> B) (p : B -> bool) (l : list A) :
  List.filter p (map f l) = map f (List.filter (fun a => p (f a)) l).
Proof.
  induction l as [|a l IH]; simpl; [reflexivity|].
  destruct (p (f a)); simpl; now rewrite IH.
Qed.

Lemma find_writers_filter (field : string) :
  find_writers field
  = map describe (List.filter (fun fl => contains field (touches fl)) all_flows).
Proof.
  unfold find_writers, all_flows. cbv zeta.
  rewrite !scan_filter. simpl app at 1.
  rewrite !List.filter_app, !map_app, !filter_map_comm, !map_map.
  simpl touches. simpl describe. now rewrite <- app_assoc.
Qed.

Lemma elem_of_get_all_fields (field : string) :
  field ∈ get_all_fields <-> exists fl, In fl all_flows /\ field ∈ touches fl.
Proof.
  unfold get_all_fields, all_flows. cbv zeta. rewrite !elem_of_collect. split.
  - intros [[[H | (t & Hin & H)] | (h & Hin & H)] | (j & Hin & H)].
    + now apply not_elem_of_empty in H.
    + exists (Scheduled t). split; [|exact H].
      apply in_or_app. left. now apply in_map.
    + exists (Event h). split; [|exact H].
      apply in_or_app. right. apply in_or_app. left. now apply in_map.
    + exists (Job j). split; [|exact H].
      apply in_or_app. right. apply in_or_app. right. now apply in_map.
  - intros (fl & Hin & H).
    apply in_app_or in Hin as [Hin | Hin]; [|apply in_app_or in Hin as [Hin | Hin]];
      apply in_map_iff in Hin as (x & <- & Hin); simpl in H; eauto 6.
Qed.

(** C8. For every field name, [find_writers] is non-empty exactly when
    the field belongs to [get_all_fields()], and its result lists, once
    each and in the order scheduled tasks, event handlers, background jobs,
    the descriptions of the flows of [ASYNC_FLOWS] whose [touches] contain
    the field. *)
Theorem find_writers_spec (field : string) :
  (find_writers field <> [] <-> field ∈ get_all_fields)
  /\ find_writers field
     = map describe (List.filter (fun fl => contains field (touches fl)) all_flows)
  /\ all_flows
     = map Scheduled (scheduled_tasks ASYNC_FLOWS)
       ++ map Event (event_handlers ASYNC_FLOWS)
       ++ map Job (background_jobs ASYNC_FLOWS).
Proof.
  split; [|split; [apply find_writers_filter | reflexivity]].
  rewrite find_writers_filter, elem_of_get_all_fields. split.
  - intros Hne.
    destruct (List.filter _ all_flows) as [|fl rest] eqn:Hf; [now destruct Hne|].
    assert (Hin : In fl (List.filter (fun fl => contains field (touches fl)) all_flows))
      by (rewrite Hf; now left).
    apply List.filter_In in Hin as [Hin Hc].
    exists fl. split; [exact Hin | now apply contains_elem_of].
  - intros (fl & Hin & Hc) Hnil.
    assert (Hin' : In fl (List.filter (fun fl => contains field (touches fl)) all_flows))
      by (apply List.filter_In; split; [exact Hin | now apply contains_elem_of]).
    destruct (List.filter _ all_flows); [destruct Hin' | discriminate].
Qed.

End AsyncFlowDebuggerProofs.

(* --------------------------------------------------------------------- *)
(** ** Arithmetic of the delays                                           *)
(* --------------------------------------------------------------------- *)

Section DelayArithmetic.
Import Python Backoff.

Lemma pow_nonneg (x : Q) (n : nat) : (0 <= x)%Q -> (0 <= pow x n)%Q.
Proof. intros Hx. unfold pow. now apply Qpower_0_le. Qed.

Lemma capped_nonneg (b M e : Q) (k : nat) :
  (0 <= b)%Q -> (0 <= M)%Q -> (0 <= e)%Q -> (0 <= capped b M e k)%Q.
Proof.
  intros Hb HM He. unfold capped. apply Q.min_glb; [|exact HM].
  apply Qmult_le_0_compat; [exact Hb | now apply pow_nonneg].
Qed.

Lemma jittered_nonneg (d r : Q) : (0 <= d)%Q -> (0 <= r)%Q -> (0 <= d * factor r)%Q.
Proof.
  intros Hd Hr. apply Qmult_le_0_compat; [exact Hd|]. unfold factor. lra.
Qed.

End DelayArithmetic.

(* --------------------------------------------------------------------- *)
(** ** The retry decorator of resilient_api_client.py                     *)
(* --------------------------------------------------------------------- *)

(** Closes the two indexing goals of an iteration that ends the loop: the
    trace holds one invocation, the one of the current attempt, and no
    sleep. *)
Ltac last_attempt :=
  split; intros k ? Hk; destruct k as [|[|]]; try discriminate;
  injection Hk as <-; now rewrite Nat.add_0_r.

Section ResilientRetry.
Import Python Backoff ResilientApiClient.
Context {A E : Type} `{Exception E}.
Variables (max_retries : Z) (base_delay max_delay exponential_base : Q) (jitter : bool).
Variables (retryable_exceptions : E -> bool).
Variables (func : nat -> outcome A E) (random : nat -> Q).

Local Abbreviation loop :=
  (wrapper_loop (A := A) max_retries base_delay max_delay exponential_base jitter
     retryable_exceptions func random).
Local Abbreviation delay_after := (slept base_delay max_delay exponential_base jitter random).

(** Every attempt invokes the function at most once. *)
Lemma rac_invocations_le (attempts : list nat) (last : option E) (used : Z) :
  length (invocations (fst (loop attempts last used))) <= length attempts.
Proof.
  revert last used. induction attempts as [|a l IH]; intros last used; simpl; [lia|].
  destruct (func a) as [v|x]; simpl; [lia|].
  destruct (retryable_exceptions x); simpl; [|lia].
  destruct (Z.of_nat a =? max_retries)%Z; simpl; [lia|].
  destruct (sleep_accepts _); simpl; [|lia].
  specialize (IH (Some x) (Z.of_nat a + 1)%Z).
  destruct (loop l (Some x) (Z.of_nat a + 1)%Z) as [trace result]. simpl in *. lia.
Qed.

(** Over the attempts [a, a+1, ...], the [k]-th invocation is the one of
    attempt [a + k], and the [k]-th sleep is the one computed in it. *)
Lemma rac_trace_index (n a : nat) (last : option E) (used : Z) :
  (forall k o, invocations (fst (loop (seq a n) last used)) !! k = Some o ->
               o = func (a + k))
  /\ (forall k d, delays (fst (loop (seq a n) last used)) !! k = Some d ->
                  d = delay_after (a + k)).
Proof.
  revert a last used. induction n as [|n IH]; intros a last used; simpl.
  - split; intros k ? Hk; destruct k; discriminate.
  - destruct (func a) as [v|x] eqn:Hf; simpl.
    { last_attempt. }
    destruct (retryable_exceptions x); simpl.
    2:{ last_attempt. }
    destruct (Z.of_nat a =? max_retries)%Z; simpl.
    { last_attempt. }
    destruct (sleep_accepts _); simpl.
    2:{ last_attempt. }
    specialize (IH (S a) (Some x) (Z.of_nat a + 1)%Z) as [IHi IHd].
    destruct (loop (seq (S a) n) (Some x) (Z.of_nat a + 1)%Z) as [trace result].
    simpl in *. split; intros k ? Hk; destruct k as [|k]; simpl in Hk.
    + injection Hk as <-. now rewrite Nat.add_0_r.
    + rewrite <- Nat.add_succ_comm. now apply IHi.
    + injection Hk as <-. now rewrite Nat.add_0_r.
    + rewrite <- Nat.add_succ_comm. now apply IHd.
Qed.

End ResilientRetry.

(* --------------------------------------------------------------------- *)
(** ** The retry decorator of payment_handlers.py                         *)
(* --------------------------------------------------------------------- *)

Section HandlersRetry.
Import Python Backoff.
Context {A E : Type} `{Exception E}.
Variables (max_retries : Z) (base_delay max_delay exponential_base : Q) (jitter : bool).
Variables (retryable_exceptions : E -> bool).
Variables (func : nat -> outcome A E) (random : nat -> Q).

Local Abbreviation rac_loop :=
  (ResilientApiClient.wrapper_loop (A := A) max_retries base_delay max_delay
     exponential_base jitter retryable_exceptions func random).
Local Abbreviation ph_loop :=
  (PaymentHandlers.wrapper_loop (A := A) max_retries base_delay max_delay
     exponential_base jitter retryable_exceptions func random).

(** The two loops differ in the metrics they record and in the message of
    the error after a loop that made no attempt, and in nothing else. *)
Lemma ph_loop_agrees (n a : nat) (last : option E) (used : Z) :
  invocations (fst (rac_loop (seq a n) last used))
  = invocations (fst (ph_loop (seq a n) last))
  /\ delays (fst (rac_loop (seq a n) last used)) = delays (fst (ph_loop (seq a n) last))
  /\ ((Z.of_nat a + Z.of_nat n = max_retries + 1)%Z -> 1 <= n ->
      same_result (snd (rac_loop (seq a n) last used)) (snd (ph_loop (seq a n) last))).
Proof.
  revert a last used. induction n as [|n IH]; intros a last used; simpl.
  - repeat split. lia.
  - destruct (func a) as [v|x]; simpl; [repeat split|].
    destruct (retryable_exceptions x); simpl; [|repeat split].
    destruct (Z.of_nat a =? max_retries)%Z eqn:Ha; simpl; [repeat split|].
    apply Z.eqb_neq in Ha.
    destruct (sleep_accepts _); simpl; [|repeat split].
    specialize (IH (S a) (Some x) (Z.of_nat a + 1)%Z) as (IHi & IHd & IHr).
    destruct (rac_loop (seq (S a) n) (Some x) (Z.of_nat a + 1)%Z) as [t1 r1].
    destruct (ph_loop (seq (S a) n) (Some x)) as [t2 r2]. simpl in *.
    rewrite IHi, IHd. repeat split. intros Han _. apply IHr; lia.
Qed.

End HandlersRetry.

(* --------------------------------------------------------------------- *)
(** ** The retry decorator of payment_service.py                          *)
(* --------------------------------------------------------------------- *)

Section ServiceRetry.
Import Python Backoff PaymentService.
Context {A : Type}.
Variables (max_retries : Z) (base_delay max_delay exponential_base : Q).
Variables (retryable_exceptions : list class).
Variables (func : nat -> outcome A exception).

Local Abbreviation ps_loop :=
  (wrapper_loop (A := A) max_retries base_delay max_delay exponential_base
     retryable_exceptions func).

Lemma ps_invocations_le (attempts : list nat) (last : option exception) :
  length (invocations (fst (ps_loop attempts last))) <= length attempts.
Proof.
  revert last. induction attempts as [|a l IH]; intros last; simpl; [lia|].
  destruct (func a) as [v|x]; simpl; [lia|].
  destruct (isinstance_any x retryable_exceptions); simpl; [|lia].
  destruct (Z.of_nat a =? max_retries)%Z; simpl; [lia|].
  destruct (sleep_accepts _); simpl; [|lia].
  specialize (IH (Some x)).
  destruct (ps_loop l (Some x)) as [trace result]. simpl in *. lia.
Qed.

(** The [k]-th sleep follows the [k]-th invocation, and its length depends
    on the exception that invocation raised. *)
Lemma ps_trace_index (n a : nat) (last : option exception) :
  (forall k o, invocations (fst (ps_loop (seq a n) last)) !! k = Some o ->
               o = func (a + k))
  /\ (forall k d, delays (fst (ps_loop (seq a n) last)) !! k = Some d ->
        exists x, func (a + k) = Raised x
                  /\ d = slept_after base_delay max_delay exponential_base x (a + k)).
Proof.
  revert a last. induction n as [|n IH]; intros a last; simpl.
  - split; intros k ? Hk; destruct k; discriminate.
  - destruct (func a) as [v|x] eqn:Hf; simpl.
    { last_attempt. }
    destruct (isinstance_any x retryable_exceptions); simpl.
    2:{ last_attempt. }
    destruct (Z.of_nat a =? max_retries)%Z; simpl.
    { last_attempt. }
    change (match x with
            | StripeRateLimitError retry_after => Qmin (inject_Z retry_after) max_delay
            | _ => Qmin (base_delay * pow exponential_base a)%Q max_delay
            end)
      with (slept_after base_delay max_delay exponential_base x a).
    destruct (sleep_accepts _); simpl.
    2:{ last_attempt. }
    specialize (IH (S a) (Some x)) as [IHi IHd].
    destruct (ps_loop (seq (S a) n) (Some x)) as [trace result].
    simpl in *. split; intros k ? Hk; destruct k as [|k]; simpl in Hk.
    + injection Hk as <-. now rewrite Nat.add_0_r.
    + rewrite <- Nat.add_succ_comm. now apply IHi.
    + injection Hk as <-. rewrite Nat.add_0_r. eauto.
    + rewrite <- Nat.add_succ_comm. now apply IHd.
Qed.

(** What the wrapper raises was raised by the function, unless it is the
    [ValueError] of [time.sleep] or the [TypeError] of [raise None]. *)
Lemma ps_raised_origin (attempts : list nat) (last : option exception) (e : exception) :
  snd (ps_loop attempts last) = Raised e ->
  (exists k, func k = Raised e) \/ last = Some e
  \/ (exists c m, e = OtherException c m).
Proof.
  revert last. induction attempts as [|a l IH]; intros last; simpl.
  - destruct last as [x|]; intros [= <-]; eauto.
  - destruct (func a) as [v|x] eqn:Hf; simpl; [discriminate|].
    destruct (isinstance_any x retryable_exceptions); simpl.
    2:{ intros [= <-]. eauto. }
    destruct (Z.of_nat a =? max_retries)%Z; simpl.
    { intros [= <-]. eauto. }
    destruct (sleep_accepts _); simpl.
    2:{ intros [= <-]. eauto. }
    specialize (IH (Some x)).
    destruct (ps_loop l (Some x)) as [trace result]. simpl in *.
    intros Hr. destruct (IH Hr) as [Hk | [[= <-] | Ho]]; eauto.
Qed.

(** Where no invocation raises [StripeRateLimitError], the loop does what
    the loop of [resilient_api_client] does without jitter, up to the
    exception raised when the retries are used up. *)
Lemma ps_loop_agrees (random : nat -> Q) (n a : nat) (last : option exception) (used : Z) :
  (forall k x, func k = Raised x -> is_rate_limit x = false) ->
  let rac :=
    ResilientApiClient.wrapper_loop max_retries base_delay max_delay exponential_base
      false (fun e => isinstance_any e retryable_exceptions) func random
      (seq a n) last used in
  invocations (fst rac) = invocations (fst (ps_loop (seq a n) last))
  /\ delays (fst rac) = delays (fst (ps_loop (seq a n) last))
  /\ ((Z.of_nat a + Z.of_nat n = max_retries + 1)%Z -> 1 <= n ->
      reraised (snd rac) (snd (ps_loop (seq a n) last))).
Proof.
  intros Hrl. cbv zeta. revert a last used.
  induction n as [|n IH]; intros a last used; simpl.
  - repeat split. lia.
  - destruct (func a) as [v|x] eqn:Hf; simpl; [repeat split|].
    destruct (isinstance_any x retryable_exceptions); simpl; [|repeat split].
    destruct (Z.of_nat a =? max_retries)%Z eqn:Ha; simpl; [repeat split|].
    apply Z.eqb_neq in Ha.
    assert (Hd : match x with
                 | StripeRateLimitError retry_after => Qmin (inject_Z retry_after) max_delay
                 | _ => Qmin (base_delay * pow exponential_base a)%Q max_delay
                 end = Qmin (base_delay * pow exponential_base a)%Q max_delay).
    { specialize (Hrl a x Hf). destruct x; try reflexivity. discriminate. }
    rewrite Hd.
    destruct (sleep_accepts _); simpl; [|repeat split; eauto].
    specialize (IH (S a) (Some x) (Z.of_nat a + 1)%Z) as (IHi & IHd & IHr).
    destruct (ResilientApiClient.wrapper_loop _ _ _ _ _ _ _ _ (seq (S a) n) _ _)
      as [t1 r1].
    destruct (ps_loop (seq (S a) n) (Some x)) as [t2 r2]. simpl in *.
    rewrite IHi, IHd. repeat split. intros Han _. apply IHr; lia.
Qed.

End ServiceRetry.

(* --------------------------------------------------------------------- *)
(** ** The three retry decorators                                         *)
(* --------------------------------------------------------------------- *)

Section RetryDecorators.
Import Python Backoff.

Example resilient_retry_run :
  ResilientApiClient.retry_with_backoff 3 1 60 2 false
    ResilientApiClient.default_retryable_exceptions
    (fun k => if (k <? 2)%nat then Raised (ResilientApiClient.RateLimitError "Rate limit exceeded")
              else Returned "ok")
    (fun _ => 0%Q)
  = ([Invoked (Raised (ResilientApiClient.RateLimitError "Rate limit exceeded"));
      Slept (1 * 1)%Q;
      Invoked (Raised (ResilientApiClient.RateLimitError "Rate limit exceeded"));
      Slept (1 * 2)%Q;
      Invoked (Returned "ok"); RecordCall true 2],
     Returned "ok").
Proof. reflexivity. Qed.

Lemma range_length (n : Z) : Z.of_nat (length (range n)) = Z.max 0 n.
Proof. unfold range. rewrite length_seq. lia. Qed.

(** The Stripe mock answers a rate limit with [retry_after=30]: the
    decorator of [payment_service] then sleeps 30 seconds before each
    retry, where [min(base_delay * exponential_base ** k, max_delay)] would
    be 1, 2 and 4 seconds. *)
Lemma rate_limit_delay_counterexample :
  delays (fst (PaymentService.retry_with_backoff (A := unit) 3 1 30 2
                 [PaymentService.StripeTimeoutError_; PaymentService.StripeRateLimitError_]
                 (fun _ => Raised (PaymentService.StripeRateLimitError 30))))
  = [30%Q; 30%Q; 30%Q]
  /\ (capped 1 30 2 0 == 1)%Q /\ (capped 1 30 2 1 == 2)%Q /\ (capped 1 30 2 2 == 4)%Q
  /\ ~ (30 == 1)%Q.
Proof. repeat split; try reflexivity. discriminate. Qed.

(** With a single retry and a function that times out every time, the
    decorator of [resilient_api_client] raises [MaxRetriesExceededError]
    where the one of [payment_service] raises the timeout itself; and after
    rate limits the two sleep for different times. *)
Lemma retry_decorators_differ_counterexample :
  let timeout := PaymentService.StripeTimeoutError "Connection to Stripe timed out" in
  let classes := [PaymentService.RetryableError_] in
  snd (ResilientApiClient.retry_with_backoff (A := unit) 1 1 30 2 false
         (fun e => PaymentService.isinstance_any e classes)
         (fun _ => Raised timeout) (fun _ => 0%Q))
  = Raised (ResilientApiClient.MaxRetriesExceededError
              "Failed after 1 retries: Connection to Stripe timed out" (Some timeout))
  /\ snd (PaymentService.retry_with_backoff (A := unit) 1 1 30 2 classes
            (fun _ => Raised timeout))
     = Raised timeout
  /\ delays (fst (ResilientApiClient.retry_with_backoff (A := unit) 1 1 30 2 false
                    (fun e => PaymentService.isinstance_any e classes)
                    (fun _ => Raised (PaymentService.StripeRateLimitError 30))
                    (fun _ => 0%Q)))
     = [(1 * 1)%Q]
  /\ delays (fst (PaymentService.retry_with_backoff (A := unit) 1 1 30 2 classes
                    (fun _ => Raised (PaymentService.StripeRateLimitError 30))))
     = [30%Q].
Proof. cbv zeta. repeat split; reflexivity. Qed.

(** C3 (amended). For a non-negative [max_retries], and the same
    configuration, outcomes of the wrapped function and jitter draws: the
    decorators of [resilient_api_client] and [payment_handlers] make the
    same invocations, sleep the same delays and end alike (same value, same
    propagated exception, or [MaxRetriesExceededError] with the same
    message and cause).  The decorator of [payment_service], as long as no
    invocation raises [StripeRateLimitError], makes the same invocations
    and sleeps the same delays as that of [resilient_api_client] without
    jitter, and ends alike, except that on exhaustion it re-raises the last
    exception itself instead of [MaxRetriesExceededError]. *)
Theorem retry_decorators_compared {A E : Type} `{Exception E}
    (max_retries : Z) (base_delay max_delay exponential_base : Q) (jitter : bool)
    (retryable_exceptions : E -> bool)
    (func : nat -> outcome A E) (random : nat -> Q)
    (classes : list PaymentService.class)
    (func' : nat -> outcome A PaymentService.exception) :
  (0 <= max_retries)%Z ->
  let rac :=
    ResilientApiClient.retry_with_backoff max_retries base_delay max_delay
      exponential_base jitter retryable_exceptions func random in
  let ph :=
    PaymentHandlers.retry_with_backoff max_retries base_delay max_delay
      exponential_base jitter retryable_exceptions func random in
  let rac' :=
    ResilientApiClient.retry_with_backoff max_retries base_delay max_delay
      exponential_base false (fun e => PaymentService.isinstance_any e classes)
      func' random in
  let ps :=
    PaymentService.retry_with_backoff max_retries base_delay max_delay
      exponential_base classes func' in
  (invocations (fst rac) = invocations (fst ph)
   /\ delays (fst rac) = delays (fst ph)
   /\ same_result (snd rac) (snd ph))
  /\ ((forall k x, func' k = Raised x -> is_rate_limit x = false) ->
      invocations (fst rac') = invocations (fst ps)
      /\ delays (fst rac') = delays (fst ps)
      /\ reraised (snd rac') (snd ps)).
Proof.
  intros HN. cbv zeta.
  unfold ResilientApiClient.retry_with_backoff, PaymentHandlers.retry_with_backoff,
    PaymentService.retry_with_backoff, range.
  split.
  - destruct (ph_loop_agrees max_retries base_delay max_delay exponential_base jitter
                retryable_exceptions func random (Z.to_nat (max_retries + 1)) 0 None 0%Z)
      as (Hinv & Hdel & Hres).
    repeat split; [exact Hinv | exact Hdel | apply Hres; lia].
  - intros Hrl.
    destruct (ps_loop_agrees max_retries base_delay max_delay exponential_base classes
                func' random (Z.to_nat (max_retries + 1)) 0 None 0%Z Hrl)
      as (Hinv & Hdel & Hres).
    repeat split; [exact Hinv | exact Hdel | apply Hres; lia].
Qed.

(** Two timeouts, then a charge, under the configuration of
    [_call_stripe_with_retry]. *)
Lemma retry_decorators_compared_witness :
  let func' (k : nat) :=
    if (k <? 2)%nat
    then Raised (PaymentService.StripeTimeoutError "Connection to Stripe timed out")
    else Returned "ch_1" in
  let classes := [PaymentService.StripeTimeoutError_; PaymentService.StripeRateLimitError_] in
  delays (fst (PaymentHandlers.retry_with_backoff 3 1 30 2 false
                 (fun e => PaymentService.isinstance_any e classes) func' (fun _ => 0%Q)))
  = delays (fst (PaymentService.retry_with_backoff 3 1 30 2 classes func'))
  /\ reraised
       (snd (ResilientApiClient.retry_with_backoff 3 1 30 2 false
               (fun e => PaymentService.isinstance_any e classes) func' (fun _ => 0%Q)))
       (snd (PaymentService.retry_with_backoff 3 1 30 2 classes func')).
Proof.
  cbv zeta.
  destruct (retry_decorators_compared (A := string) 3 1 30 2 false
              (fun e => PaymentService.isinstance_any e
                          [PaymentService.StripeTimeoutError_;
                           PaymentService.StripeRateLimitError_])
              (fun k => if (k <? 2)%nat
                        then Raised (PaymentService.StripeTimeoutError
                                       "Connection to Stripe timed out")
                        else Returned "ch_1")
              (fun _ => 0%Q)
              [PaymentService.StripeTimeoutError_; PaymentService.StripeRateLimitError_]
              (fun k => if (k <? 2)%nat
                        then Raised (PaymentService.StripeTimeoutError
                                       "Connection to Stripe timed out")
                        else Returned "ch_1"))
    as [(_ & Hd1 & _) Hps]; [lia|].
  destruct Hps as (_ & Hd2 & Hr).
  - intros k x. destruct (k <? 2)%nat; [intros [= <-]; reflexivity | discriminate].
  - split; [|exact Hr]. rewrite <- Hd1. exact Hd2.
Defined.

End RetryDecorators.

(* --------------------------------------------------------------------- *)
(** ** The retry decorators as the interpreter runs them                  *)
(* --------------------------------------------------------------------- *)

Section ResilientRetry64.
Import Python Traces Runtime ResilientApiClient64.
Context {A E : Type} `{Exception E} {platform : Platform}.
Variables (max_retries : Z) (base_delay max_delay exponential_base : float) (jitter : bool).
Variables (retryable_exceptions is_Exception : E -> bool).
Variables (func : nat -> outcome A E) (random : nat -> float).

Local Abbreviation loop :=
  (wrapper_loop (A := A) max_retries base_delay max_delay exponential_base jitter
     retryable_exceptions is_Exception func random).
Local Abbreviation delay_after :=
  (fun k => backoff base_delay max_delay exponential_base jitter (random k) k).

(** Every attempt invokes the function at most once. *)
Lemma rac64_invocations_le (attempts : list nat) (last : option E) (used : Z) :
  length (invocations (fst (loop attempts last used))) <= length attempts.
Proof.
  revert last used. induction attempts as [|a l IH]; intros last used; simpl; [lia|].
  destruct (func a) as [v|x]; simpl; [lia|].
  destruct (retryable_exceptions x); simpl; [|destruct (is_Exception x); simpl; lia].
  destruct (Z.of_nat a =? max_retries)%Z; simpl; [lia|].
  destruct (backoff _ _ _ _ _ _) as [delay|y]; simpl; [|lia].
  destruct (sleep _); simpl; [lia|].
  specialize (IH (Some x) (Z.of_nat a + 1)%Z).
  destruct (loop l (Some x) (Z.of_nat a + 1)%Z) as [trace result]. simpl in *. lia.
Qed.

(** Over the attempts [a, a+1, ...], the [k]-th invocation is the one of
    attempt [a + k], and the [k]-th sleep lasts what was computed in it,
    which [time.sleep] took. *)
Lemma rac64_trace_index (n a : nat) (last : option E) (used : Z) :
  (forall k o, invocations (fst (loop (seq a n) last used)) !! k = Some o ->
               o = func (a + k))
  /\ (forall k d, delays (fst (loop (seq a n) last used)) !! k = Some d ->
        exists delay,
          delay_after (a + k) = Returned delay /\ d = Float delay /\ sleep d = None).
Proof.
  revert a last used. induction n as [|n IH]; intros a last used; simpl.
  - split; intros k ? Hk; destruct k; discriminate.
  - destruct (func a) as [v|x] eqn:Hf; simpl.
    { last_attempt. }
    destruct (retryable_exceptions x); simpl.
    2:{ destruct (is_Exception x); simpl; last_attempt. }
    destruct (Z.of_nat a =? max_retries)%Z; simpl.
    { last_attempt. }
    destruct (backoff _ _ _ _ _ _) as [delay|y] eqn:Hd; simpl.
    2:{ last_attempt. }
    destruct (sleep _) eqn:Hs; simpl.
    { last_attempt. }
    specialize (IH (S a) (Some x) (Z.of_nat a + 1)%Z) as [IHi IHd].
    destruct (loop (seq (S a) n) (Some x) (Z.of_nat a + 1)%Z) as [trace result].
    simpl in *. split; intros k ? Hk; destruct k as [|k]; simpl in Hk.
    + injection Hk as <-. now rewrite Nat.add_0_r.
    + rewrite <- Nat.add_succ_comm. now apply IHi.
    + injection Hk as <-. rewrite Nat.add_0_r. eauto.
    + rewrite <- Nat.add_succ_comm. now apply IHd.
Qed.

(** An invocation that raises an exception outside [retryable_exceptions]
    is the last one, and its exception is what the wrapper raises. *)
Lemma rac64_not_retryable (attempts : list nat) (last : option E) (used : Z)
    (i : nat) (x : E) :
  invocations (fst (loop attempts last used)) !! i = Some (Raised x) ->
  retryable_exceptions x = false ->
  snd (loop attempts last used) = Raised (Propagated x)
  /\ length (invocations (fst (loop attempts last used))) = S i.
Proof.
  revert last used i. induction attempts as [|a l IH]; intros last used i; simpl.
  - destruct i; discriminate.
  - destruct (func a) as [v|y]; simpl.
    { destruct i as [|[|]]; discriminate. }
    destruct (retryable_exceptions y) eqn:Hy; simpl.
    2:{ destruct (is_Exception y); simpl;
          (destruct i as [|[|]]; try discriminate; intros [= ->]; auto). }
    destruct (Z.of_nat a =? max_retries)%Z; simpl.
    { destruct i as [|[|]]; try discriminate. intros [= ->]. congruence. }
    destruct (backoff _ _ _ _ _ _) as [delay|z]; simpl.
    2:{ destruct i as [|[|]]; try discriminate. intros [= ->]. congruence. }
    destruct (sleep _); simpl.
    { destruct i as [|[|]]; try discriminate. intros [= ->]. congruence. }
    specialize (IH (Some y) (Z.of_nat a + 1)%Z).
    destruct (loop l (Some y) (Z.of_nat a + 1)%Z) as [trace result]. simpl in *.
    destruct i as [|i]; simpl.
    + intros [= ->]. congruence.
    + intros Hi Hx. destruct (IH i Hi Hx) as [-> ->]. auto.
Qed.

(** When every invocation raises a retryable exception and nothing
    interrupts the wrapper between two attempts, all the attempts are made,
    and the last of them ends the wrapper. *)
Lemma rac64_all_retryable (n a : nat) (last : option E) (used : Z) :
  (forall k, (Z.of_nat k < max_retries)%Z ->
             exists delay, delay_after k = Returned delay /\ sleep (Float delay) = None) ->
  (forall k, exists x, func k = Raised x /\ retryable_exceptions x = true) ->
  (Z.of_nat a + Z.of_nat n = max_retries + 1)%Z -> 1 <= n ->
  exists x,
    func (Z.to_nat max_retries) = Raised x
    /\ snd (loop (seq a n) last used)
       = Raised (MaxRetriesExceededError
                   ("Failed after " ++ pretty max_retries ++ " retries: " ++ str x)%string
                   (Some x))
    /\ invocations (fst (loop (seq a n) last used)) = map func (seq a n).
Proof.
  intros Hpause Hall. revert a last used.
  induction n as [|n IH]; intros a last used Han Hn; [lia|]. simpl.
  destruct (Hall a) as (x & Hfa & Hx). rewrite Hfa, Hx.
  destruct (Z.of_nat a =? max_retries)%Z eqn:Ha; simpl.
  - apply Z.eqb_eq in Ha. assert (n = 0) as -> by lia.
    exists x. rewrite <- Ha, Nat2Z.id. simpl. auto.
  - apply Z.eqb_neq in Ha.
    destruct (Hpause a) as (delay & Hd & Hs); [lia|]. rewrite Hd, Hs.
    destruct (IH (S a) (Some x) (Z.of_nat a + 1)%Z) as (y & Hy & Hres & Hinv); [lia | lia |].
    destruct (loop (seq (S a) n) (Some x) (Z.of_nat a + 1)%Z) as [trace result].
    simpl in *. exists y. rewrite Hinv. auto.
Qed.

(** The [record_call] of a loop entered with [used] equal to the number
    of the first attempt: one when the wrapper ends where
    [metrics.record_call] is called, none otherwise. *)
Lemma rac64_recorded (n a : nat) (last : option E) :
  (Z.of_nat a + Z.of_nat n = max_retries + 1)%Z -> 1 <= n ->
  recorded (fst (loop (seq a n) last (Z.of_nat a)))
  = if records is_Exception (snd (loop (seq a n) last (Z.of_nat a)))
    then [(returned (snd (loop (seq a n) last (Z.of_nat a))),
           Z.of_nat (a + retryable_failures retryable_exceptions
                           (invocations (fst (loop (seq a n) last (Z.of_nat a))))))]
    else [].
Proof.
  unfold retryable_failures.
  revert a last. induction n as [|n IH]; intros a last Han Hn; [lia|]. simpl.
  destruct (func a) as [w|x]; simpl.
  { now rewrite Nat.add_0_r. }
  destruct (retryable_exceptions x) eqn:Hx; simpl.
  2:{ destruct (is_Exception x) eqn:Hex; simpl; rewrite Hex; [|reflexivity].
      now rewrite Hx, Nat.add_0_r. }
  destruct (Z.of_nat a =? max_retries)%Z eqn:Ha; simpl.
  { rewrite Hx. simpl. do 2 f_equal. lia. }
  apply Z.eqb_neq in Ha.
  destruct (backoff _ _ _ _ _ _) as [delay|y]; simpl; [|reflexivity].
  destruct (sleep _); simpl; [reflexivity|].
  replace (Z.of_nat a + 1)%Z with (Z.of_nat (S a)) by lia.
  specialize (IH (S a) (Some x)).
  destruct (loop (seq (S a) n) (Some x) (Z.of_nat (S a))) as [trace result].
  simpl in *. rewrite Hx. simpl. rewrite IH by lia.
  destruct (records is_Exception result); [|reflexivity].
  do 3 f_equal. lia.
Qed.

End ResilientRetry64.

Section ServiceRetry64.
Import Python Runtime PaymentService PaymentService64.
Context {A : Type} {platform : Platform}.
Variables (max_retries : Z) (base_delay max_delay exponential_base : float).
Variables (retryable_exceptions : list class).
Variables (func : nat -> outcome A exception).

Local Abbreviation loop :=
  (wrapper_loop (A := A) max_retries base_delay max_delay exponential_base
     retryable_exceptions func).

Lemma ps64_invocations_le (attempts : list nat) (last : option exception) :
  length (invocations (fst (loop attempts last))) <= length attempts.
Proof.
  revert last. induction attempts as [|a l IH]; intros last; simpl; [lia|].
  destruct (func a) as [v|x]; simpl; [lia|].
  destruct (isinstance_any x retryable_exceptions); simpl; [|lia].
  destruct (Z.of_nat a =? max_retries)%Z; simpl; [lia|].
  destruct (backoff _ _ _ _ _) as [delay|y]; simpl; [|lia].
  destruct (sleep _); simpl; [lia|].
  specialize (IH (Some x)).
  destruct (loop l (Some x)) as [trace result]. simpl in *. lia.
Qed.

(** The [k]-th sleep follows the [k]-th invocation, and its length depends
    on the exception that invocation raised. *)
Lemma ps64_trace_index (n a : nat) (last : option exception) :
  (forall k o, invocations (fst (loop (seq a n) last)) !! k = Some o ->
               o = func (a + k))
  /\ (forall k d, delays (fst (loop (seq a n) last)) !! k = Some d ->
        exists x, func (a + k) = Raised x
                  /\ backoff base_delay max_delay exponential_base x (a + k) = Returned d
                  /\ sleep d = None).
Proof.
  revert a last. induction n as [|n IH]; intros a last; simpl.
  - split; intros k ? Hk; destruct k; discriminate.
  - destruct (func a) as [v|x] eqn:Hf; simpl.
    { last_attempt. }
    destruct (isinstance_any x retryable_exceptions); simpl.
    2:{ last_attempt. }
    destruct (Z.of_nat a =? max_retries)%Z; simpl.
    { last_attempt. }
    destruct (backoff _ _ _ _ _) as [delay|y] eqn:Hd; simpl.
    2:{ last_attempt. }
    destruct (sleep _) eqn:Hs; simpl.
    { last_attempt. }
    specialize (IH (S a) (Some x)) as [IHi IHd].
    destruct (loop (seq (S a) n) (Some x)) as [trace result].
    simpl in *. split; intros k ? Hk; destruct k as [|k]; simpl in Hk.
    + injection Hk as <-. now rewrite Nat.add_0_r.
    + rewrite <- Nat.add_succ_comm. now apply IHi.
    + injection Hk as <-. rewrite Nat.add_0_r. eauto.
    + rewrite <- Nat.add_succ_comm. now apply IHd.
Qed.



End ServiceRetry64.

Section ResilientSleeps64.
Import Python Traces Runtime ResilientApiClient64.
Context {A E : Type} `{Exception E} {platform : Platform}.
Variables (max_retries : Z) (base_delay max_delay exponential_base : float) (jitter : bool).
Variables (retryable_exceptions is_Exception : E -> bool).
Variables (func : nat -> outcome A E) (random : nat -> float).

Local Abbreviation loop :=
  (wrapper_loop (A := A) max_retries base_delay max_delay exponential_base jitter
     retryable_exceptions is_Exception func random).



End ResilientSleeps64.

Section Binary64Facts.
Import Runtime.



End Binary64Facts.

Section RetryDecorators64.
Import Python Traces Runtime.

(** Every invocation of the example fails with an exception the client
    retries on. *)
Local Abbreviation unavailable :=
  (fun _ : nat =>
     Raised (A := string)
       (ResilientApiClient.ServiceUnavailableError "Service temporarily unavailable")).

(** The delays are binary64 numbers.  With [base_delay=0.1] and
    [exponential_base=3.0] the second sleep lasts [0.30000000000000004]
    seconds; with [max_delay=0.3], jitter and the largest draw below 1
    every sleep lasts [0.375] seconds, the cap times [1.25]. *)
Example rounded_delays :
  delays (fst (ResilientApiClient64.retry_with_backoff (platform := example) 2
                 0x1.999999999999ap-4 60 3 false
                 ResilientApiClient.default_retryable_exceptions (fun _ => true)
                 unavailable (fun _ => 0.5%float)))
  = [Float 0x1.999999999999ap-4; Float 0x1.3333333333334p-2]
  /\ delays (fst (ResilientApiClient64.retry_with_backoff (platform := example) 2
                    1 0x1.3333333333333p-2 2 true
                    ResilientApiClient.default_retryable_exceptions (fun _ => true)
                    unavailable (fun _ => below_one)))
     = [Float 0.375; Float 0.375].
Proof. split; reflexivity. Qed.

(** A negative [base_delay] makes [time.sleep] raise [ValueError] after
    the first invocation; and with [exponential_base=2.0**600] the third
    failure makes [**] raise [OverflowError], after sleeps of 1 and 60
    seconds.  Either way the function raised a retryable exception every
    time, and the wrapper raises neither [MaxRetriesExceededError] nor
    after [max_retries + 1 = 4] invocations. *)
Lemma retry_interrupted_counterexample :
  ResilientApiClient64.retry_with_backoff (platform := example) 3 (-1) 60 2 false
    ResilientApiClient.default_retryable_exceptions (fun _ => true)
    unavailable (fun _ => 0.5%float)
  = ([Invoked (unavailable 0)], Raised (ResilientApiClient64.Interrupted ValueError))
  /\ ResilientApiClient64.retry_with_backoff (platform := example) 3 1 60 0x1p600 false
       ResilientApiClient.default_retryable_exceptions (fun _ => true)
       unavailable (fun _ => 0.5%float)
     = ([Invoked (unavailable 0); Slept (Float 1); Invoked (unavailable 1);
         Slept (Float 60); Invoked (unavailable 2)],
        Raised (ResilientApiClient64.Interrupted OverflowError)).
Proof. split; reflexivity. Qed.

(** C6 (amended). In [resilient_api_client], for a decorator with a
    non-negative [max_retries]: if every invocation raises an exception
    matched by [retryable_exceptions], and before each retry the delay is
    computed and slept without an exception of the interpreter (no
    [OverflowError] from [**], no [ValueError] or [OverflowError] from
    [time.sleep]), then the function is invoked exactly [max_retries + 1]
    times and the wrapper raises [MaxRetriesExceededError] chained from the
    exception of the last invocation.  And, whatever the configuration, an
    invocation that raises an exception outside [retryable_exceptions] is
    the last one, and that very exception leaves the wrapper. *)
Theorem retry_exhausts_or_propagates {A E : Type} `{Exception E} {platform : Platform}
    (max_retries : Z) (base_delay max_delay exponential_base : float) (jitter : bool)
    (retryable_exceptions is_Exception : E -> bool)
    (func : nat -> outcome A E) (random : nat -> float) :
  let run :=
    ResilientApiClient64.retry_with_backoff max_retries base_delay max_delay
      exponential_base jitter retryable_exceptions is_Exception func random in
  ((0 <= max_retries)%Z ->
   (forall k, (Z.of_nat k < max_retries)%Z ->
      exists delay,
        ResilientApiClient64.backoff base_delay max_delay exponential_base jitter
          (random k) k = Returned delay
        /\ sleep (Float delay) = None) ->
   (forall k, exists x, func k = Raised x /\ retryable_exceptions x = true) ->
   exists x,
     invocations (fst run) !! Z.to_nat max_retries = Some (Raised x)
     /\ Z.of_nat (length (invocations (fst run))) = (max_retries + 1)%Z
     /\ snd run
        = Raised (ResilientApiClient64.MaxRetriesExceededError
                    ("Failed after " ++ pretty max_retries ++ " retries: " ++ str x)%string
                    (Some x)))
  /\ (forall i x,
        invocations (fst run) !! i = Some (Raised x) ->
        retryable_exceptions x = false ->
        snd run = Raised (ResilientApiClient64.Propagated x)
        /\ length (invocations (fst run)) = S i).
Proof.
  cbv zeta. unfold ResilientApiClient64.retry_with_backoff, range. split.
  - intros HN Hpause Hall.
    destruct (rac64_all_retryable max_retries base_delay max_delay exponential_base
                jitter retryable_exceptions is_Exception func random
                (Z.to_nat (max_retries + 1)) 0 None 0%Z Hpause Hall)
      as (x & Hx & Hres & Hinv); [lia | lia |].
    exists x. rewrite Hinv, Hres. repeat split.
    + rewrite list_lookup_fmap, lookup_seq_lt by lia. simpl. now rewrite Hx.
    + rewrite length_map, length_seq. lia.
  - intros i x. apply rac64_not_retryable.
Qed.

(** A service that is unavailable at every attempt, under the defaults of
    the module's client ([max_retries=3], [base_delay=1.0]), on the
    platform of the examples. *)
Lemma retry_exhausts_or_propagates_witness :
  snd (ResilientApiClient64.retry_with_backoff (platform := example) 3 1 60 2 true
         ResilientApiClient.default_retryable_exceptions (fun _ => true)
         unavailable (fun _ => 0.5%float))
  = Raised (ResilientApiClient64.MaxRetriesExceededError
              "Failed after 3 retries: Service temporarily unavailable"
              (Some (ResilientApiClient.ServiceUnavailableError
                       "Service temporarily unavailable"))).
Proof.
  destruct (retry_exhausts_or_propagates (platform := example) 3 1 60 2 true
              ResilientApiClient.default_retryable_exceptions (fun _ => true)
              unavailable (fun _ => 0.5%float)) as [Hall _].
  destruct Hall as (x & Hx & _ & Hres).
  - lia.
  - intros k Hk. destruct k as [|[|[|k]]]; [eexists; split; reflexivity ..| lia].
  - intros k. eexists. split; reflexivity.
  - vm_compute in Hx. injection Hx as <-. exact Hres.
Defined.

(** C2 (amended). The decorators of [resilient_api_client] and
    [payment_service] invoke the function at most [max_retries + 1] times
    (not at all when that number is negative).  In [resilient_api_client]
    the [k]-th sleep, counted from 0, lasts the binary64 value of
    [min(base_delay * exponential_base ** k, max_delay)], multiplied in
    binary64, when [jitter] is on, by [0.75 + r * 0.5] for the draw [r] of
    that attempt.  That factor is 0.75 for the draw 0 and 1.25 for the
    largest draw below 1: the sum is rounded, and the upper end of
    [[0.75, 1.25]] is reached.  In [payment_service], which has no jitter,
    the [k]-th sleep follows the [k]-th invocation and lasts
    [min(retry_after, max_delay)] if that raised [StripeRateLimitError],
    and the binary64 value of
    [min(base_delay * exponential_base ** k, max_delay)] otherwise. *)
Theorem retry_invocations_and_delays {A E : Type} `{Exception E} {platform : Platform}
    (max_retries : Z) (base_delay max_delay exponential_base : float) (jitter : bool)
    (retryable_exceptions is_Exception : E -> bool)
    (func : nat -> outcome A E) (random : nat -> float)
    (classes : list PaymentService.class)
    (func' : nat -> outcome A PaymentService.exception) :
  let rac :=
    ResilientApiClient64.retry_with_backoff max_retries base_delay max_delay
      exponential_base jitter retryable_exceptions is_Exception func random in
  let ps :=
    PaymentService64.retry_with_backoff max_retries base_delay max_delay
      exponential_base classes func' in
  (Z.of_nat (length (invocations (fst rac))) <= Z.max 0 (max_retries + 1))%Z
  /\ (Z.of_nat (length (invocations (fst ps))) <= Z.max 0 (max_retries + 1))%Z
  /\ (forall k d, delays (fst rac) !! k = Some d ->
        exists power,
          pow exponential_base k = Returned power
          /\ d = Float (let delay := min (base_delay * power)%float max_delay in
                        if jitter then (delay * (0.75 + random k * 0.5))%float
                        else delay))
  /\ (forall k d, delays (fst ps) !! k = Some d ->
        exists x,
          func' k = Raised x
          /\ match x with
             | PaymentService.StripeRateLimitError retry_after =>
                 d = if lt_int max_delay retry_after then Float max_delay
                     else Int retry_after
             | _ =>
                 exists power,
                   pow exponential_base k = Returned power
                   /\ d = Float (min (base_delay * power)%float max_delay)
             end)
  /\ (0.75 + 0 * 0.5 = 0.75)%float
  /\ (below_one <? 1)%float = true
  /\ (0.75 + below_one * 0.5 = 1.25)%float.
Proof.
  cbv zeta.
  unfold ResilientApiClient64.retry_with_backoff, PaymentService64.retry_with_backoff.
  pose proof (rac64_invocations_le max_retries base_delay max_delay exponential_base
                jitter retryable_exceptions is_Exception func random
                (range (max_retries + 1)) None 0%Z) as Hrac.
  pose proof (ps64_invocations_le max_retries base_delay max_delay exponential_base
                classes func' (range (max_retries + 1)) None) as Hps.
  assert (Hlen : Z.of_nat (length (range (max_retries + 1))) = Z.max 0 (max_retries + 1))
    by apply range_length.
  repeat apply conj; try reflexivity; try lia.
  - intros k d Hk. unfold range in Hk.
    destruct (rac64_trace_index max_retries base_delay max_delay exponential_base
                jitter retryable_exceptions is_Exception func random
                (Z.to_nat (max_retries + 1)) 0 None 0%Z) as [_ Hd].
    destruct (Hd k d Hk) as (delay & Hdelay & -> & _). simpl in Hdelay.
    unfold ResilientApiClient64.backoff in Hdelay.
    destruct (pow exponential_base k) as [power|y]; [|discriminate].
    injection Hdelay as <-. exists power. split; reflexivity.
  - intros k d Hk. unfold range in Hk.
    destruct (ps64_trace_index max_retries base_delay max_delay exponential_base
                classes func' (Z.to_nat (max_retries + 1)) 0 None) as [_ Hd].
    destruct (Hd k d Hk) as (x & Hx & Hdelay & _). simpl in Hx, Hdelay.
    exists x. split; [exact Hx|]. unfold PaymentService64.backoff in Hdelay.
    destruct x; try (injection Hdelay as <-; reflexivity);
      (destruct (pow exponential_base k) as [power|y]; [|discriminate];
       injection Hdelay as <-; exists power; split; reflexivity).
Qed.

End RetryDecorators64.

(* --------------------------------------------------------------------- *)
(** ** The circuit breakers                                               *)
(* --------------------------------------------------------------------- *)

Section CircuitBreakers.
Import Python Breaker.
Context {A E : Type}.










Example breaker_opens_and_recovers :
  let cb := ResilientApiClient.new 2 10 3 in
  let fail (t : Q) : ResilientApiClient.call_env unit string :=
    {| ResilientApiClient.now_state := t;
       ResilientApiClient.func_result := Raised "boom";
       ResilientApiClient.now_failure := t |} in
  let ok (t : Q) : ResilientApiClient.call_env unit string :=
    {| ResilientApiClient.now_state := t;
       ResilientApiClient.func_result := Returned tt;
       ResilientApiClient.now_failure := t |} in
  map (fun envs => ResilientApiClient._state (rac_run cb envs))
    [[fail 0%Q]; [fail 0%Q; fail 1%Q]; [fail 0%Q; fail 1%Q; ok 5%Q];
     [fail 0%Q; fail 1%Q; fail 11%Q]; [fail 0%Q; fail 1%Q; ok 11%Q]]
  = [ResilientApiClient.CLOSED; ResilientApiClient.OPEN; ResilientApiClient.OPEN;
     ResilientApiClient.OPEN; ResilientApiClient.CLOSED].
Proof. reflexivity. Qed.


End CircuitBreakers.

(* --------------------------------------------------------------------- *)
(** ** The payment service                                                *)
(* --------------------------------------------------------------------- *)

Section PaymentServiceProofs.
Import Python PaymentService.

(** [Decimal] sums keep 28 significant digits: [1000.00 + 1E-29] is
    [1000.00], [9999.999999999999999999999999 + 10] is
    [10010.00000000000000000000000], and [1000.00 + 99.99] is exact. *)
Example decimal_sums :
  Decimal.add 1000 (1 # 100000000000000000000000000000) = 1000%Q
  /\ Decimal.add (9999999999999999999999999999 # 1000000000000000000000000) 10 = 10010%Q
  /\ Decimal.add 1000 (9999 # 100) = (109999 # 100)%Q.
Proof. repeat split; vm_compute; reflexivity. Qed.

Example payment_goes_through :
  let '(trace, result, σ) := process_payment paid_request initial_store obliging in
  length (invocations trace) = 1
  /\ (exists d, result = Returned (Payment "success" d)
                /\ dict_status d = "completed"
                /\ dict_id d = "txn_0123456789abcdef")
  /\ get_by_idempotency_key σ "test_key_123"
     = _transactions σ !! "txn_0123456789abcdef"
  /\ (User.balance <$> _users σ !! 1%Z) = Some (1000 + (9999 # 100))%Q
  /\ _failure_counter σ = 1%Z.
Proof. vm_compute. repeat split. eexists. repeat split. Qed.

Lemma Qltb_lt (a b : Q) : Qltb a b = true <-> (a < b)%Q.
Proof.
  unfold Qltb. rewrite negb_true_iff. split.
  - intros Hle. apply Qnot_le_lt. intros Hba. apply Qle_bool_iff in Hba. congruence.
  - intros Hlt. destruct (Qle_bool b a) eqn:Hle; [|reflexivity].
    apply Qle_bool_iff in Hle. exfalso. now apply (Qlt_not_le a b).
Qed.

Lemma supported_currency (c : string) :
  existsb (String.eqb c) ["usd"; "eur"; "gbp"] = true <-> In c ["usd"; "eur"; "gbp"].
Proof.
  rewrite existsb_exists. split.
  - intros (x & Hin & Heq). apply String.eqb_eq in Heq. now subst.
  - intros Hin. exists c. split; [exact Hin | apply String.eqb_refl].
Qed.

Lemma validate_rejects (request : PaymentRequest.t) :
  rejected request ->
  exists message field,
    _validate_request request = Raised (APIError (ValidationError message field)).
Proof.
  unfold rejected, _validate_request. intros Hrej.
  destruct (Qle_bool (PaymentRequest.amount request) 0) eqn:H0; [eauto|].
  destruct (Qltb 10000 (PaymentRequest.amount request)) eqn:H1; [eauto|].
  destruct (existsb _ _) eqn:H2; simpl; [|eauto].
  exfalso. destruct Hrej as [H | [H | H]].
  - apply Qle_bool_iff in H. congruence.
  - apply Qltb_lt in H. congruence.
  - apply H. now apply supported_currency.
Qed.

Lemma validate_accepts (request : PaymentRequest.t) :
  (0 < PaymentRequest.amount request)%Q ->
  (PaymentRequest.amount request <= 10000)%Q ->
  In (PaymentRequest.currency request) ["usd"; "eur"; "gbp"] ->
  _validate_request request = Returned tt.
Proof.
  intros Hpos Hmax Hcur. unfold _validate_request.
  destruct (Qle_bool (PaymentRequest.amount request) 0) eqn:H0.
  { apply Qle_bool_iff in H0. exfalso. now apply (Qlt_not_le _ _ Hpos). }
  destruct (Qltb 10000 (PaymentRequest.amount request)) eqn:H1.
  { apply Qltb_lt in H1. exfalso. now apply (Qlt_not_le _ _ H1). }
  apply supported_currency in Hcur. now rewrite Hcur.
Qed.

Lemma validate_outcome (request : PaymentRequest.t) :
  _validate_request request = Returned tt
  \/ exists message field,
       _validate_request request = Raised (APIError (ValidationError message field)).
Proof.
  unfold _validate_request.
  repeat match goal with |- context [if ?b then _ else _] => destruct b end; eauto.
Qed.

Example no_card_is_a_validation_error :
  process_payment
    {| PaymentRequest.user_id := Some 3%Z; PaymentRequest.amount := 50;
       PaymentRequest.currency := "usd"; PaymentRequest.description := None;
       PaymentRequest.idempotency_key := None |}
    initial_store obliging
  = ([],
     Raised (APIError (ValidationError
                         "No valid payment method on file. Please add a card."
                         (Some "payment_method"))),
     initial_store).
Proof. reflexivity. Qed.

(** After a completed payment under the key [test_key_123], a request
    with that key for user 3, who has no card on file, is answered with
    [DuplicatePaymentError], not [ValidationError]. *)
Lemma cardless_replay_counterexample :
  let request :=
    {| PaymentRequest.user_id := Some 3%Z; PaymentRequest.amount := 50;
       PaymentRequest.currency := "usd"; PaymentRequest.description := None;
       PaymentRequest.idempotency_key := Some "test_key_123" |} in
  (exists user,
     get_by_id store_after_payment (PaymentRequest.user_id request) = Some user
     /\ User.default_card_id user = None)
  /\ process_payment request store_after_payment obliging
     = ([], Raised (APIError (DuplicatePaymentError "txn_0123456789abcdef")),
        store_after_payment).
Proof. cbv zeta. split; [eexists; split; reflexivity | reflexivity]. Qed.

(** [_validate_request] on any [Decimal]: a finite amount is treated as in
    [process_payment]; an infinite amount is rejected with
    [ValidationError], whatever the currency; and a NaN, quiet or
    signalling, makes the first comparison raise [InvalidOperation], so
    that [process_payment] raises that and not [ValidationError]. *)
Lemma validate_any_decimal (currency : string) :
  (forall request,
     PaymentRequest.currency request = currency ->
     _validate_request_of (Decimal.Finite (PaymentRequest.amount request)) currency
     = _validate_request request)
  /\ (forall negative,
        exists message,
          _validate_request_of (Decimal.Infinity negative) currency
          = Raised (APIError (ValidationError message (Some "amount"))))
  /\ (forall signalling,
        _validate_request_of (Decimal.NaN signalling) currency
        = Raised (OtherException "InvalidOperation" "")).
Proof.
  repeat split.
  - intros request <-. unfold _validate_request_of, _validate_request, Qltb. simpl.
    destruct (Qle_bool (PaymentRequest.amount request) 0); [reflexivity|].
    now destruct (Qle_bool (PaymentRequest.amount request) 10000).
  - intros [|]; eexists; reflexivity.
Qed.

(** What passes [_validate_request] is a finite amount. *)
Lemma validated_is_finite (amount : Decimal.t) (currency : string) :
  _validate_request_of amount currency = Returned tt ->
  exists q, amount = Decimal.Finite q /\ (0 < q)%Q /\ (q <= 10000)%Q.
Proof.
  unfold _validate_request_of. destruct amount as [q|[|]|s]; simpl; try discriminate.
  destruct (Qle_bool q 0) eqn:H0; [discriminate|].
  destruct (Qle_bool q 10000) eqn:H1; simpl; [|discriminate].
  intros _. exists q. split; [reflexivity|]. split.
  - apply Qnot_le_lt. intros Hle. apply Qle_bool_iff in Hle. congruence.
  - now apply Qle_bool_iff.
Qed.

(** C5 (amended). For every request whose amount is a finite decimal:
    [process_payment] raises [ValidationError], calls Stripe not at all and
    leaves the transaction repository, the user repository and the
    reconciliation queue as they were, when the amount is not positive, or
    exceeds 10000.00, or the currency is none of usd, eur and gbp; and also
    when the request names no user, or a user without a default card,
    provided its idempotency key does not lead to a stored transaction that
    is completed or pending.  (An amount that is a NaN raises
    [InvalidOperation] instead: [validate_any_decimal].) *)
Theorem validation_error_writes_nothing
    (request : PaymentRequest.t) (σ : store) (ρ : env) :
  rejected request \/ (cardless σ request /\ fresh σ ρ request) ->
  exists message field,
    process_payment request σ ρ
    = ([], Raised (APIError (ValidationError message field)), σ).
Proof.
  intros Hcase. unfold process_payment.
  destruct (validate_outcome request) as [Hv | (m & f & Hv)]; rewrite Hv; [|eauto].
  destruct Hcase as [Hrej | [Hcard Hfresh]].
  { destruct (validate_rejects request Hrej) as (m & f & Hv'). congruence. }
  unfold fresh in Hfresh. cbv zeta.
  destruct (get_by_idempotency_key σ (idempotency_key_of ρ request)) as [existing|].
  - destruct Hfresh as [Hc Hp].
    destruct (Transaction.status existing); try contradiction.
    + destruct Hcard as [-> | (user & -> & Hnone)]; [eauto|].
      unfold User.has_valid_card. rewrite Hnone. simpl. eauto.
    + destruct Hcard as [-> | (user & -> & Hnone)]; [eauto|].
      unfold User.has_valid_card. rewrite Hnone. simpl. eauto.
  - destruct Hcard as [-> | (user & -> & Hnone)]; [eauto|].
    unfold User.has_valid_card. rewrite Hnone. simpl. eauto.
Qed.

Lemma validation_error_writes_nothing_witness :
  exists message field,
    process_payment
      {| PaymentRequest.user_id := Some 4%Z; PaymentRequest.amount := 50;
         PaymentRequest.currency := "usd"; PaymentRequest.description := None;
         PaymentRequest.idempotency_key := Some "test_key_123" |}
      initial_store obliging
    = ([], Raised (APIError (ValidationError message field)), initial_store).
Proof.
  apply validation_error_writes_nothing. right. split.
  - left. reflexivity.
  - exact I.
Defined.

(** After a completed payment under the key [test_key_123], a request
    with that key and a negative amount is answered with
    [ValidationError], not [DuplicatePaymentError]. *)
Lemma invalid_replay_counterexample :
  let request :=
    {| PaymentRequest.user_id := Some 1%Z; PaymentRequest.amount := - (10);
       PaymentRequest.currency := "usd"; PaymentRequest.description := None;
       PaymentRequest.idempotency_key := Some "test_key_123" |} in
  (exists existing,
     get_by_idempotency_key store_after_payment (idempotency_key_of obliging request)
     = Some existing
     /\ Transaction.status existing = COMPLETED)
  /\ process_payment request store_after_payment obliging
     = ([], Raised (APIError (ValidationError "Amount must be greater than 0"
                                (Some "amount"))),
        store_after_payment).
Proof. cbv zeta. split; [eexists; split; reflexivity | reflexivity]. Qed.

(** C7 (amended). For every request that passes [_validate_request] (an
    amount above 0 and up to 10000.00, in usd, eur or gbp) and whose
    idempotency key leads to a stored transaction: if that transaction is
    completed, [process_payment] raises [DuplicatePaymentError] carrying
    its id; if it is pending, [process_payment] returns its dict with
    status [pending]; in both cases Stripe is not called and the
    repositories and the queue stay as they were. *)
Theorem replay_is_answered_from_the_store
    (request : PaymentRequest.t) (σ : store) (ρ : env) (existing : Transaction.t) :
  (0 < PaymentRequest.amount request)%Q ->
  (PaymentRequest.amount request <= 10000)%Q ->
  In (PaymentRequest.currency request) ["usd"; "eur"; "gbp"] ->
  get_by_idempotency_key σ (idempotency_key_of ρ request) = Some existing ->
  (Transaction.status existing = COMPLETED ->
   process_payment request σ ρ
   = ([], Raised (APIError (DuplicatePaymentError (Transaction.id existing))), σ)
   /\ details (DuplicatePaymentError (Transaction.id existing))
        !! "original_transaction_id"
      = Some (VStr (Transaction.id existing)))
  /\ (Transaction.status existing = PENDING ->
      process_payment request σ ρ
      = ([], Returned (Payment "pending" (Transaction.to_dict existing)), σ)).
Proof.
  intros Hpos Hmax Hcur Hex. unfold process_payment.
  rewrite (validate_accepts request Hpos Hmax Hcur). cbv zeta. rewrite Hex.
  split; intros ->; [split|]; reflexivity.
Qed.

Lemma replay_is_answered_from_the_store_witness :
  process_payment paid_request store_after_payment obliging
  = ([], Raised (APIError (DuplicatePaymentError "txn_0123456789abcdef")),
     store_after_payment).
Proof.
  destruct (replay_is_answered_from_the_store paid_request store_after_payment obliging
              {| Transaction.id := "txn_0123456789abcdef";
                 Transaction.user_id := 1;
                 Transaction.amount := 9999 # 100;
                 Transaction.currency := "usd";
                 Transaction.status := COMPLETED;
                 Transaction.stripe_charge_id := Some "ch_1";
                 Transaction.idempotency_key := "test_key_123";
                 Transaction.created_at := 0;
                 Transaction.error_message := None |})
    as [Hcompleted _].
  - reflexivity.
  - discriminate.
  - simpl. auto.
  - reflexivity.
  - destruct Hcompleted as [Hrun _]; [reflexivity | exact Hrun].
Defined.

(** The mock raises nothing but the two retryable Stripe errors. *)
Lemma create_charge_raises (σ : store) (ρ : env) (amount : Z) (currency customer : string)
    (source description key : option string) (e : exception) :
  fst (create_charge σ ρ amount currency customer source description key) = Raised e ->
  isinstance_any e [StripeTimeoutError_; StripeRateLimitError_] = true.
Proof.
  unfold create_charge. cbv zeta.
  repeat match goal with |- context [if ?b then _ else _] => destruct b end;
    simpl; intros [= <-]; reflexivity.
Qed.

Lemma call_stripe_raises (σ : store) (ρ : env) (user : User.t) (amount : Q)
    (currency : string) (description : option string) (key : string) (e : exception) :
  snd (fst (_call_stripe_with_retry σ ρ user amount currency description key)) = Raised e ->
  isinstance_any e [StripeTimeoutError_; StripeRateLimitError_] = true
  \/ exists c m, e = OtherException c m.
Proof.
  unfold _call_stripe_with_retry, retry_with_backoff. cbv zeta.
  match goal with
  | |- context [wrapper_loop ?n ?b ?M ?x ?cl ?f ?l ?last] =>
      pose proof (ps_raised_origin n b M x cl f l last e) as Horigin;
      destruct (wrapper_loop n b M x cl f l last) as [trace result]
  end.
  simpl in *. intros Hr.
  destruct (Horigin Hr) as [(k & Hk) | [Hlast | Hother]].
  - left. eapply create_charge_raises. exact Hk.
  - discriminate.
  - now right.
Qed.

Lemma charge_and_record_api_error (request : PaymentRequest.t) (key : string)
    (user : User.t) (σ : store) (ρ : env) (e : BaseAPIError) :
  snd (fst (charge_and_record request key user σ ρ)) = Raised (APIError e) ->
  In (api_class_of e, status_code e) class_status.
Proof.
  unfold charge_and_record. cbv zeta.
  match goal with
  | |- context [_call_stripe_with_retry ?s ?r ?u ?a ?c ?d ?k] =>
      pose proof (call_stripe_raises s r u a c d k) as Hraises;
      destruct (_call_stripe_with_retry s r u a c d k) as [[trace stripe_outcome] σ']
  end.
  simpl in Hraises. destruct stripe_outcome as [stripe_result|x].
  - destruct (String.eqb (charge_status stripe_result) "failed"); simpl.
    + intros [= <-]. simpl. auto.
    + discriminate.
  - destruct (isinstance_any x [StripeTimeoutError_; StripeRateLimitError_]) eqn:Hx; simpl.
    + intros [= <-]. simpl. auto 6.
    + intros [= ->]. destruct (Hraises _ eq_refl) as [H | (c & m & H)]; discriminate.
Qed.

Lemma process_payment_api_error (request : PaymentRequest.t) (σ : store) (ρ : env)
    (e : BaseAPIError) :
  snd (fst (process_payment request σ ρ)) = Raised (APIError e) ->
  In (api_class_of e, status_code e) class_status.
Proof.
  unfold process_payment.
  destruct (validate_outcome request) as [Hv | (m & f & Hv)]; rewrite Hv; simpl.
  2:{ intros [= <-]. simpl. auto. }
  destruct (get_by_idempotency_key σ (idempotency_key_of ρ request)) as [existing|].
  - destruct (Transaction.status existing); simpl;
      try (intros [= <-]; simpl; now auto 6); try discriminate;
      (destruct (get_by_id σ (PaymentRequest.user_id request)) as [user|]; simpl;
       [ destruct (User.has_valid_card user); simpl;
         [ apply charge_and_record_api_error | intros [= <-]; simpl; auto ]
       | intros [= <-]; simpl; auto ]).
  - destruct (get_by_id σ (PaymentRequest.user_id request)) as [user|]; simpl;
      [ destruct (User.has_valid_card user); simpl;
        [ apply charge_and_record_api_error | intros [= <-]; simpl; auto ]
      | intros [= <-]; simpl; auto ].
Qed.

Example malformed_amount_is_an_internal_error :
  fst (handle_post_payments
         {| body_user_id := Some 1%Z; body_amount := Malformed; body_currency := None;
            body_description := None; body_idempotency_key := None |}
         initial_store obliging)
  = (Error "INTERNAL_ERROR" "An unexpected error occurred" None, 500%Z).
Proof. reflexivity. Qed.

Example missing_amount_is_a_validation_error :
  fst (handle_post_payments
         {| body_user_id := Some 1%Z; body_amount := Missing; body_currency := None;
            body_description := None; body_idempotency_key := None |}
         initial_store obliging)
  = (Error "VALIDATION_ERROR" "Amount must be greater than 0"
       (Some {[ "field" := VStr "amount" ]}), 400%Z).
Proof. reflexivity. Qed.

(** C4. For every request body (its entries at the types
    [PaymentRequest] declares; its amount absent, a finite decimal or no
    number), state and world: when the request was built and
    [process_payment] returned, the handler answers what it returned with
    the status 200; in every other case the status is not 200, so that a
    200 is answered exactly when [process_payment] returned;
    when the [try] block raises a [BaseAPIError] the answer is its
    [to_response()] with its [status_code], which is the code of its class
    (ValidationError 400, PaymentDeclinedError 402, DuplicatePaymentError
    409, PaymentServiceUnavailableError 503, PartialFailureError 500); any
    other exception, that of a malformed amount included, gives 500 with
    the code INTERNAL_ERROR. *)
Theorem handler_status_codes (request_body : request_body) (σ : store) (ρ : env) :
  let tried := snd (fst (attempt_payment request_body σ ρ)) in
  let answer := fst (handle_post_payments request_body σ ρ) in
  (forall request result,
     parse request_body = Returned request ->
     snd (fst (process_payment request σ ρ)) = Returned result ->
     answer = (result, 200%Z))
  /\ (snd answer = 200%Z ->
      exists request result,
        parse request_body = Returned request
        /\ snd (fst (process_payment request σ ρ)) = Returned result
        /\ fst answer = result)
  /\ (forall e, tried = Raised e -> snd answer <> 200%Z)
  /\ (forall e, parse request_body = Raised e ->
        answer = (Error "INTERNAL_ERROR" "An unexpected error occurred" None, 500%Z))
  /\ (forall request,
        parse request_body = Returned request ->
        tried = snd (fst (process_payment request σ ρ)))
  /\ (forall e,
        tried = Raised (APIError e) ->
        answer = (to_response e, status_code e)
        /\ In (api_class_of e, status_code e) class_status)
  /\ (forall e,
        tried = Raised e -> isinstance e BaseAPIError_c = false ->
        answer = (Error "INTERNAL_ERROR" "An unexpected error occurred" None, 500%Z))
  /\ (forall message field, status_code (ValidationError message field) = 400%Z)
  /\ (forall decline_code message,
        status_code (PaymentDeclinedError decline_code message) = 402%Z)
  /\ (forall id, status_code (DuplicatePaymentError id) = 409%Z)
  /\ (forall retry_after, status_code (PaymentServiceUnavailableError retry_after) = 503%Z)
  /\ (forall charge reason, status_code (PartialFailureError charge reason) = 500%Z).
Proof.
  cbv zeta. unfold handle_post_payments.
  assert (Hapi : forall e,
             snd (fst (attempt_payment request_body σ ρ)) = Raised (APIError e) ->
             In (api_class_of e, status_code e) class_status).
  { intros e. unfold attempt_payment.
    destruct (parse request_body) as [request|x] eqn:Hp.
    - apply process_payment_api_error.
    - unfold parse in Hp. destruct (body_amount request_body); try discriminate.
      injection Hp as <-. discriminate. }
  assert (Hparse : forall request,
             parse request_body = Returned request ->
             snd (fst (attempt_payment request_body σ ρ))
             = snd (fst (process_payment request σ ρ))).
  { intros request Hp. unfold attempt_payment. now rewrite Hp. }
  destruct (attempt_payment request_body σ ρ) as [[trace tried] σ'] eqn:Hrun.
  simpl in *.
  assert (Hcode : forall e, tried = Raised e -> snd (respond tried) <> 200%Z).
  { intros x -> H200. destruct x; simpl in H200; try discriminate.
    specialize (Hapi e eq_refl). rewrite H200 in Hapi. simpl in Hapi.
    repeat (destruct Hapi as [Hapi | Hapi]; [discriminate|]). exact Hapi. }
  repeat apply conj; try reflexivity.
  - intros request result Hp Hres.
    rewrite <- (Hparse request Hp) in Hres. now subst tried.
  - intros H200. destruct tried as [result|x].
    + unfold attempt_payment in Hrun.
      destruct (parse request_body) as [request|y]; [|discriminate].
      exists request, result. rewrite Hrun. auto.
    + now destruct (Hcode x eq_refl).
  - exact Hcode.
  - intros e Hp. unfold attempt_payment in Hrun. rewrite Hp in Hrun.
    injection Hrun as _ <- _. unfold parse in Hp.
    destruct (body_amount request_body); try discriminate.
    now injection Hp as <-.
  - exact Hparse.
  - intros e ->. split; [reflexivity | now apply Hapi].
  - intros e -> Hnot. destruct e; simpl in *; try reflexivity. discriminate.
Qed.

End PaymentServiceProofs.

(* ===================================================================== *)
(** * Part III: further properties of the code                            *)
(* ===================================================================== *)

(* --------------------------------------------------------------------- *)
(** ** More on the retry decorators                                       *)
(* --------------------------------------------------------------------- *)

Section ResilientRetryMore.
Import Python Backoff Traces ResilientApiClient.
Context {A E : Type} `{Exception E}.
Variables (max_retries : Z) (base_delay max_delay exponential_base : Q) (jitter : bool).
Variables (retryable_exceptions : E -> bool).
Variables (func : nat -> outcome A E) (random : nat -> Q).

Local Abbreviation loop :=
  (wrapper_loop (A := A) max_retries base_delay max_delay exponential_base jitter
     retryable_exceptions func random).

(** A wrapper that returns a value returns that of the first invocation
    that did not raise; the invocations before it raised retryable
    exceptions. *)
Lemma rac_returns (n a : nat) (last : option E) (used : Z) (v : A) :
  snd (loop (seq a n) last used) = Returned v ->
  exists k,
    k < n
    /\ invocations (fst (loop (seq a n) last used)) = map func (seq a (S k))
    /\ func (a + k) = Returned v
    /\ forall j, j < k ->
         exists x, func (a + j) = Raised x /\ retryable_exceptions x = true.
Proof.
  revert a last used. induction n as [|n IH]; intros a last used; simpl; [discriminate|].
  destruct (func a) as [w|x] eqn:Hf; simpl.
  { intros [= ->]. exists 0. rewrite Nat.add_0_r. repeat split; [lia | exact Hf | lia]. }
  destruct (retryable_exceptions x) eqn:Hx; simpl; [|discriminate].
  destruct (Z.of_nat a =? max_retries)%Z; simpl; [discriminate|].
  destruct (sleep_accepts _); simpl; [|discriminate].
  specialize (IH (S a) (Some x) (Z.of_nat a + 1)%Z).
  destruct (loop (seq (S a) n) (Some x) (Z.of_nat a + 1)%Z) as [trace result].
  simpl in *. intros Hr. destruct (IH Hr) as (k & Hk & Hinv & Hv & Hbefore).
  exists (S k). rewrite Hinv, <- Nat.add_succ_comm. repeat split; [lia | exact Hv |].
  intros [|j] Hj.
  - rewrite Nat.add_0_r. eauto.
  - rewrite <- Nat.add_succ_comm. apply Hbefore. lia.
Qed.

(** When the last attempt of the list is attempt [max_retries], the loop
    sleeps once less than it invokes. *)
Lemma rac_sleeps_between (n a : nat) (last : option E) (used : Z) :
  (Z.of_nat a + Z.of_nat n = max_retries + 1)%Z -> 1 <= n ->
  length (delays (fst (loop (seq a n) last used))) + 1
  = length (invocations (fst (loop (seq a n) last used))).
Proof.
  revert a last used. induction n as [|n IH]; intros a last used Han Hn; [lia|]. simpl.
  destruct (func a) as [w|x]; simpl; [reflexivity|].
  destruct (retryable_exceptions x); simpl; [|reflexivity].
  destruct (Z.of_nat a =? max_retries)%Z eqn:Ha; simpl; [reflexivity|].
  apply Z.eqb_neq in Ha.
  destruct (sleep_accepts _); simpl; [|reflexivity].
  specialize (IH (S a) (Some x) (Z.of_nat a + 1)%Z).
  destruct (loop (seq (S a) n) (Some x) (Z.of_nat a + 1)%Z) as [trace result].
  simpl in *. rewrite <- IH; lia.
Qed.

End ResilientRetryMore.

Section HandlersRetryMore.
Import Python Backoff Traces PaymentHandlers.
Context {A E : Type} `{Exception E}.
Variables (max_retries : Z) (base_delay max_delay exponential_base : Q) (jitter : bool).
Variables (retryable_exceptions : E -> bool).
Variables (func : nat -> outcome A E) (random : nat -> Q).

Local Abbreviation loop :=
  (wrapper_loop (A := A) max_retries base_delay max_delay exponential_base jitter
     retryable_exceptions func random).

Lemma ph_returns (n a : nat) (last : option E) (v : A) :
  snd (loop (seq a n) last) = Returned v ->
  exists k,
    k < n
    /\ invocations (fst (loop (seq a n) last)) = map func (seq a (S k))
    /\ func (a + k) = Returned v
    /\ forall j, j < k ->
         exists x, func (a + j) = Raised x /\ retryable_exceptions x = true.
Proof.
  revert a last. induction n as [|n IH]; intros a last; simpl; [discriminate|].
  destruct (func a) as [w|x] eqn:Hf; simpl.
  { intros [= ->]. exists 0. rewrite Nat.add_0_r. repeat split; [lia | exact Hf | lia]. }
  destruct (retryable_exceptions x) eqn:Hx; simpl; [|discriminate].
  destruct (Z.of_nat a =? max_retries)%Z; simpl; [discriminate|].
  destruct (sleep_accepts _); simpl; [|discriminate].
  specialize (IH (S a) (Some x)).
  destruct (loop (seq (S a) n) (Some x)) as [trace result].
  simpl in *. intros Hr. destruct (IH Hr) as (k & Hk & Hinv & Hv & Hbefore).
  exists (S k). rewrite Hinv, <- Nat.add_succ_comm. repeat split; [lia | exact Hv |].
  intros [|j] Hj.
  - rewrite Nat.add_0_r. eauto.
  - rewrite <- Nat.add_succ_comm. apply Hbefore. lia.
Qed.

Lemma ph_sleeps_between (n a : nat) (last : option E) :
  (Z.of_nat a + Z.of_nat n = max_retries + 1)%Z -> 1 <= n ->
  length (delays (fst (loop (seq a n) last))) + 1
  = length (invocations (fst (loop (seq a n) last))).
Proof.
  revert a last. induction n as [|n IH]; intros a last Han Hn; [lia|]. simpl.
  destruct (func a) as [w|x]; simpl; [reflexivity|].
  destruct (retryable_exceptions x); simpl; [|reflexivity].
  destruct (Z.of_nat a =? max_retries)%Z eqn:Ha; simpl; [reflexivity|].
  apply Z.eqb_neq in Ha.
  destruct (sleep_accepts _); simpl; [|reflexivity].
  specialize (IH (S a) (Some x)).
  destruct (loop (seq (S a) n) (Some x)) as [trace result].
  simpl in *. rewrite <- IH; lia.
Qed.

End HandlersRetryMore.

Section ServiceRetryMore.
Import Python Backoff Traces PaymentService.
Context {A : Type}.
Variables (max_retries : Z) (base_delay max_delay exponential_base : Q).
Variables (retryable_exceptions : list class).
Variables (func : nat -> outcome A exception).

Local Abbreviation loop :=
  (wrapper_loop (A := A) max_retries base_delay max_delay exponential_base
     retryable_exceptions func).

Lemma ps_returns (n a : nat) (last : option exception) (v : A) :
  snd (loop (seq a n) last) = Returned v ->
  exists k,
    k < n
    /\ invocations (fst (loop (seq a n) last)) = map func (seq a (S k))
    /\ func (a + k) = Returned v
    /\ forall j, j < k ->
         exists x, func (a + j) = Raised x
                   /\ isinstance_any x retryable_exceptions = true.
Proof.
  revert a last. induction n as [|n IH]; intros a last; simpl.
  { destruct last; discriminate. }
  destruct (func a) as [w|x] eqn:Hf; simpl.
  { intros [= ->]. exists 0. rewrite Nat.add_0_r. repeat split; [lia | exact Hf | lia]. }
  destruct (isinstance_any x retryable_exceptions) eqn:Hx; simpl; [|discriminate].
  destruct (Z.of_nat a =? max_retries)%Z; simpl; [discriminate|].
  destruct (sleep_accepts _); simpl; [|discriminate].
  specialize (IH (S a) (Some x)).
  destruct (loop (seq (S a) n) (Some x)) as [trace result].
  simpl in *. intros Hr. destruct (IH Hr) as (k & Hk & Hinv & Hv & Hbefore).
  exists (S k). rewrite Hinv, <- Nat.add_succ_comm. repeat split; [lia | exact Hv |].
  intros [|j] Hj.
  - rewrite Nat.add_0_r. eauto.
  - rewrite <- Nat.add_succ_comm. apply Hbefore. lia.
Qed.

Lemma ps_sleeps_between (n a : nat) (last : option exception) :
  (Z.of_nat a + Z.of_nat n = max_retries + 1)%Z -> 1 <= n ->
  length (delays (fst (loop (seq a n) last))) + 1
  = length (invocations (fst (loop (seq a n) last))).
Proof.
  revert a last. induction n as [|n IH]; intros a last Han Hn; [lia|]. simpl.
  destruct (func a) as [w|x]; simpl; [reflexivity|].
  destruct (isinstance_any x retryable_exceptions); simpl; [|reflexivity].
  destruct (Z.of_nat a =? max_retries)%Z eqn:Ha; simpl; [reflexivity|].
  apply Z.eqb_neq in Ha.
  destruct (sleep_accepts _); simpl; [|reflexivity].
  specialize (IH (S a) (Some x)).
  destruct (loop (seq (S a) n) (Some x)) as [trace result].
  simpl in *. rewrite <- IH; lia.
Qed.

Lemma ps_delays_accepted (attempts : list nat) (last : option exception) :
  Forall (fun d => sleep_accepts d = true) (delays (fst (loop attempts last))).
Proof.
  revert last. induction attempts as [|a l IH]; intros last; simpl; [constructor|].
  destruct (func a) as [w|x]; simpl; [constructor|].
  destruct (isinstance_any x retryable_exceptions); simpl; [|constructor].
  destruct (Z.of_nat a =? max_retries)%Z; simpl; [constructor|].
  destruct (sleep_accepts _) eqn:Hs; simpl; [|constructor].
  specialize (IH (Some x)).
  destruct (loop l (Some x)) as [trace result].
  simpl in *. constructor; assumption.
Qed.

End ServiceRetryMore.

Section RetryDecoratorsMore.
Import Python Backoff Traces.

Lemma total_le_length (ds : list Q) (B : Q) :
  Forall (fun d => (d <= B)%Q) ds ->
  (total ds <= inject_Z (Z.of_nat (length ds)) * B)%Q.
Proof.
  induction 1 as [|d ds Hd _ IH]; cbn [total fold_right length].
  - change (inject_Z (Z.of_nat 0)) with 0%Q. lra.
  - fold (total ds).
    rewrite Nat2Z.inj_succ, <- Z.add_1_r, inject_Z_plus.
    change (inject_Z 1) with 1%Q. lra.
Qed.

(** X1. A decorated call that returns a value returns the value of the
    first invocation that did not raise: every invocation before it raised
    an exception of [retryable_exceptions], and none follows it.  This
    holds for the decorators of all three modules. *)
Theorem retry_returns_first_success {A E : Type} `{Exception E}
    (max_retries : Z) (base_delay max_delay exponential_base : Q) (jitter : bool)
    (retryable_exceptions : E -> bool)
    (func : nat -> outcome A E) (random : nat -> Q)
    (classes : list PaymentService.class)
    (func' : nat -> outcome A PaymentService.exception) (v : A) :
  let rac :=
    ResilientApiClient.retry_with_backoff max_retries base_delay max_delay
      exponential_base jitter retryable_exceptions func random in
  let ph :=
    PaymentHandlers.retry_with_backoff max_retries base_delay max_delay
      exponential_base jitter retryable_exceptions func random in
  let ps :=
    PaymentService.retry_with_backoff max_retries base_delay max_delay
      exponential_base classes func' in
  let first_success {X} (retryable : X -> bool) (f : nat -> outcome A X)
        (made : list (outcome A X)) : Prop :=
    exists k,
      (Z.of_nat k <= max_retries)%Z
      /\ made = map f (seq 0 (S k))
      /\ f k = Returned v
      /\ forall j, j < k -> exists x, f j = Raised x /\ retryable x = true in
  (snd rac = Returned v -> first_success retryable_exceptions func (invocations (fst rac)))
  /\ (snd ph = Returned v -> first_success retryable_exceptions func (invocations (fst ph)))
  /\ (snd ps = Returned v ->
      first_success (fun x => PaymentService.isinstance_any x classes) func'
        (invocations (fst ps))).
Proof.
  cbv zeta.
  unfold ResilientApiClient.retry_with_backoff, PaymentHandlers.retry_with_backoff,
    PaymentService.retry_with_backoff, range.
  repeat apply conj; intros Hv.
  - destruct (rac_returns _ _ _ _ _ _ _ _ _ _ _ _ _ Hv) as (k & Hk & Hinv & Hf & Hb).
    exists k. repeat split; [lia | exact Hinv | exact Hf | exact Hb].
  - destruct (ph_returns _ _ _ _ _ _ _ _ _ _ _ _ Hv) as (k & Hk & Hinv & Hf & Hb).
    exists k. repeat split; [lia | exact Hinv | exact Hf | exact Hb].
  - destruct (ps_returns _ _ _ _ _ _ _ _ _ _ Hv) as (k & Hk & Hinv & Hf & Hb).
    exists k. repeat split; [lia | exact Hinv | exact Hf | exact Hb].
Qed.

Lemma retry_returns_first_success_witness :
  invocations
    (fst (PaymentHandlers.retry_with_backoff 3 (1 # 2) 60 2 true
            ResilientApiClient.default_retryable_exceptions
            (fun k => if (k <? 2)%nat
                      then Raised (ResilientApiClient.RateLimitError "Rate limit exceeded")
                      else Returned "ok")
            (fun _ => 1 # 2)))
  = [Raised (ResilientApiClient.RateLimitError "Rate limit exceeded");
     Raised (ResilientApiClient.RateLimitError "Rate limit exceeded");
     Returned "ok"].
Proof.
  destruct (retry_returns_first_success 3 (1 # 2) 60 2 true
              ResilientApiClient.default_retryable_exceptions
              (fun k => if (k <? 2)%nat
                        then Raised (ResilientApiClient.RateLimitError
                                       "Rate limit exceeded")
                        else Returned "ok")
              (fun _ => 1 # 2) [] (fun _ => Returned "ok") "ok")
    as (_ & Hph & _).
  destruct Hph as (k & _ & Hinv & Hk & _); [reflexivity|].
  destruct k as [|[|[|k]]]; try discriminate. exact Hinv.
Defined.

(** X2. None of the three decorators sleeps after its last attempt: a
    decorated call with a negative [max_retries] does nothing at all, and
    any other call sleeps exactly once less than it invokes the function,
    however it ends. *)
Theorem retry_sleeps_only_between_attempts {A E : Type} `{Exception E}
    (max_retries : Z) (base_delay max_delay exponential_base : Q) (jitter : bool)
    (retryable_exceptions : E -> bool)
    (func : nat -> outcome A E) (random : nat -> Q)
    (classes : list PaymentService.class)
    (func' : nat -> outcome A PaymentService.exception) :
  let rac :=
    ResilientApiClient.retry_with_backoff max_retries base_delay max_delay
      exponential_base jitter retryable_exceptions func random in
  let ph :=
    PaymentHandlers.retry_with_backoff max_retries base_delay max_delay
      exponential_base jitter retryable_exceptions func random in
  let ps :=
    PaymentService.retry_with_backoff max_retries base_delay max_delay
      exponential_base classes func' in
  let between {X} (trace : list (event A X)) : Prop :=
    if (max_retries <? 0)%Z then trace = []
    else length (delays trace) + 1 = length (invocations trace) in
  between (fst rac) /\ between (fst ph) /\ between (fst ps).
Proof.
  cbv zeta.
  unfold ResilientApiClient.retry_with_backoff, PaymentHandlers.retry_with_backoff,
    PaymentService.retry_with_backoff, range.
  destruct (max_retries <? 0)%Z eqn:HN;
    [apply Z.ltb_lt in HN | apply Z.ltb_ge in HN].
  - replace (Z.to_nat (max_retries + 1)) with 0 by lia. simpl. auto.
  - repeat apply conj.
    + apply rac_sleeps_between; lia.
    + apply ph_sleeps_between; lia.
    + apply ps_sleeps_between; lia.
Qed.

End RetryDecoratorsMore.

Section RetryDecorators64More.
Import Python Traces Runtime.

Local Abbreviation unavailable :=
  (fun _ : nat =>
     Raised (A := string)
       (ResilientApiClient.ServiceUnavailableError "Service temporarily unavailable")).


(** X4. In [resilient_api_client], a decorated call with a non-negative
    [max_retries] calls [metrics.record_call] once or not at all.  Once,
    when it returns a value, raises [MaxRetriesExceededError] or lets an
    [Exception] of the function through: then with [success] true exactly
    when it returns, and with [retries] equal to the number of invocations
    that raised a retryable exception (so [max_retries + 1], not
    [max_retries], when the retries are used up).  Not at all, when the
    call ends on an exception of the interpreter raised between two
    attempts, or on an exception of the function that is neither retryable
    nor an [Exception]. *)
Theorem retry_records_one_call {A E : Type} `{Exception E} {platform : Platform}
    (max_retries : Z) (base_delay max_delay exponential_base : float) (jitter : bool)
    (retryable_exceptions is_Exception : E -> bool)
    (func : nat -> outcome A E) (random : nat -> float) :
  let run :=
    ResilientApiClient64.retry_with_backoff max_retries base_delay max_delay
      exponential_base jitter retryable_exceptions is_Exception func random in
  (0 <= max_retries)%Z ->
  recorded (fst run)
  = if ResilientApiClient64.records is_Exception (snd run)
    then [(returned (snd run),
           Z.of_nat (retryable_failures retryable_exceptions (invocations (fst run))))]
    else [].
Proof.
  cbv zeta. unfold ResilientApiClient64.retry_with_backoff, range. intros HN.
  exact (rac64_recorded max_retries base_delay max_delay exponential_base jitter
           retryable_exceptions is_Exception func random (Z.to_nat (max_retries + 1)) 0
           None ltac:(lia) ltac:(lia)).
Qed.

Lemma retry_records_one_call_witness :
  recorded (fst (ResilientApiClient64.retry_with_backoff (platform := example) 3 1 60 2 true
                   ResilientApiClient.default_retryable_exceptions (fun _ => true)
                   unavailable (fun _ => 0.5%float)))
  = [(false, 4%Z)].
Proof.
  apply (retry_records_one_call (platform := example) 3 1 60 2 true
           ResilientApiClient.default_retryable_exceptions (fun _ => true)
           unavailable (fun _ => 0.5%float)).
  lia.
Defined.

End RetryDecorators64More.

(* --------------------------------------------------------------------- *)
(** ** More on the circuit breakers                                       *)
(* --------------------------------------------------------------------- *)

Section CircuitBreakersMore.
Import Python Breaker BreakerRuns.
Context {A E : Type}.

Lemma rac_call_settled (θ : Z) (τ : Q) (m : Z) (cb : ResilientApiClient.CircuitBreaker)
    (env : ResilientApiClient.call_env A E) :
  (1 <= m)%Z -> rac_settled θ τ m cb ->
  rac_settled θ τ m (snd (ResilientApiClient.call cb env)).
Proof.
  intros Hm. destruct cb as [th to mx f st lt hc]. destruct env as [n1 res n2].
  unfold rac_settled, counted, ResilientApiClient.call, ResilientApiClient.state,
    ResilientApiClient.invoke, ResilientApiClient._on_failure; simpl.
  intros (-> & -> & -> & Hc & Hs & Hl).
  destruct st; simpl in *; try congruence.
  - destruct res as [v|x]; simpl; [repeat split; auto; congruence|].
    destruct (θ <=? f + 1)%Z eqn:Hth; simpl;
      [apply Z.leb_le in Hth | apply Z.leb_gt in Hth];
      repeat split; auto; try congruence; eauto.
  - destruct lt as [last|]; simpl; [|repeat split; auto].
    destruct (Qle_bool τ (n1 - last)); simpl; [|repeat split; auto].
    destruct (m <=? 0)%Z eqn:Hm0; [apply Z.leb_le in Hm0; lia|]. simpl.
    destruct res as [v|x]; simpl; [repeat split; auto; congruence|].
    destruct (θ <=? f + 1)%Z eqn:Hth; simpl;
      [apply Z.leb_le in Hth | apply Z.leb_gt in Hth];
      repeat split; auto; try congruence; eauto; lia.
Qed.

Lemma rac_run_settled (θ : Z) (τ : Q) (m : Z)
    (envs : list (ResilientApiClient.call_env A E)) :
  (1 <= m)%Z -> rac_settled θ τ m (rac_run (ResilientApiClient.new θ τ m) envs).
Proof.
  intros Hm.
  assert (Hinit : rac_settled θ τ m (ResilientApiClient.new θ τ m)).
  { unfold rac_settled, counted. simpl. repeat split; auto; discriminate. }
  unfold rac_run. revert Hinit. generalize (ResilientApiClient.new θ τ m).
  induction envs as [|env envs IH]; intros cb Hcb; simpl; [exact Hcb|].
  apply IH. now apply rac_call_settled.
Qed.

Lemma ph_call_settled (nm : string) (θ : Z) (τ : Q) (m : Z)
    (cb : PaymentHandlers.CircuitBreaker) (env : PaymentHandlers.call_env A E) :
  ph_settled nm θ τ m cb -> ph_settled nm θ τ m (snd (PaymentHandlers.call cb env)).
Proof.
  destruct cb as [nm' th to mx f st lt hc]. destruct env as [n1 res n2].
  unfold ph_settled, counted, PaymentHandlers.call, PaymentHandlers.state,
    PaymentHandlers.invoke, PaymentHandlers._on_failure; simpl.
  intros (-> & -> & -> & -> & Hc & Hs & Hl).
  destruct st; simpl in *; try congruence.
  - destruct res as [v|x]; simpl; [repeat split; auto; congruence|].
    destruct (θ <=? f + 1)%Z eqn:Hth; simpl;
      [apply Z.leb_le in Hth | apply Z.leb_gt in Hth];
      repeat split; auto; try congruence; eauto.
  - destruct lt as [last|]; simpl; [|repeat split; auto].
    destruct (negb (Qeq_bool last 0)); simpl; [|repeat split; auto].
    destruct (Qle_bool τ (n1 - last)); simpl; [|repeat split; auto].
    destruct res as [v|x]; simpl; [repeat split; auto; congruence|].
    destruct (θ <=? f + 1)%Z eqn:Hth; simpl;
      [apply Z.leb_le in Hth | apply Z.leb_gt in Hth];
      repeat split; auto; try congruence; eauto; lia.
Qed.

Lemma ph_run_settled (nm : string) (θ : Z) (τ : Q) (m : Z)
    (envs : list (PaymentHandlers.call_env A E)) :
  ph_settled nm θ τ m (ph_run (PaymentHandlers.new nm θ τ m) envs).
Proof.
  assert (Hinit : ph_settled nm θ τ m (PaymentHandlers.new nm θ τ m)).
  { unfold ph_settled, counted. simpl. repeat split; auto; discriminate. }
  unfold ph_run. revert Hinit. generalize (PaymentHandlers.new nm θ τ m).
  induction envs as [|env envs IH]; intros cb Hcb; simpl; [exact Hcb|].
  apply IH. now apply ph_call_settled.
Qed.


End CircuitBreakersMore.

Section CircuitBreakersRuns.
Import Python Breaker BreakerRuns BreakerExamples.


Lemma rac_closed_failure {A E : Type} (cb : ResilientApiClient.CircuitBreaker)
    (env : ResilientApiClient.call_env A E) (e : E) :
  ResilientApiClient._state cb = ResilientApiClient.CLOSED ->
  ResilientApiClient.func_result env = Raised e ->
  let cb' := snd (ResilientApiClient.call cb env) in
  ResilientApiClient.failure_threshold cb' = ResilientApiClient.failure_threshold cb
  /\ ResilientApiClient._failures cb' = (ResilientApiClient._failures cb + 1)%Z
  /\ ResilientApiClient._state cb'
     = if (ResilientApiClient.failure_threshold cb
           <=? ResilientApiClient._failures cb + 1)%Z
       then ResilientApiClient.OPEN else ResilientApiClient.CLOSED.
Proof.
  destruct cb as [th to mx f st lt hc]. destruct env as [n1 res n2]. simpl.
  intros -> ->.
  unfold ResilientApiClient.call, ResilientApiClient.state,
    ResilientApiClient.invoke, ResilientApiClient._on_failure. simpl.
  destruct (th <=? f + 1)%Z; simpl; auto.
Qed.

Lemma ph_closed_failure {A E : Type} (cb : PaymentHandlers.CircuitBreaker)
    (env : PaymentHandlers.call_env A E) (e : E) :
  PaymentHandlers._state cb = PaymentHandlers.CLOSED ->
  PaymentHandlers.func_result env = Raised e ->
  let cb' := snd (PaymentHandlers.call cb env) in
  PaymentHandlers.failure_threshold cb' = PaymentHandlers.failure_threshold cb
  /\ PaymentHandlers._failures cb' = (PaymentHandlers._failures cb + 1)%Z
  /\ PaymentHandlers._state cb'
     = if (PaymentHandlers.failure_threshold cb
           <=? PaymentHandlers._failures cb + 1)%Z
       then PaymentHandlers.OPEN else PaymentHandlers.CLOSED.
Proof.
  destruct cb as [nm th to mx f st lt hc]. destruct env as [n1 res n2]. simpl.
  intros -> ->.
  unfold PaymentHandlers.call, PaymentHandlers.state,
    PaymentHandlers.invoke, PaymentHandlers._on_failure. simpl.
  destruct (th <=? f + 1)%Z; simpl; auto.
Qed.

Lemma rac_counts_failures {A E : Type} (cb : ResilientApiClient.CircuitBreaker)
    (envs : list (ResilientApiClient.call_env A E)) :
  ResilientApiClient._state cb = ResilientApiClient.CLOSED ->
  (ResilientApiClient._failures cb < ResilientApiClient.failure_threshold cb)%Z ->
  Forall rac_fails envs ->
  (ResilientApiClient._failures cb + Z.of_nat (length envs)
   <= ResilientApiClient.failure_threshold cb)%Z ->
  ResilientApiClient._failures (rac_run cb envs)
  = (ResilientApiClient._failures cb + Z.of_nat (length envs))%Z
  /\ ResilientApiClient._state (rac_run cb envs)
     = if (ResilientApiClient._failures cb + Z.of_nat (length envs)
           <? ResilientApiClient.failure_threshold cb)%Z
       then ResilientApiClient.CLOSED else ResilientApiClient.OPEN.
Proof.
  unfold rac_run. revert cb.
  induction envs as [|env envs IH]; intros cb Hs Hlt Hall Hlen.
  - simpl. rewrite Z.add_0_r. apply Z.ltb_lt in Hlt. rewrite Hlt. auto.
  - apply Forall_cons in Hall as [(e & He) Hall].
    cbn [fold_left]. cbn [length] in Hlen |- *.
    destruct (rac_closed_failure cb env e Hs He) as (Hth & Hf & Hst).
    destruct (Z.leb_spec (ResilientApiClient.failure_threshold cb)
                (ResilientApiClient._failures cb + 1)) as [Hle|Hle].
    + assert (envs = []) as -> by (destruct envs; [reflexivity | simpl in Hlen; lia]).
      simpl. rewrite Hf, Hst. split; [lia|].
      match goal with |- context [(?x <? ?y)%Z] => destruct (Z.ltb_spec x y) end;
        [lia | reflexivity].
    + destruct (IH (snd (ResilientApiClient.call cb env))) as [IHf IHs];
        [exact Hst | lia | exact Hall | lia |].
      rewrite IHf, IHs, Hf, Hth. split; [lia|].
      repeat match goal with
             | |- context [(?x <? ?y)%Z] => destruct (Z.ltb_spec x y)
             end; (reflexivity || lia).
Qed.

Lemma ph_counts_failures {A E : Type} (cb : PaymentHandlers.CircuitBreaker)
    (envs : list (PaymentHandlers.call_env A E)) :
  PaymentHandlers._state cb = PaymentHandlers.CLOSED ->
  (PaymentHandlers._failures cb < PaymentHandlers.failure_threshold cb)%Z ->
  Forall ph_fails envs ->
  (PaymentHandlers._failures cb + Z.of_nat (length envs)
   <= PaymentHandlers.failure_threshold cb)%Z ->
  PaymentHandlers._failures (ph_run cb envs)
  = (PaymentHandlers._failures cb + Z.of_nat (length envs))%Z
  /\ PaymentHandlers._state (ph_run cb envs)
     = if (PaymentHandlers._failures cb + Z.of_nat (length envs)
           <? PaymentHandlers.failure_threshold cb)%Z
       then PaymentHandlers.CLOSED else PaymentHandlers.OPEN.
Proof.
  unfold ph_run. revert cb.
  induction envs as [|env envs IH]; intros cb Hs Hlt Hall Hlen.
  - simpl. rewrite Z.add_0_r. apply Z.ltb_lt in Hlt. rewrite Hlt. auto.
  - apply Forall_cons in Hall as [(e & He) Hall].
    cbn [fold_left]. cbn [length] in Hlen |- *.
    destruct (ph_closed_failure cb env e Hs He) as (Hth & Hf & Hst).
    destruct (Z.leb_spec (PaymentHandlers.failure_threshold cb)
                (PaymentHandlers._failures cb + 1)) as [Hle|Hle].
    + assert (envs = []) as -> by (destruct envs; [reflexivity | simpl in Hlen; lia]).
      simpl. rewrite Hf, Hst. split; [lia|].
      match goal with |- context [(?x <? ?y)%Z] => destruct (Z.ltb_spec x y) end;
        [lia | reflexivity].
    + destruct (IH (snd (PaymentHandlers.call cb env))) as [IHf IHs];
        [exact Hst | lia | exact Hall | lia |].
      rewrite IHf, IHs, Hf, Hth. split; [lia|].
      repeat match goal with
             | |- context [(?x <? ?y)%Z] => destruct (Z.ltb_spec x y)
             end; (reflexivity || lia).
Qed.

End CircuitBreakersRuns.

Section CircuitBreakers64.
Import Python Breaker BreakerRuns BreakerExamples.
Context {A E : Type}.
Variable (is_Exception : E -> bool).

(** Around a function that returns or raises an [Exception], the breaker
    does what it does when every exception is counted. *)
Lemma rac64_call_agrees (cb : ResilientApiClient.CircuitBreaker)
    (env : ResilientApiClient.call_env A E) :
  ResilientApiClient64.caught is_Exception env ->
  ResilientApiClient64.call is_Exception cb env = ResilientApiClient.call cb env.
Proof.
  unfold ResilientApiClient64.caught, ResilientApiClient64.call, ResilientApiClient.call,
    ResilientApiClient64.invoke, ResilientApiClient.invoke.
  intros Hc. destruct (ResilientApiClient.func_result env) as [v|e].
  - reflexivity.
  - now rewrite (Hc e eq_refl).
Qed.

Lemma ph64_call_agrees (cb : PaymentHandlers.CircuitBreaker)
    (env : PaymentHandlers.call_env A E) :
  PaymentHandlers64.caught is_Exception env ->
  PaymentHandlers64.call is_Exception cb env = PaymentHandlers.call cb env.
Proof.
  unfold PaymentHandlers64.caught, PaymentHandlers64.call, PaymentHandlers.call,
    PaymentHandlers64.invoke, PaymentHandlers.invoke.
  intros Hc. destruct (PaymentHandlers.func_result env) as [v|e].
  - reflexivity.
  - now rewrite (Hc e eq_refl).
Qed.

Lemma rac64_run_agrees (cb : ResilientApiClient.CircuitBreaker)
    (envs : list (ResilientApiClient.call_env A E)) :
  Forall (ResilientApiClient64.caught is_Exception) envs ->
  ResilientApiClient64.run is_Exception cb envs = rac_run cb envs.
Proof.
  unfold ResilientApiClient64.run, rac_run. intros Hall. revert cb.
  induction Hall as [|env envs Hc _ IH]; intros cb; simpl; [reflexivity|].
  now rewrite rac64_call_agrees.
Qed.

Lemma ph64_run_agrees (cb : PaymentHandlers.CircuitBreaker)
    (envs : list (PaymentHandlers.call_env A E)) :
  Forall (PaymentHandlers64.caught is_Exception) envs ->
  PaymentHandlers64.run is_Exception cb envs = ph_run cb envs.
Proof.
  unfold PaymentHandlers64.run, ph_run. intros Hall. revert cb.
  induction Hall as [|env envs Hc _ IH]; intros cb; simpl; [reflexivity|].
  now rewrite ph64_call_agrees.
Qed.

Lemma rac64_fails_caught (envs : list (ResilientApiClient.call_env A E)) :
  Forall (ResilientApiClient64.fails is_Exception) envs ->
  Forall (ResilientApiClient64.caught is_Exception) envs /\ Forall rac_fails envs.
Proof.
  intros Hall. split; (eapply Forall_impl; [exact Hall|]); intros env (e & He & Hex).
  - intros e' He'. congruence.
  - now exists e.
Qed.

Lemma ph64_fails_caught (envs : list (PaymentHandlers.call_env A E)) :
  Forall (PaymentHandlers64.fails is_Exception) envs ->
  Forall (PaymentHandlers64.caught is_Exception) envs /\ Forall ph_fails envs.
Proof.
  intros Hall. split; (eapply Forall_impl; [exact Hall|]); intros env (e & He & Hex).
  - intros e' He'. congruence.
  - now exists e.
Qed.

End CircuitBreakers64.

Section CircuitBreakersRuns64.
Import Python Breaker BreakerRuns BreakerExamples.

(** X6. A breaker of either module built with a [failure_threshold] of at
    least 1 counts its first failures and opens exactly at the
    [failure_threshold]-th: after [n] calls in a row whose function raises
    an [Exception], [n] not above the threshold, the counter is [n] and the
    state is CLOSED if [n] is below the threshold and OPEN if it equals it.
    An exception that is no [Exception] ([KeyboardInterrupt],
    [SystemExit]) is not counted: it passes through a CLOSED breaker and
    leaves it as it was. *)
Theorem breaker_trips_at_threshold {A E : Type} (is_Exception : E -> bool)
    (name : string) (failure_threshold : Z) (recovery_timeout : Q)
    (half_open_max_calls : Z)
    (envs : list (ResilientApiClient.call_env A E))
    (envs' : list (PaymentHandlers.call_env A E)) :
  (1 <= failure_threshold)%Z ->
  (Forall (ResilientApiClient64.fails is_Exception) envs ->
   (Z.of_nat (length envs) <= failure_threshold)%Z ->
   let cb :=
     ResilientApiClient64.run is_Exception
       (ResilientApiClient.new failure_threshold recovery_timeout half_open_max_calls)
       envs in
   ResilientApiClient._failures cb = Z.of_nat (length envs)
   /\ ResilientApiClient._state cb
      = if (Z.of_nat (length envs) <? failure_threshold)%Z
        then ResilientApiClient.CLOSED else ResilientApiClient.OPEN)
  /\
  (Forall (PaymentHandlers64.fails is_Exception) envs' ->
   (Z.of_nat (length envs') <= failure_threshold)%Z ->
   let cb :=
     PaymentHandlers64.run is_Exception
       (PaymentHandlers.new name failure_threshold recovery_timeout half_open_max_calls)
       envs' in
   PaymentHandlers._failures cb = Z.of_nat (length envs')
   /\ PaymentHandlers._state cb
      = if (Z.of_nat (length envs') <? failure_threshold)%Z
        then PaymentHandlers.CLOSED else PaymentHandlers.OPEN)
  /\
  (forall cb (env : ResilientApiClient.call_env A E) e,
     ResilientApiClient._state cb = ResilientApiClient.CLOSED ->
     ResilientApiClient.func_result env = Raised e -> is_Exception e = false ->
     ResilientApiClient64.call is_Exception cb env
     = (Raised (ResilientApiClient.Propagated e), cb))
  /\
  (forall cb (env : PaymentHandlers.call_env A E) e,
     PaymentHandlers._state cb = PaymentHandlers.CLOSED ->
     PaymentHandlers.func_result env = Raised e -> is_Exception e = false ->
     PaymentHandlers64.call is_Exception cb env
     = (Raised (PaymentHandlers.Propagated e), cb)).
Proof.
  intros Hth. repeat apply conj.
  - intros Hall Hlen. cbv zeta.
    destruct (rac64_fails_caught is_Exception envs Hall) as [Hc Hf].
    rewrite rac64_run_agrees by exact Hc.
    apply (rac_counts_failures
             (ResilientApiClient.new failure_threshold recovery_timeout half_open_max_calls)
             envs); simpl; auto; lia.
  - intros Hall Hlen. cbv zeta.
    destruct (ph64_fails_caught is_Exception envs' Hall) as [Hc Hf].
    rewrite ph64_run_agrees by exact Hc.
    apply (ph_counts_failures
             (PaymentHandlers.new name failure_threshold recovery_timeout
                half_open_max_calls) envs'); simpl; auto; lia.
  - intros cb env e Hs He Hex.
    unfold ResilientApiClient64.call, ResilientApiClient.state,
      ResilientApiClient64.invoke.
    now rewrite Hs, He, Hex.
  - intros cb env e Hs He Hex.
    unfold PaymentHandlers64.call, PaymentHandlers.state, PaymentHandlers64.invoke.
    rewrite Hs, He, Hex. now destruct (PaymentHandlers._last_failure_time cb).
Qed.

Lemma breaker_trips_at_threshold_witness :
  ResilientApiClient._state
    (ResilientApiClient64.run (fun _ => true) (ResilientApiClient.new 2 10 3)
       [failing 0; failing 1])
  = ResilientApiClient.OPEN.
Proof.
  destruct (breaker_trips_at_threshold (A := unit) (E := string) (fun _ => true) "" 2 10 3
              [failing 0; failing 1] []) as (Hrac & _); [lia|].
  destruct Hrac as [_ Hs].
  - repeat constructor; eexists; split; reflexivity.
  - simpl. lia.
  - exact Hs.
Defined.

(** A breaker that opened at clock 0 with a timeout of ten seconds lets a
    test call through at clock 20; when the function of that call raises
    what is no [Exception], neither [_on_success] nor [_on_failure] runs,
    and the breaker stays HALF_OPEN with the test call counted. *)
Lemma interrupted_test_call :
  let cb := rac_run (ResilientApiClient.new 1 10 3) [failing 0] in
  let cb' := snd (ResilientApiClient64.call (fun _ => false) cb (failing 20)) in
  ResilientApiClient._state cb = ResilientApiClient.OPEN
  /\ ResilientApiClient._state cb' = ResilientApiClient.HALF_OPEN
  /\ ResilientApiClient._half_open_calls cb' = 1%Z.
Proof. repeat split. Qed.

(** X7. After any sequence of calls made on a fresh breaker, which
    nothing but [call] touches, the breaker is not HALF_OPEN, as long as
    the functions called return or raise an [Exception]: the call that
    finds the recovery timeout elapsed also runs the test invocation and
    leaves the breaker CLOSED or OPEN.  This holds for [payment_handlers]
    always and for [resilient_api_client] whenever [half_open_max_calls] is
    at least 1, where in consequence the next call is not refused with
    "max test calls reached".  (A test call that raises what is no
    [Exception] does leave the breaker HALF_OPEN: [interrupted_test_call].) *)
Theorem breaker_never_rests_half_open {A E : Type} (is_Exception : E -> bool)
    (name : string) (failure_threshold : Z) (recovery_timeout : Q)
    (half_open_max_calls : Z)
    (envs : list (ResilientApiClient.call_env A E))
    (env : ResilientApiClient.call_env A E)
    (envs' : list (PaymentHandlers.call_env A E)) :
  ((1 <= half_open_max_calls)%Z ->
   Forall (ResilientApiClient64.caught is_Exception) envs ->
   let cb :=
     ResilientApiClient64.run is_Exception
       (ResilientApiClient.new failure_threshold recovery_timeout half_open_max_calls)
       envs in
   ResilientApiClient._state cb <> ResilientApiClient.HALF_OPEN
   /\ fst (ResilientApiClient64.call is_Exception cb env)
      <> Raised (ResilientApiClient.CircuitOpenError ResilientApiClient.HalfOpenMaxCalls))
  /\ (Forall (PaymentHandlers64.caught is_Exception) envs' ->
      PaymentHandlers._state
        (PaymentHandlers64.run is_Exception
           (PaymentHandlers.new name failure_threshold recovery_timeout
              half_open_max_calls) envs')
      <> PaymentHandlers.HALF_OPEN).
Proof.
  split.
  - intros Hm Hall. cbv zeta. rewrite rac64_run_agrees by exact Hall.
    destruct (rac_run_settled (A := A) (E := E) failure_threshold recovery_timeout
                half_open_max_calls envs Hm) as (_ & _ & Hmx & _ & Hs & _).
    split; [exact Hs|].
    destruct (rac_run _ envs) as [th to mx f st lt hc]. simpl in *. subst mx.
    destruct env as [n1 res n2].
    unfold ResilientApiClient64.call, ResilientApiClient.state,
      ResilientApiClient64.invoke.
    simpl. destruct st; simpl; try congruence.
    + destruct res; discriminate.
    + destruct lt as [last|]; simpl; [|discriminate].
      destruct (Qle_bool to (n1 - last)); simpl; [|discriminate].
      destruct (half_open_max_calls <=? 0)%Z eqn:Hm0; [apply Z.leb_le in Hm0; lia|].
      destruct res; discriminate.
  - intros Hall. rewrite ph64_run_agrees by exact Hall.
    destruct (ph_run_settled (A := A) (E := E) name failure_threshold recovery_timeout
                half_open_max_calls envs') as (_ & _ & _ & _ & _ & Hs & _).
    exact Hs.
Qed.

End CircuitBreakersRuns64.

(* --------------------------------------------------------------------- *)
(** ** More on the payment service                                        *)
(* --------------------------------------------------------------------- *)

Section ServiceRetryOutcome.
Import Python Backoff PaymentService.
Context {A : Type}.
Variables (max_retries : Z) (base_delay max_delay exponential_base : Q).
Variables (retryable_exceptions : list class).
Variables (func : nat -> outcome A exception).

Local Abbreviation loop :=
  (wrapper_loop (A := A) max_retries base_delay max_delay exponential_base
     retryable_exceptions func).

(** Where [time.sleep] accepts every delay the loop can compute, what the
    loop raises was raised by the function. *)
Lemma ps_outcome_origin (n a : nat) (last : option exception) :
  (forall k x, func k = Raised x ->
     sleep_accepts (slept_after base_delay max_delay exponential_base x k) = true) ->
  (Z.of_nat a + Z.of_nat n = max_retries + 1)%Z -> 1 <= n ->
  (exists v, snd (loop (seq a n) last) = Returned v)
  \/ (exists k x, func k = Raised x /\ snd (loop (seq a n) last) = Raised x).
Proof.
  intros Hacc. revert a last. induction n as [|n IH]; intros a last Han Hn; [lia|]. simpl.
  destruct (func a) as [v|x] eqn:Hf; simpl; [eauto|].
  destruct (isinstance_any x retryable_exceptions); simpl; [|eauto].
  destruct (Z.of_nat a =? max_retries)%Z eqn:Ha; simpl; [eauto|].
  apply Z.eqb_neq in Ha.
  specialize (Hacc a x Hf). unfold slept_after, capped in Hacc. rewrite Hacc.
  specialize (IH (S a) (Some x)).
  destruct (loop (seq (S a) n) (Some x)) as [trace result]. simpl in *.
  apply IH; lia.
Qed.

End ServiceRetryOutcome.

Section PaymentServiceMoreProofs.
Import Python Backoff Traces PaymentService PaymentServiceMore.

(** The two exceptions of the mock, as they are raised. *)
Lemma create_charge_raises_which (σ : store) (ρ : env) (amount : Z)
    (currency customer : string) (source description key : option string)
    (e : exception) :
  fst (create_charge σ ρ amount currency customer source description key) = Raised e ->
  e = StripeTimeoutError "Connection to Stripe timed out" \/ e = StripeRateLimitError 30.
Proof.
  unfold create_charge. cbv zeta.
  repeat match goal with |- context [if ?b then _ else _] => destruct b end;
    simpl; intros [= <-]; auto.
Qed.

(** The two dicts of the mock. *)
Lemma create_charge_returns (σ : store) (ρ : env) (amount : Z)
    (currency customer : string) (source description key : option string)
    (charge : charge) :
  fst (create_charge σ ρ amount currency customer source description key)
  = Returned charge ->
  charge_status charge = "failed"
  \/ (charge_status charge = "succeeded" /\ exists id, charge_id_of charge = Some id).
Proof.
  unfold create_charge. cbv zeta.
  repeat match goal with |- context [if ?b then _ else _] => destruct b end;
    simpl; intros [= <-]; simpl; eauto.
Qed.

(** What [_call_stripe_with_retry] does: between one and four calls of
    [create_charge], each counted by the mock, one sleep less than calls,
    each of at most 30 seconds, and an outcome that is a charge dict or one
    of the two Stripe errors; the books are not touched. *)
Lemma call_stripe_spec (σ : store) (ρ : env) (user : User.t) (amount : Q)
    (currency : string) (description : option string) (key : string) :
  let run := _call_stripe_with_retry σ ρ user amount currency description key in
  same_books σ (snd run)
  /\ _failure_counter (snd run)
     = (_failure_counter σ + Z.of_nat (length (invocations (fst (fst run)))))%Z
  /\ 1 <= length (invocations (fst (fst run))) <= 4
  /\ length (delays (fst (fst run))) + 1 = length (invocations (fst (fst run)))
  /\ Forall (fun d => (0 <= d)%Q /\ (d <= 30)%Q) (delays (fst (fst run)))
  /\ ((exists charge,
         snd (fst run) = Returned charge
         /\ (charge_status charge = "failed"
             \/ (charge_status charge = "succeeded"
                 /\ exists id, charge_id_of charge = Some id)))
      \/ (exists e, snd (fst run) = Raised e
                    /\ isinstance_any e [StripeTimeoutError_; StripeRateLimitError_] = true)).
Proof.
  unfold _call_stripe_with_retry, retry_with_backoff, range. cbv zeta.
  match goal with
  | |- context [wrapper_loop ?n ?b ?M ?x ?cl ?f ?l ?last] =>
      pose proof (ps_outcome_origin n b M x cl f 4 0 last) as Horigin;
      pose proof (fun v => ps_returns n b M x cl f 4 0 last v) as Hret;
      pose proof (ps_sleeps_between n b M x cl f 4 0 last) as Hbetween;
      pose proof (ps_invocations_le n b M x cl f (seq 0 4) last) as Hle;
      pose proof (ps_delays_accepted n b M x cl f (seq 0 4) last) as Hacc;
      pose proof (ps_trace_index n b M x cl f 4 0 last) as [_ Hidx];
      change l with (seq 0 4);
      destruct (wrapper_loop n b M x cl f (seq 0 4) last) as [trace result] eqn:Hrun
  end.
  simpl fst in *. simpl snd in *. rewrite length_seq in Hle.
  specialize (Hbetween ltac:(lia) ltac:(lia)).
  repeat apply conj; try reflexivity; try lia.
  - apply Forall_lookup. intros k d Hk.
    rewrite Forall_lookup in Hacc. specialize (Hacc k d Hk). apply Qle_bool_iff in Hacc.
    split; [exact Hacc|].
    destruct (Hidx k d Hk) as (x & _ & ->). destruct x; apply Q.le_min_r.
  - destruct Horigin as [(v & Hv) | (k & x & Hk & ->)]; try lia.
    + intros k x Hk. apply create_charge_raises_which in Hk as [-> | ->].
      * apply Qle_bool_iff. apply capped_nonneg; lra.
      * reflexivity.
    + left. exists v. split; [exact Hv|].
      destruct (Hret v Hv) as (k & _ & _ & Hk & _).
      eapply create_charge_returns. exact Hk.
    + right. exists x. split; [reflexivity|]. eapply create_charge_raises. exact Hk.
Qed.

(** Steps 4 to 9: the new transaction is stored, indexed and brought to
    COMPLETED or FAILED, and the user is credited exactly when the charge
    went through. *)
Lemma charge_and_record_spec (request : PaymentRequest.t) (key : string)
    (user : User.t) (σ : store) (ρ : env) :
  let run := charge_and_record request key user σ ρ in
  let t0 := pending_transaction request key user ρ in
  exists how t,
    ends how t (snd (fst run))
    /\ same_payment t0 t
    /\ _transactions (snd run) = <[Transaction.id t0 := t]> (_transactions σ)
    /\ _idempotency_index (snd run) = indexed (_idempotency_index σ) key (Transaction.id t0)
    /\ _users (snd run) = credited how (_users σ) user (PaymentRequest.amount request)
    /\ _queue (snd run) = _queue σ
    /\ (_failure_counter (snd run)
        = _failure_counter σ + Z.of_nat (length (invocations (fst (fst run)))))%Z
    /\ 1 <= length (invocations (fst (fst run))) <= 4
    /\ length (delays (fst (fst run))) + 1 = length (invocations (fst (fst run)))
    /\ Forall (fun d => (0 <= d)%Q /\ (d <= 30)%Q) (delays (fst (fst run))).
Proof.
  cbv zeta. unfold charge_and_record. cbv zeta.
  fold (pending_transaction request key user ρ).
  set (t0 := pending_transaction request key user ρ).
  pose proof (call_stripe_spec (create σ t0) ρ user (PaymentRequest.amount request)
                (PaymentRequest.currency request) (PaymentRequest.description request)
                key) as Hspec.
  cbv zeta in Hspec.
  destruct (_call_stripe_with_retry (create σ t0) ρ user _ _ _ key)
    as [[trace stripe_outcome] σ2].
  simpl fst in *. simpl snd in *.
  destruct Hspec as ((Hu & Ht & Hi & Hq) & Hc & Hn & Hb & Hd & Hout).
  assert (Hcreate_t : _transactions (create σ t0)
                      = <[Transaction.id t0 := t0]> (_transactions σ)).
  { unfold create. simpl. now destruct (negb (String.eqb key "")). }
  assert (Hcreate_i : _idempotency_index (create σ t0)
                      = indexed (_idempotency_index σ) key (Transaction.id t0)).
  { unfold create, indexed. simpl. now destruct (negb (String.eqb key "")). }
  assert (Hcreate_u : _users (create σ t0) = _users σ).
  { unfold create. simpl. now destruct (negb (String.eqb key "")). }
  assert (Hcreate_q : _queue (create σ t0) = _queue σ).
  { unfold create. simpl. now destruct (negb (String.eqb key "")). }
  assert (Hcreate_c : _failure_counter (create σ t0) = _failure_counter σ).
  { unfold create. simpl. now destruct (negb (String.eqb key "")). }
  rewrite Hcreate_t in Ht. rewrite Hcreate_i in Hi. rewrite Hcreate_u in Hu.
  rewrite Hcreate_q in Hq. rewrite Hcreate_c in Hc.
  assert (Hdone : forall t : Transaction.t,
             Transaction.id t = Transaction.id t0 ->
             <[Transaction.id t0 := t]> (<[Transaction.id t0 := t]> (_transactions σ2))
             = <[Transaction.id t0 := t]> (_transactions σ)).
  { intros t _. rewrite Ht, !insert_insert_eq. reflexivity. }
  destruct Hout as [(charge & -> & Hcharge) | (e & -> & He)].
  - destruct (String.eqb (charge_status charge) "failed") eqn:Hfailed.
    + exists Declined,
        (Transaction.set_error_message (Transaction.set_status t0 FAILED)
           (failure_message charge)).
      simpl. repeat apply conj; try reflexivity; try assumption; try lia; eauto;
        try (apply Hdone; reflexivity).
    + destruct Hcharge as [Hf | (_ & id & Hid)].
      { rewrite Hf in Hfailed. discriminate. }
      exists Charged,
        (Transaction.set_status
           (Transaction.set_stripe_charge_id t0 (charge_id_of charge)) COMPLETED).
      unfold update, update_balance, assign. simpl. rewrite Hu.
      destruct (_users σ !! User.id user) as [stored|] eqn:Hstored; simpl;
        (repeat apply conj; try reflexivity; try assumption; try lia; eauto;
         try (apply Hdone; reflexivity)).
  - destruct e as [m|m|retry_after|e|c m]; try discriminate He.
    + exists Unavailable,
        (Transaction.set_error_message (Transaction.set_status t0 FAILED)
           (Some (str (StripeTimeoutError m)))).
      simpl. repeat apply conj; try reflexivity; try assumption; try lia; eauto;
        try (apply Hdone; reflexivity).
    + exists Unavailable,
        (Transaction.set_error_message (Transaction.set_status t0 FAILED)
           (Some (str (StripeRateLimitError retry_after)))).
      simpl. repeat apply conj; try reflexivity; try assumption; try lia; eauto;
        try (apply Hdone; reflexivity).
Qed.

Lemma get_by_idempotency_key_stored (σ : store) (key : string) (t : Transaction.t) :
  get_by_idempotency_key σ key = Some t -> exists id, _transactions σ !! id = Some t.
Proof.
  unfold get_by_idempotency_key.
  destruct (_idempotency_index σ !! key) as [tx_id|]; [|discriminate].
  destruct (negb (String.eqb tx_id "")); [|discriminate]. eauto.
Qed.

(** Closes the facts about a call that stops before step 4. *)
Ltac early_exit :=
  split;
  [ discriminate
  | split;
    [ intros ? [= <-]; simpl; auto
    | split;
      [ intros ? [=]; do 2 eexists; split; eassumption
      | split; [ intros ? [= <-]; eauto | intros ? [= <-]; eauto ] ] ] ].

(** [process_payment] either stops before step 4, with the state as
    it was, no Stripe call and a result that is no success (a validation
    or duplicate error, or the dict of a stored pending transaction), or
    it is steps 4 to 9 for a valid request of a user with a card. *)
Lemma process_payment_cases (request : PaymentRequest.t) (σ : store) (ρ : env) :
  (exists result,
     process_payment request σ ρ = ([], result, σ)
     /\ (forall d, result <> Returned (Payment "success" d))
     /\ (forall e, result = Raised (APIError e) ->
           api_class_of e = ValidationError_ \/ api_class_of e = DuplicatePaymentError_)
     /\ (forall d, result = Returned (Payment "pending" d) ->
           exists id existing,
             _transactions σ !! id = Some existing
             /\ Transaction.status existing = PENDING)
     /\ (forall r, result = Returned r -> exists d, r = Payment "pending" d)
     /\ (forall e, result = Raised e ->
           (exists message field, e = APIError (ValidationError message field))
           \/ exists id, e = APIError (DuplicatePaymentError id)))
  \/ (exists user,
        valid request
        /\ fresh σ ρ request
        /\ get_by_id σ (PaymentRequest.user_id request) = Some user
        /\ process_payment request σ ρ
           = charge_and_record request (idempotency_key_of ρ request) user σ ρ).
Proof.
  unfold process_payment, fresh.
  destruct (validate_outcome request) as [Hv | (m & f & Hv)]; rewrite Hv.
  2:{ left. eexists. split; [reflexivity | early_exit]. }
  assert (Hvalid : valid request).
  { unfold valid. unfold _validate_request in Hv.
    destruct (Qle_bool (PaymentRequest.amount request) 0) eqn:H0; [discriminate|].
    destruct (Qltb 10000 (PaymentRequest.amount request)) eqn:H1; [discriminate|].
    destruct (existsb _ _) eqn:H2; [|discriminate].
    repeat split.
    - apply Qnot_le_lt. intros Hle. apply Qle_bool_iff in Hle. congruence.
    - apply Qnot_lt_le. intros Hlt. apply Qltb_lt in Hlt. congruence.
    - now apply supported_currency. }
  cbv zeta.
  destruct (get_by_idempotency_key σ (idempotency_key_of ρ request)) as [existing|] eqn:Hex.
  - destruct (get_by_idempotency_key_stored _ _ _ Hex) as (id & Hid).
    destruct (Transaction.status existing) eqn:Hst;
      try (left; eexists; split; [reflexivity | early_exit]);
      (destruct (get_by_id σ (PaymentRequest.user_id request)) as [user|];
       [ destruct (User.has_valid_card user); simpl;
         [ right; exists user;
           split; [exact Hvalid | split; [split; discriminate | split; reflexivity]]
         | left; eexists; split; [reflexivity | early_exit] ]
       | left; eexists; split; [reflexivity | early_exit] ]).
  - destruct (get_by_id σ (PaymentRequest.user_id request)) as [user|];
      [ destruct (User.has_valid_card user); simpl;
        [ right; exists user;
          split; [exact Hvalid | split; [exact I | split; reflexivity]]
        | left; eexists; split; [reflexivity | early_exit] ]
      | left; eexists; split; [reflexivity | early_exit] ].
Qed.

Lemma get_by_id_keyed (σ : store) (user_id : option Z) (user : User.t) :
  users_keyed σ -> get_by_id σ user_id = Some user ->
  _users σ !! User.id user = Some user.
Proof.
  intros Hk. unfold get_by_id. destruct user_id as [k|]; [|discriminate].
  intros Hu. now rewrite (Hk k user Hu).
Qed.

Lemma transaction_id_nonempty (x : string) : String.eqb ("txn_" ++ x) "" = false.
Proof. reflexivity. Qed.

Lemma eqb_empty_false (x : string) : x <> "" -> negb (String.eqb x "") = true.
Proof. intros Hx. apply negb_true_iff. now apply String.eqb_neq. Qed.

(** X8. What [TransactionRepository.create] stores can be read back: by
    id always, and by idempotency key when the key and the id are not
    empty; a transaction with an empty key is not indexed, and one with an
    empty id cannot be found through its key.  Transactions under other ids
    are not touched, and [update] replaces the record without touching the
    index. *)
Theorem transaction_repository_round_trip (σ : store) (t t' : Transaction.t) :
  let σ1 := create σ t in
  let σ2 := snd (update σ1 t') in
  TransactionRepository.get_by_id σ1 (Transaction.id t) = Some t
  /\ (Transaction.idempotency_key t <> "" ->
      get_by_idempotency_key σ1 (Transaction.idempotency_key t)
      = if String.eqb (Transaction.id t) "" then None else Some t)
  /\ (Transaction.idempotency_key t = "" -> _idempotency_index σ1 = _idempotency_index σ)
  /\ (forall id, id <> Transaction.id t ->
        TransactionRepository.get_by_id σ1 id = TransactionRepository.get_by_id σ id)
  /\ (Transaction.id t' = Transaction.id t ->
      TransactionRepository.get_by_id σ2 (Transaction.id t) = Some t'
      /\ _idempotency_index σ2 = _idempotency_index σ1
      /\ (Transaction.idempotency_key t <> "" -> Transaction.id t <> "" ->
          get_by_idempotency_key σ2 (Transaction.idempotency_key t) = Some t')).
Proof.
  cbv zeta. unfold TransactionRepository.get_by_id, get_by_idempotency_key, create, update.
  repeat apply conj.
  - destruct (negb (String.eqb (Transaction.idempotency_key t) "")); simpl;
      apply lookup_insert_eq.
  - intros Hkey. rewrite (eqb_empty_false _ Hkey). simpl.
    rewrite lookup_insert_eq.
    destruct (String.eqb (Transaction.id t) ""); simpl; [reflexivity|].
    apply lookup_insert_eq.
  - intros ->. reflexivity.
  - intros id Hid.
    destruct (negb (String.eqb (Transaction.idempotency_key t) "")); simpl;
      now apply lookup_insert_ne.
  - intros Hid. rewrite Hid. simpl.
    destruct (negb (String.eqb (Transaction.idempotency_key t) "")) eqn:Hk; simpl.
    + repeat split; [apply lookup_insert_eq |].
      intros _ Hne. rewrite lookup_insert_eq, (eqb_empty_false _ Hne).
      apply lookup_insert_eq.
    + repeat split; [apply lookup_insert_eq |].
      intros Hkey. rewrite (eqb_empty_false _ Hkey) in Hk. discriminate.
Qed.

(** X9. When [process_payment] reports success, the request was valid
    and named a stored user; the dict returned is that of a COMPLETED
    transaction with a charge id, for the user, amount and currency of the
    request, stored under the new id [txn_...]; the user's balance is the
    [Decimal] sum of the old balance and the amount, which is their sum
    rounded to 28 significant digits (so an amount of [1E-29] leaves a
    balance of [1000.00] as it is), and no other user changed; and nothing
    was queued for reconciliation. *)
Theorem payment_success_is_recorded
    (request : PaymentRequest.t) (σ σ' : store) (ρ : env)
    (trace : list (event charge exception)) (d : transaction_dict) :
  users_keyed σ ->
  process_payment request σ ρ = (trace, Returned (Payment "success" d), σ') ->
  valid request
  /\ exists user t,
       get_by_id σ (PaymentRequest.user_id request) = Some user
       /\ d = Transaction.to_dict t
       /\ TransactionRepository.get_by_id σ' ("txn_" ++ transaction_id ρ)%string = Some t
       /\ Transaction.id t = ("txn_" ++ transaction_id ρ)%string
       /\ Transaction.status t = COMPLETED
       /\ (exists charge, Transaction.stripe_charge_id t = Some charge)
       /\ Transaction.user_id t = User.id user
       /\ Transaction.amount t = PaymentRequest.amount request
       /\ Transaction.currency t = PaymentRequest.currency request
       /\ Transaction.idempotency_key t = idempotency_key_of ρ request
       /\ _users σ'
          = <[User.id user :=
                User.set_balance user (Decimal.add (User.balance user) (PaymentRequest.amount request))]>
              (_users σ)
       /\ ReconciliationQueue.get_pending σ' = ReconciliationQueue.get_pending σ.
Proof.
  intros Hkeyed Hrun.
  destruct (process_payment_cases request σ ρ)
    as [(result & Hearly & Hno & _) | (user & Hvalid & _ & Huser & Hsteps)].
  { rewrite Hearly in Hrun. injection Hrun as _ Hres _. subst result.
    now destruct (Hno d). }
  split; [exact Hvalid|].
  pose proof (charge_and_record_spec request (idempotency_key_of ρ request) user σ ρ)
    as Hspec.
  cbv zeta in Hspec. rewrite <- Hsteps, Hrun in Hspec. simpl in Hspec.
  destruct Hspec as (how & t & Hends & Hsame & Ht & _ & Hu & Hq & _).
  destruct how; simpl in Hends.
  - destruct Hends as (Hd & Hst & Hch & _). injection Hd as ->.
    destruct Hsame as (Hid & Huid & Ham & Hcur & Hkey & _). simpl in *.
    exists user, t. unfold TransactionRepository.get_by_id, ReconciliationQueue.get_pending.
    repeat apply conj; auto.
    + rewrite Ht. apply lookup_insert_eq.
    + rewrite Hu. unfold credited.
      now rewrite (get_by_id_keyed σ _ user Hkeyed Huser).
  - destruct Hends as ((c & m & Hd) & _). discriminate.
  - destruct Hends as (Hd & _). discriminate.
Qed.

Lemma payment_success_is_recorded_witness :
  exists t,
    TransactionRepository.get_by_id store_after_payment "txn_0123456789abcdef" = Some t
    /\ Transaction.status t = COMPLETED
    /\ Transaction.amount t = 9999 # 100
    /\ (User.balance <$> _users store_after_payment !! 1%Z)
       = Some (Decimal.add 1000 (9999 # 100)).
Proof.
  destruct (payment_success_is_recorded paid_request initial_store
              store_after_payment obliging
              (fst (fst (process_payment paid_request initial_store obliging)))
              (Transaction.to_dict
                 {| Transaction.id := "txn_0123456789abcdef";
                    Transaction.user_id := 1;
                    Transaction.amount := 9999 # 100;
                    Transaction.currency := "usd";
                    Transaction.status := COMPLETED;
                    Transaction.stripe_charge_id := Some "ch_1";
                    Transaction.idempotency_key := "test_key_123";
                    Transaction.created_at := 0;
                    Transaction.error_message := None |}))
    as (_ & user & t & Huser & _ & Hget & _ & Hst & _ & _ & Ham & _ & _ & Hu & _).
  - intros k user. unfold initial_store. simpl.
    intros Hk. apply lookup_insert_Some in Hk as [[<- <-] | [_ Hk]]; [reflexivity|].
    apply lookup_insert_Some in Hk as [[<- <-] | [_ Hk]]; [reflexivity|].
    apply lookup_singleton_Some in Hk as [<- <-]. reflexivity.
  - reflexivity.
  - exists t. split; [exact Hget | split; [exact Hst | split; [exact Ham |]]].
    rewrite Hu. vm_compute in Huser. injection Huser as <-. reflexivity.
Defined.

(** What every call of [process_payment] leaves in place. *)
Lemma process_payment_frame (request : PaymentRequest.t) (σ : store) (ρ : env) :
  let run := process_payment request σ ρ in
  _queue (snd run) = _queue σ
  /\ (_failure_counter (snd run)
      = _failure_counter σ + Z.of_nat (length (invocations (fst (fst run)))))%Z
  /\ length (invocations (fst (fst run))) <= 4
  /\ length (delays (fst (fst run))) <= 3
  /\ Forall (fun d => (0 <= d)%Q /\ (d <= 30)%Q) (delays (fst (fst run)))
  /\ ((forall d, snd (fst run) <> Returned (Payment "success" d)) ->
      _users (snd run) = _users σ)
  /\ (users_keyed σ -> users_keyed (snd run))
  /\ dom (_users (snd run)) = dom (_users σ)
  /\ (none_pending σ ->
      none_pending (snd run)
      /\ forall d, snd (fst run) <> Returned (Payment "pending" d)).
Proof.
  cbv zeta.
  destruct (process_payment_cases request σ ρ)
    as [(result & Hearly & Hno & _ & Hpending & _)
       | (user & Hvalid & Hfresh & Huser & Hsteps)].
  - rewrite Hearly. simpl.
    split; [reflexivity|]. split; [lia|]. split; [lia|]. split; [lia|].
    split; [constructor|]. split; [reflexivity|]. split; [auto|].
    split; [reflexivity|].
    intros Hnp. split; [exact Hnp|]. intros d Hd.
    destruct (Hpending d Hd) as (id & existing & Hid & Hst).
    exact (Hnp id existing Hid Hst).
  - rewrite Hsteps.
    pose proof (charge_and_record_spec request (idempotency_key_of ρ request) user σ ρ)
      as Hspec. cbv zeta in Hspec.
    destruct Hspec as (how & t & Hends & Hsame & Ht & Hi & Hu & Hq & Hc & Hn & Hb & Hd).
    assert (Husers : forall k u',
               _users (snd (charge_and_record request (idempotency_key_of ρ request)
                              user σ ρ)) !! k = Some u' ->
               exists u, _users σ !! k = Some u /\ User.id u' = User.id u).
    { intros k u'. rewrite Hu. unfold credited.
      destruct how; eauto.
      destruct (_users σ !! User.id user) as [stored|] eqn:Hstored; eauto.
      intros Hk. apply lookup_insert_Some in Hk as [[<- <-] | [_ Hk]]; eauto. }
    split; [exact Hq|]. split; [exact Hc|]. split; [lia|]. split; [lia|].
    split; [exact Hd|]. split; [|split; [|split]].
    + intros Hno. rewrite Hu. destruct how; try reflexivity.
      simpl in Hends. destruct Hends as (Hres & _). now destruct (Hno _ Hres).
    + intros Hkeyed k u' Hk. destruct (Husers k u' Hk) as (u & Hlook & ->).
      now apply Hkeyed.
    + rewrite Hu. unfold credited. destruct how; try reflexivity.
      destruct (_users σ !! User.id user) as [stored|] eqn:Hstored; [|reflexivity].
      rewrite dom_insert_L.
      assert (Hin : User.id user ∈ dom (_users σ)) by (apply elem_of_dom; eauto).
      apply set_eq. intros x. rewrite elem_of_union, elem_of_singleton.
      split; [intros [-> | Hx]; assumption | auto].
    + intros Hnp. split.
      * intros id t' Hid. rewrite Ht in Hid.
        apply lookup_insert_Some in Hid as [[_ <-] | [_ Hid]]; [|now apply (Hnp id t')].
        destruct how; simpl in Hends.
        -- destruct Hends as (_ & -> & _). discriminate.
        -- destruct Hends as (_ & -> & _). discriminate.
        -- destruct Hends as (_ & -> & _). discriminate.
      * intros d Hd'. destruct how; simpl in Hends;
          [destruct Hends as (Hres & _) | destruct Hends as ((c & m & Hres) & _)
           | destruct Hends as (Hres & _)]; rewrite Hres in Hd'; discriminate.
Qed.

Lemma serve_keeps (P : store -> Prop) (requests : list (PaymentRequest.t * env)) :
  (forall request σ ρ, P σ -> P (snd (process_payment request σ ρ))) ->
  forall σ, P σ -> P (serve σ requests).
Proof.
  intros Hstep. unfold serve.
  induction requests as [|r requests IH]; intros σ Hσ; cbn [fold_left]; auto.
Qed.

(** X10. A call of [process_payment] that does not report success (it
    raises, or answers [pending]) leaves every user as it was: no balance
    changes unless the payment went through. *)
Theorem failed_payment_moves_no_money (request : PaymentRequest.t) (σ : store) (ρ : env) :
  let run := process_payment request σ ρ in
  (forall d, snd (fst run) <> Returned (Payment "success" d)) ->
  _users (snd run) = _users σ.
Proof.
  cbv zeta. intros Hno.
  now apply (process_payment_frame request σ ρ).
Qed.

Lemma failed_payment_moves_no_money_witness :
  _users (snd (process_payment paid_request initial_store declining))
  = _users initial_store.
Proof.
  apply (failed_payment_moves_no_money paid_request initial_store declining).
  intros d Hd. vm_compute in Hd. discriminate Hd.
Defined.

(** X11. Between two calls no stored transaction is pending: starting
    from a state without pending transactions, as the module starts, every
    sequence of [process_payment] calls ends in such a state, whatever the
    requests, the rolls of the Stripe mock and the ids drawn; so none of
    these calls is answered with status [pending]. *)
Theorem service_leaves_nothing_pending
    (σ : store) (requests : list (PaymentRequest.t * env)) :
  none_pending σ ->
  none_pending (serve σ requests)
  /\ forall request ρ d,
       snd (fst (process_payment request (serve σ requests) ρ))
       <> Returned (Payment "pending" d).
Proof.
  intros Hσ.
  assert (Hnp : none_pending (serve σ requests)).
  { apply serve_keeps; [|exact Hσ].
    intros request σ0 ρ H0. now apply (process_payment_frame request σ0 ρ). }
  split; [exact Hnp|].
  intros request ρ. now apply (process_payment_frame request (serve σ requests) ρ).
Qed.

Lemma service_leaves_nothing_pending_witness :
  none_pending
    (serve initial_store [(paid_request, declining); (paid_request, obliging)]).
Proof.
  apply (service_leaves_nothing_pending initial_store
           [(paid_request, declining); (paid_request, obliging)]).
  intros id t. unfold initial_store. simpl. rewrite lookup_empty. discriminate.
Defined.

(** X12. A payment that went through is not charged again: after a call
    of [process_payment] reported success, every valid request with the
    same effective idempotency key (given, or generated from the same
    data) raises [DuplicatePaymentError] with the id of the transaction of
    the first call, without a Stripe call and without a change of the
    state.  The key must not be empty, as no key the method computes is. *)
Theorem paid_request_is_not_charged_again
    (request request' : PaymentRequest.t) (σ σ' : store) (ρ ρ' : env)
    (trace : list (event charge exception)) (d : transaction_dict) :
  process_payment request σ ρ = (trace, Returned (Payment "success" d), σ') ->
  idempotency_key_of ρ request <> "" ->
  valid request' ->
  idempotency_key_of ρ' request' = idempotency_key_of ρ request ->
  process_payment request' σ' ρ'
  = ([], Raised (APIError (DuplicatePaymentError ("txn_" ++ transaction_id ρ))), σ').
Proof.
  intros Hrun Hkey (Hpos & Hmax & Hcur) Hsame.
  destruct (process_payment_cases request σ ρ)
    as [(result & Hearly & Hno & _) | (user & _ & _ & _ & Hsteps)].
  { rewrite Hearly in Hrun. injection Hrun as _ Hres _. subst result.
    now destruct (Hno d). }
  pose proof (charge_and_record_spec request (idempotency_key_of ρ request) user σ ρ)
    as Hspec.
  cbv zeta in Hspec. rewrite <- Hsteps, Hrun in Hspec. simpl in Hspec.
  destruct Hspec as (how & t & Hends & Hpay & Ht & Hi & _).
  destruct how; simpl in Hends;
    [ | destruct Hends as ((c & m & Hd) & _); discriminate
      | destruct Hends as (Hd & _); discriminate ].
  destruct Hends as (_ & Hst & _). destruct Hpay as (Hid & _). simpl in Hid.
  assert (Hex : get_by_idempotency_key σ' (idempotency_key_of ρ' request') = Some t).
  { unfold get_by_idempotency_key. rewrite Hsame, Hi. unfold indexed.
    rewrite (eqb_empty_false _ Hkey), lookup_insert_eq.
    rewrite transaction_id_nonempty. simpl. rewrite Ht. apply lookup_insert_eq. }
  unfold process_payment.
  rewrite (validate_accepts request' Hpos Hmax Hcur). cbv zeta.
  rewrite Hex, Hst, Hid. reflexivity.
Qed.

Lemma paid_request_is_not_charged_again_witness :
  process_payment paid_request store_after_payment declining
  = ([], Raised (APIError (DuplicatePaymentError "txn_0123456789abcdef")),
     store_after_payment).
Proof.
  apply (paid_request_is_not_charged_again paid_request paid_request initial_store
           store_after_payment obliging declining
           (fst (fst (process_payment paid_request initial_store obliging)))
           (Transaction.to_dict
              {| Transaction.id := "txn_0123456789abcdef";
                 Transaction.user_id := 1;
                 Transaction.amount := 9999 # 100;
                 Transaction.currency := "usd";
                 Transaction.status := COMPLETED;
                 Transaction.stripe_charge_id := Some "ch_1";
                 Transaction.idempotency_key := "test_key_123";
                 Transaction.created_at := 0;
                 Transaction.error_message := None |})).
  - reflexivity.
  - discriminate.
  - unfold valid. simpl. split; [reflexivity | split; [discriminate | auto]].
  - reflexivity.
Defined.

(** X13. What one call of [process_payment] costs, whatever the request
    and the state: at most 4 calls of [create_charge], each counted once by
    the mock's counter; at most 3 sleeps, each between 0 and 30 seconds, so
    at most 90 seconds of sleep; the reconciliation queue is never written
    (neither [update] nor [update_balance] can raise), and no user is added
    or removed. *)
Theorem payment_costs (request : PaymentRequest.t) (σ : store) (ρ : env) :
  let run := process_payment request σ ρ in
  let trace := fst (fst run) in
  length (invocations trace) <= 4
  /\ (_failure_counter (snd run)
      = _failure_counter σ + Z.of_nat (length (invocations trace)))%Z
  /\ length (delays trace) <= 3
  /\ Forall (fun d => (0 <= d)%Q /\ (d <= 30)%Q) (delays trace)
  /\ (total (delays trace) <= 90)%Q
  /\ ReconciliationQueue.get_pending (snd run) = ReconciliationQueue.get_pending σ
  /\ dom (_users (snd run)) = dom (_users σ).
Proof.
  cbv zeta.
  destruct (process_payment_frame request σ ρ)
    as (Hq & Hc & Hn & Hd & Hb & _ & _ & Hdom & _).
  repeat apply conj; auto.
  assert (Hle : Forall (fun d => (d <= 30)%Q)
                  (delays (fst (fst (process_payment request σ ρ))))).
  { eapply Forall_impl; [exact Hb|]. intros x Hx. apply Hx. }
  apply total_le_length in Hle.
  eapply Qle_trans; [exact Hle|].
  assert (Hlen : (inject_Z (Z.of_nat (length (delays (fst (fst (process_payment
                                                             request σ ρ))))))
                  <= inject_Z 3)%Q).
  { rewrite <- Zle_Qle. lia. }
  change (inject_Z 3) with 3%Q in Hlen. lra.
Qed.

(** X14. A payment that Stripe declined, or that ran out of retries, can
    be tried again: when [process_payment] raises [PaymentDeclinedError]
    or [PaymentServiceUnavailableError], the new transaction is stored as
    FAILED, without a charge id, and every request with the same effective
    idempotency key finds no completed or pending transaction under it in
    the state that is left. *)
Theorem failed_charge_can_be_retried
    (request : PaymentRequest.t) (σ σ' : store) (ρ : env)
    (trace : list (event charge exception)) (e : BaseAPIError) :
  process_payment request σ ρ = (trace, Raised (APIError e), σ') ->
  api_class_of e = PaymentDeclinedError_
  \/ api_class_of e = PaymentServiceUnavailableError_ ->
  (exists t,
     TransactionRepository.get_by_id σ' ("txn_" ++ transaction_id ρ)%string = Some t
     /\ Transaction.status t = FAILED
     /\ Transaction.stripe_charge_id t = None
     /\ Transaction.amount t = PaymentRequest.amount request)
  /\ forall request' ρ',
       idempotency_key_of ρ' request' = idempotency_key_of ρ request ->
       fresh σ' ρ' request'.
Proof.
  intros Hrun Hclass.
  destruct (process_payment_cases request σ ρ)
    as [(result & Hearly & _ & Hraised & _) | (user & _ & Hfresh & _ & Hsteps)].
  { rewrite Hearly in Hrun. injection Hrun as _ Hres _.
    destruct (Hraised e Hres) as [Hc | Hc]; rewrite Hc in Hclass;
      destruct Hclass; discriminate. }
  pose proof (charge_and_record_spec request (idempotency_key_of ρ request) user σ ρ)
    as Hspec.
  cbv zeta in Hspec. rewrite <- Hsteps, Hrun in Hspec. simpl in Hspec.
  destruct Hspec as (how & t & Hends & Hpay & Ht & Hi & _).
  assert (Hfailed : Transaction.status t = FAILED /\ Transaction.stripe_charge_id t = None).
  { destruct how; simpl in Hends.
    - destruct Hends as (Hd & _). discriminate.
    - destruct Hends as (_ & Hst & Hch). auto.
    - destruct Hends as (_ & Hst & Hch & _). auto. }
  destruct Hfailed as (Hst & Hch).
  destruct Hpay as (_ & _ & Ham & _). simpl in Ham.
  split.
  - exists t. unfold TransactionRepository.get_by_id.
    rewrite Ht. simpl. rewrite lookup_insert_eq. auto.
  - intros request' ρ' Hsame. unfold fresh in *. rewrite Hsame.
    unfold get_by_idempotency_key in *. rewrite Hi, Ht. unfold indexed. simpl.
    destruct (negb (String.eqb (idempotency_key_of ρ request) "")).
    + rewrite lookup_insert_eq, transaction_id_nonempty. simpl.
      rewrite lookup_insert_eq. rewrite Hst. split; discriminate.
    + destruct (_idempotency_index σ !! idempotency_key_of ρ request) as [tx_id|];
        [|exact I].
      destruct (negb (String.eqb tx_id "")); [|exact I].
      destruct (decide (("txn_" ++ transaction_id ρ)%string = tx_id)) as [<- | Hne].
      * rewrite lookup_insert_eq. rewrite Hst. split; discriminate.
      * rewrite lookup_insert_ne by exact Hne. exact Hfresh.
Qed.

Lemma failed_charge_can_be_retried_witness :
  fresh (snd (process_payment paid_request initial_store declining)) obliging paid_request.
Proof.
  apply (failed_charge_can_be_retried paid_request initial_store
           (snd (process_payment paid_request initial_store declining)) declining
           (fst (fst (process_payment paid_request initial_store declining)))
           (PaymentDeclinedError (Some "card_declined")
              "Your card was declined. Please try a different payment method.")).
  - reflexivity.
  - left. reflexivity.
  - reflexivity.
Defined.

(** X24. What the endpoint can answer, for every state and world and
    every request body whose entries have the types of [PaymentRequest]
    ([user_id] an int, the other entries strings, any of them absent) and
    whose amount is absent, a finite decimal, or no number: a [success] or
    [pending] payment with 200, or an error whose code and status are
    VALIDATION_ERROR 400, PAYMENT_DECLINED 402, DUPLICATE_PAYMENT 409,
    SERVICE_UNAVAILABLE 503 or INTERNAL_ERROR 500.  For such a body
    INTERNAL_ERROR is the answer exactly when the amount is no number
    (other bodies get it too, for instance one whose [user_id] is a list),
    and PARTIAL_FAILURE is never answered: with the repositories of the
    module neither [update] nor [update_balance] can raise. *)
Theorem endpoint_answers (request_body : request_body) (σ : store) (ρ : env) :
  let answer := fst (handle_post_payments request_body σ ρ) in
  match fst answer with
  | Payment status _ =>
      snd answer = 200%Z /\ (status = "success" \/ status = "pending")
  | Error code _ _ =>
      In (code, snd answer)
        [ ("VALIDATION_ERROR", 400%Z); ("PAYMENT_DECLINED", 402%Z);
          ("DUPLICATE_PAYMENT", 409%Z); ("SERVICE_UNAVAILABLE", 503%Z);
          ("INTERNAL_ERROR", 500%Z) ]
      /\ (code = "INTERNAL_ERROR" <-> body_amount request_body = Malformed)
  end.
Proof.
  cbv zeta. unfold handle_post_payments, attempt_payment, parse.
  assert (Hrun : forall request,
            body_amount request_body <> Malformed ->
            match fst (respond (snd (fst (process_payment request σ ρ)))) with
            | Payment status _ =>
                snd (respond (snd (fst (process_payment request σ ρ)))) = 200%Z
                /\ (status = "success" \/ status = "pending")
            | Error code _ _ =>
                In (code, snd (respond (snd (fst (process_payment request σ ρ)))))
                  [ ("VALIDATION_ERROR", 400%Z); ("PAYMENT_DECLINED", 402%Z);
                    ("DUPLICATE_PAYMENT", 409%Z); ("SERVICE_UNAVAILABLE", 503%Z);
                    ("INTERNAL_ERROR", 500%Z) ]
                /\ (code = "INTERNAL_ERROR" <-> body_amount request_body = Malformed)
            end).
  { intros request Hparsed.
    destruct (process_payment_cases request σ ρ)
      as [(result & Hearly & _ & _ & _ & Hreturned & Hraised)
         | (user & _ & _ & _ & Hsteps)].
    - rewrite Hearly. simpl. destruct result as [r|e].
      + destruct (Hreturned r eq_refl) as (d & ->). simpl. auto.
      + destruct (Hraised e eq_refl) as [(m & f & ->) | (id & ->)]; simpl;
          (split; [auto 6 | split; [discriminate | intros H; now destruct Hparsed]]).
    - rewrite Hsteps.
      pose proof (charge_and_record_spec request (idempotency_key_of ρ request) user σ ρ)
        as Hspec.
      cbv zeta in Hspec. destruct Hspec as (how & t & Hends & _).
      destruct how; simpl in Hends.
      + destruct Hends as (-> & _). simpl. auto.
      + destruct Hends as ((c & m & ->) & _). simpl.
        split; [auto 6 | split; [discriminate | intros H; now destruct Hparsed]].
      + destruct Hends as (-> & _). simpl.
        split; [auto 6 | split; [discriminate | intros H; now destruct Hparsed]]. }
  destruct (body_amount request_body) eqn:Hamount.
  - specialize (Hrun {| PaymentRequest.user_id := body_user_id request_body;
                        PaymentRequest.amount := 0;
                        PaymentRequest.currency := default "usd" (body_currency request_body);
                        PaymentRequest.description := body_description request_body;
                        PaymentRequest.idempotency_key :=
                          body_idempotency_key request_body |}).
    destruct (process_payment _ σ ρ) as [[trace tried] σ']. simpl in *.
    apply Hrun. discriminate.
  - simpl. split; [auto 6 | split; reflexivity].
  - specialize (Hrun {| PaymentRequest.user_id := body_user_id request_body;
                        PaymentRequest.amount := q;
                        PaymentRequest.currency := default "usd" (body_currency request_body);
                        PaymentRequest.description := body_description request_body;
                        PaymentRequest.idempotency_key :=
                          body_idempotency_key request_body |}).
    destruct (process_payment _ σ ρ) as [[trace tried] σ']. simpl in *.
    apply Hrun. discriminate.
Qed.

End PaymentServiceMoreProofs.

(* --------------------------------------------------------------------- *)
(** ** The metrics and the client of resilient_api_client.py              *)
(* --------------------------------------------------------------------- *)

Section MetricsProofs.
Import Metrics.

Lemma run_snoc (self : t) (ops : list op) (o : op) :
  run self (ops ++ [o]) = apply (run self ops) o.
Proof. unfold run. now rewrite fold_left_app. Qed.

Lemma entries_snoc (ops : list op) (o : op) :
  entries (ops ++ [o]) = entries ops ++ entries [o].
Proof. unfold entries. now rewrite flat_map_app. Qed.

Lemma entries_length_le (ops : list op) : length (entries ops) <= length ops.
Proof.
  induction ops as [|o ops IH]; simpl; [lia|].
  destruct o; simpl; lia.
Qed.

(** Appending to the last 1000 of [n] entries and cutting again gives the
    last 1000 of [n + 1]. *)
Lemma history_step (calls : list entry) (e : entry) :
  let history := drop (length calls - 1000) calls ++ [e] in
  (if (1000 <? length history)%nat then drop (length history - 1000) history else history)
  = drop (length (calls ++ [e]) - 1000) (calls ++ [e]).
Proof.
  cbv zeta. rewrite !length_app, length_drop. simpl length.
  destruct (Nat.ltb_spec 1000 (length calls - (length calls - 1000) + 1)) as [Hlt | Hle].
  - rewrite <- drop_app_le by lia. rewrite drop_drop. f_equal. lia.
  - rewrite <- drop_app_le by lia. f_equal. lia.
Qed.

(** Latencies add up as floats do: 0.1 and 0.2 give
    0.30000000000000004. *)
Example latency_sum :
  total_latency_ms
    (run new [Call true 0x1.999999999999ap-4 0 "t0"; Call true 0x1.999999999999ap-3 0 "t1"])
  = 0x1.3333333333334p-2%float.
Proof. reflexivity. Qed.

(** X15. After any sequence of [record_call] and [record_circuit_break]
    calls on a fresh [Metrics()]: [total_calls] is the number of calls
    recorded and equals [successful_calls + failed_calls];
    [successful_calls] counts the calls recorded with [success=True];
    [retries] is the sum of the arguments [retries]; [total_latency_ms] is
    the binary64 sum of the latencies, each added to the running total in
    the order of the calls, starting from [0.0] (so for the latencies 0.1
    and 0.2 it is 0.30000000000000004); [circuit_breaks] is the number of
    [record_circuit_break] calls; and [_call_history] holds the entries of
    the last 1000 calls, oldest first, so never more than 1000. *)
Theorem metrics_account (ops : list op) :
  let metrics := run new ops in
  let calls := entries ops in
  total_calls metrics = Z.of_nat (length calls)
  /\ successful_calls metrics = Z.of_nat (length (List.filter entry_success calls))
  /\ (successful_calls metrics + failed_calls metrics)%Z = total_calls metrics
  /\ retries metrics = fold_left Z.add (map entry_retries calls) 0%Z
  /\ total_latency_ms metrics
     = fold_left PrimFloat.add (map entry_latency_ms calls) 0%float
  /\ circuit_breaks metrics = Z.of_nat (length ops - length calls)
  /\ _call_history metrics = drop (length calls - 1000) calls
  /\ length (_call_history metrics) = Nat.min (length calls) 1000.
Proof.
  cbv zeta.
  induction ops as [|o ops IH] using rev_ind.
  - simpl. repeat split.
  - destruct IH as (Ht & Hs & Hf & Hr & Hl & Hb & Hh & _).
    pose proof (entries_length_le ops) as Hle.
    rewrite run_snoc, entries_snoc.
    destruct o as [success latency retries' timestamp|]; simpl entries.
    + rewrite !length_app, List.filter_app, !map_app, !fold_left_app, length_app.
      assert (Hhist : _call_history (apply (run new ops) (Call success latency retries' timestamp))
                      = drop (length (entries ops ++ [ {| entry_timestamp := timestamp;
                                                          entry_success := success;
                                                          entry_latency_ms := latency;
                                                          entry_retries := retries' |} ]) - 1000)
                          (entries ops ++ [ {| entry_timestamp := timestamp;
                                               entry_success := success;
                                               entry_latency_ms := latency;
                                               entry_retries := retries' |} ])).
      { simpl. rewrite Hh. apply history_step. }
      rewrite Hhist. rewrite length_drop, !length_app. simpl.
      rewrite Ht, Hr, Hl, Hb. destruct success; simpl; repeat split; try lia.
    + rewrite !app_nil_r, length_app. simpl.
      rewrite Hh, length_drop, Hb. repeat split; auto; lia.
Qed.

End MetricsProofs.

Section ApiClientProofs.
Import Python Backoff Traces ApiClient.

Lemma draw_accepted (k : nat) (r : Q) :
  (0 <= r)%Q ->
  sleep_accepts (Qmin (1 * pow 2 k) 60 * ((3 # 4) + r * (1 # 2))) = true.
Proof.
  intros Hr. unfold sleep_accepts. apply Qle_bool_iff.
  apply (jittered_nonneg (capped 1 60 2 k) r); [|exact Hr].
  apply capped_nonneg; lra.
Qed.

(** The decorated [_make_request] returns the mock's response after at
    most four attempts, or raises [MaxRetriesExceededError] after four; it
    records one call either way. *)
Lemma make_request_cases (self : ResilientAPIClient) (method endpoint : string)
    (ρ : world) (metrics : Metrics.t) :
  (forall k, (0 <= jitter_draw ρ k)%Q) ->
  let run := _make_request self method endpoint ρ metrics in
  let trace := fst (fst run) in
  let metrics' := snd run in
  Metrics.total_calls metrics' = (Metrics.total_calls metrics + 1)%Z
  /\ Metrics.circuit_breaks metrics' = Metrics.circuit_breaks metrics
  /\ length (delays trace) + 1 = length (invocations trace)
  /\ ((snd (fst run)
       = Returned {| status := "ok"; url := base_url self ++ endpoint; method := method |}
       /\ 1 <= length (invocations trace) <= 4
       /\ Metrics.successful_calls metrics' = (Metrics.successful_calls metrics + 1)%Z
       /\ Metrics.failed_calls metrics' = Metrics.failed_calls metrics)
      \/ (exists message e,
            snd (fst run)
            = Raised (ResilientApiClient.MaxRetriesExceededError message (Some e))
            /\ ResilientApiClient.default_retryable_exceptions e = true
            /\ length (invocations trace) = 4
            /\ Metrics.successful_calls metrics' = Metrics.successful_calls metrics
            /\ Metrics.failed_calls metrics' = (Metrics.failed_calls metrics + 1)%Z)).
Proof.
  intros Hj. cbv zeta. unfold _make_request, ResilientApiClient.retry_with_backoff.
  change (range (3 + 1)) with [0; 1; 2; 3].
  cbn [ResilientApiClient.wrapper_loop].
  rewrite (draw_accepted 0 _ (Hj 0)), (draw_accepted 1 _ (Hj 1)),
    (draw_accepted 2 _ (Hj 2)).
  unfold _make_request_body.
  repeat match goal with
         | |- context [lt ?x ?c] => destruct (lt x c)
         end;
    simpl;
    (split; [reflexivity | split; [reflexivity | split; [reflexivity |]]]);
    first [ left; repeat split; lia
          | right; do 2 eexists; repeat split ].
Qed.

(** The decorated function writes no circuit break, whatever the draws. *)
Lemma record_circuit_breaks {A E : Type} (metrics : Metrics.t) (ρ : world)
    (trace : list (event A E)) :
  Metrics.circuit_breaks (record metrics ρ trace) = Metrics.circuit_breaks metrics.
Proof.
  unfold record. revert metrics.
  induction trace as [|ev trace IH]; intros metrics; simpl; [reflexivity|].
  rewrite IH. destruct ev as [o|d|[] r]; reflexivity.
Qed.

(** The breaker and the result of [call] are those of the model without
    the metrics. *)
Lemma call_agrees {A E Ev : Type} (cb : ResilientApiClient.CircuitBreaker)
    (metrics : Metrics.t) (now_state now_failure : Q)
    (func : Metrics.t -> list Ev * outcome A E * Metrics.t) :
  let run := call cb metrics now_state func now_failure in
  (snd (fst run), fst (snd run))
  = ResilientApiClient.call cb
      {| ResilientApiClient.now_state := now_state;
         ResilientApiClient.func_result := snd (fst (func metrics));
         ResilientApiClient.now_failure := now_failure |}.
Proof.
  cbv zeta. unfold call, ResilientApiClient.call, ResilientApiClient.invoke.
  cbn [ResilientApiClient.now_state ResilientApiClient.func_result
       ResilientApiClient.now_failure].
  destruct (ResilientApiClient.state cb now_state) as [current cb1]. simpl.
  destruct (func metrics) as [[trace result] metrics']. simpl.
  unfold _on_failure, ResilientApiClient._on_failure.
  destruct current; simpl; try reflexivity.
  - destruct result; simpl; [reflexivity|].
    match goal with |- context [(?a <=? ?b)%Z] => destruct (a <=? b)%Z end; reflexivity.
  - match goal with |- context [(?a <=? ?b)%Z] => destruct (a <=? b)%Z end;
      [reflexivity|].
    destruct result; simpl; [reflexivity|].
    match goal with |- context [(?a <=? ?b)%Z] => destruct (a <=? b)%Z end; reflexivity.
Qed.

(** X16. With jitter draws that are not negative, as [random.random()]
    gives them, [ResilientAPIClient.request] ends in one of three ways and
    no other.  It returns the mock's response for the stripped base url,
    after one to four attempts, with the breaker closed and its failure
    count at 0.  Or the breaker rejects it with [CircuitOpenError]: then no
    attempt was made, nothing was recorded as a call, and the failure count
    did not move.  Or the decorated [_make_request] ran out of retries and
    [MaxRetriesExceededError] passes through the breaker: then four
    attempts and three sleeps were made, and the breaker counted them as
    one failure.  Every request that reached the service is recorded as one
    call.  A transient error never leaves [request] as it is. *)
Theorem request_contract (self : ResilientAPIClient) (metrics : Metrics.t)
    (method endpoint : string) (ρ : world) :
  (forall k, (0 <= jitter_draw ρ k)%Q) ->
  let run := request self metrics method endpoint ρ in
  let trace := fst (fst run) in
  let cb := circuit_breaker self in
  let cb' := circuit_breaker (fst (snd run)) in
  let metrics' := snd (snd run) in
  match snd (fst run) with
  | Returned r =>
      r = {| status := "ok"; url := base_url self ++ endpoint; method := method |}
      /\ 1 <= length (invocations trace) <= 4
      /\ ResilientApiClient._failures cb' = 0%Z
      /\ ResilientApiClient._state cb' = ResilientApiClient.CLOSED
      /\ Metrics.total_calls metrics' = (Metrics.total_calls metrics + 1)%Z
      /\ Metrics.successful_calls metrics' = (Metrics.successful_calls metrics + 1)%Z
  | Raised (ResilientApiClient.CircuitOpenError why) =>
      trace = []
      /\ ResilientApiClient._failures cb' = ResilientApiClient._failures cb
      /\ Metrics.total_calls metrics' = Metrics.total_calls metrics
  | Raised (ResilientApiClient.Propagated
              (ResilientApiClient.MaxRetriesExceededError message cause)) =>
      length (invocations trace) = 4
      /\ length (delays trace) = 3
      /\ ResilientApiClient._failures cb' = (ResilientApiClient._failures cb + 1)%Z
      /\ Metrics.total_calls metrics' = (Metrics.total_calls metrics + 1)%Z
      /\ Metrics.failed_calls metrics' = (Metrics.failed_calls metrics + 1)%Z
  | Raised _ => False
  end.
Proof.
  intros Hj. cbv zeta.
  pose proof (make_request_cases self method endpoint ρ metrics Hj) as Hcases.
  cbv zeta in Hcases.
  unfold request, call.
  destruct (_make_request self method endpoint ρ metrics) as [[trace result] metrics'].
  simpl in Hcases.
  destruct self as [url0 to [th rt mx f st lft hc]].
  unfold ResilientApiClient.state, _on_failure; simpl.
  destruct Hcases
    as (Ht & Hb & Hd & [(-> & Hn & Hs & Hf) | (msg & e & -> & He & Hn & Hs & Hf)]).
  - destruct st; simpl.
    + repeat split; auto; lia.
    + destruct lft as [last|]; simpl; [|repeat split; auto].
      destruct (Qle_bool rt (clock_state ρ - last)); simpl; [|repeat split; auto].
      destruct (mx <=? 0)%Z; simpl; repeat split; auto; lia.
    + destruct (mx <=? hc)%Z; simpl; repeat split; auto; lia.
  - destruct st; simpl.
    + destruct (th <=? f + 1)%Z; simpl; repeat split; auto; lia.
    + destruct lft as [last|]; simpl; [|repeat split; auto].
      destruct (Qle_bool rt (clock_state ρ - last)); simpl; [|repeat split; auto].
      destruct (mx <=? 0)%Z; simpl; [repeat split; auto|].
      destruct (th <=? f + 1)%Z; simpl; repeat split; auto; lia.
    + destruct (mx <=? hc)%Z; simpl; [repeat split; auto|].
      destruct (th <=? f + 1)%Z; simpl; repeat split; auto; lia.
Qed.

Lemma request_contract_witness :
  let run :=
    request (init "https://api.example.com/" 30 None) Metrics.new "GET" "/users/1" outage in
  length (invocations (fst (fst run))) = 4
  /\ ResilientApiClient._failures (circuit_breaker (fst (snd run))) = 1%Z.
Proof.
  cbv zeta.
  pose proof (request_contract (init "https://api.example.com/" 30 None) Metrics.new
                "GET" "/users/1" outage) as Hcontract.
  cbv zeta in Hcontract.
  assert (Hres : snd (fst (request (init "https://api.example.com/" 30 None) Metrics.new
                             "GET" "/users/1" outage))
                 = Raised (ResilientApiClient.Propagated
                             (ResilientApiClient.MaxRetriesExceededError
                                "Failed after 3 retries: Service temporarily unavailable"
                                (Some (ResilientApiClient.ServiceUnavailableError
                                         "Service temporarily unavailable")))))
    by reflexivity.
  rewrite Hres in Hcontract.
  destruct Hcontract as (Hn & _ & Hf & _).
  - intros k. unfold outage, Qle. simpl. lia.
  - split; [exact Hn | exact Hf].
Defined.

(** X17. [metrics.circuit_breaks] grows by one when a request is
    rejected because the circuit is OPEN, and by one when a request fails
    and leaves the circuit OPEN; it does not move when the request returns,
    when it is rejected for the limit of half-open calls, or when it fails
    below the threshold.  So the counter counts rejected calls as well as
    openings of the circuit. *)
Theorem circuit_breaks_counted (self : ResilientAPIClient) (metrics : Metrics.t)
    (method endpoint : string) (ρ : world) :
  let run := request self metrics method endpoint ρ in
  let cb' := circuit_breaker (fst (snd run)) in
  Metrics.circuit_breaks (snd (snd run))
  = (Metrics.circuit_breaks metrics
     + match snd (fst run) with
       | Raised (ResilientApiClient.CircuitOpenError (ResilientApiClient.CircuitIsOpen _ _)) =>
           1
       | Raised (ResilientApiClient.Propagated _) =>
           match ResilientApiClient._state cb' with
           | ResilientApiClient.OPEN => 1
           | _ => 0
           end
       | _ => 0
       end)%Z.
Proof.
  cbv zeta. unfold request, call, _make_request.
  destruct (ResilientApiClient.retry_with_backoff _ _ _ _ _ _ _ _) as [trace result].
  pose proof (record_circuit_breaks metrics ρ trace) as Hrec.
  destruct self as [url0 to [th rt mx f st lft hc]].
  unfold ResilientApiClient.state, _on_failure; simpl.
  destruct st; simpl.
  - destruct result; simpl; [lia|].
    destruct (th <=? f + 1)%Z; simpl; lia.
  - destruct lft as [last|]; simpl; [|lia].
    destruct (Qle_bool rt (clock_state ρ - last)); simpl; [|lia].
    destruct (mx <=? 0)%Z; simpl; [lia|].
    destruct result; simpl; [lia|].
    destruct (th <=? f + 1)%Z; simpl; lia.
  - destruct (mx <=? hc)%Z; simpl; [lia|].
    destruct result; simpl; [lia|].
    destruct (th <=? f + 1)%Z; simpl; lia.
Qed.

End ApiClientProofs.

(* --------------------------------------------------------------------- *)
(** ** user_service.py                                                    *)
(* --------------------------------------------------------------------- *)

Section UserServiceProofs.
Import Python UserService.

(** X18. How [get_user] ends tells what it was given, for every content
    of the database.  It returns a user only for an [int] or [bool] of
    value at least 1 that is a key of the database; the user has the four
    fields of the stored row and an email that is not empty and contains
    ["@"].  It returns [None] only without [raise_on_missing], and raises
    [UserNotFoundError] only with it, for a value of at least 1 that is no
    key.  It raises [TypeError] only for an object that is neither [int]
    nor [bool], and [ValueError] only for a value below 1 or for a stored
    row whose email is empty or lacks ["@"].  So [True] is accepted as the
    id 1, and [False] is rejected as not positive. *)
Theorem get_user_contract (database : MockDatabase) (utcnow : Z)
    (user_id : object) (raise_on_missing : bool) :
  match get_user database utcnow user_id raise_on_missing with
  | Returned (Some user) =>
      exists i stored,
        user_id = Integer i /\ (1 <= value i)%Z
        /\ _users database !! value i = Some stored
        /\ user = {| id := row_id stored; name := row_name stored;
                     email := row_email stored; is_active := row_is_active stored;
                     created_at := utcnow |}
        /\ email user <> "" /\ contains_at (email user) = true
  | Returned None =>
      raise_on_missing = false
      /\ exists i,
           user_id = Integer i /\ (1 <= value i)%Z /\ _users database !! value i = None
  | Raised (TypeError _) => exists type_name, user_id = Other type_name
  | Raised (ValueError _) =>
      exists i,
        user_id = Integer i
        /\ ((value i < 1)%Z
            \/ exists stored,
                 _users database !! value i = Some stored
                 /\ (row_email stored = "" \/ contains_at (row_email stored) = false))
  | Raised (UserNotFoundError _) =>
      raise_on_missing = true
      /\ exists i,
           user_id = Integer i /\ (1 <= value i)%Z /\ _users database !! value i = None
  end.
Proof.
  unfold get_user. destruct user_id as [i | type_name]; [|eauto].
  destruct (Z.ltb_spec (value i) 1) as [Hlt | Hge]; [eauto|].
  unfold query.
  destruct (_users database !! value i) as [stored|] eqn:Hlook.
  - unfold User_init.
    destruct (String.eqb (row_email stored) "") eqn:Hempty; simpl.
    + apply String.eqb_eq in Hempty. eauto 8.
    + apply String.eqb_neq in Hempty.
      destruct (contains_at (row_email stored)) eqn:Hat; simpl; eauto 10.
  - destruct raise_on_missing; eauto.
Qed.

End UserServiceProofs.

(* --------------------------------------------------------------------- *)
(** ** The handlers of payment_handlers.py                                *)
(* --------------------------------------------------------------------- *)

Section PaymentHandlersMoreProofs.
Import Python Backoff PaymentHandlers PaymentHandlersMore.

Lemma same_counts_refl (m : PaymentMetrics) : same_counts m m.
Proof. unfold same_counts. repeat split. Qed.

Lemma same_counts_trans (m1 m2 m3 : PaymentMetrics) :
  same_counts m1 m2 -> same_counts m2 m3 -> same_counts m1 m3.
Proof. unfold same_counts. intuition congruence. Qed.

Lemma same_counts_break (m : PaymentMetrics) (service : string) :
  same_counts m (record_circuit_break m service).
Proof. unfold same_counts. repeat split. Qed.

Lemma quiet_refl (s : state) : quiet s s.
Proof. split; [reflexivity | apply same_counts_refl]. Qed.

Lemma quiet_trans (s1 s2 s3 : state) : quiet s1 s2 -> quiet s2 s3 -> quiet s1 s3.
Proof.
  intros [Hd1 Hm1] [Hd2 Hm2]. split; [congruence|].
  eapply same_counts_trans; eassumption.
Qed.

Lemma jitter_accepted (base_delay : Q) (k : nat) (r : Q) :
  (0 <= base_delay)%Q -> (0 <= r)%Q ->
  sleep_accepts (Qmin (base_delay * pow 2 k) 60 * ((3 # 4) + r * (1 # 2))) = true.
Proof.
  intros Hb Hr. unfold sleep_accepts. apply Qle_bool_iff.
  apply (jittered_nonneg (capped base_delay 60 2 k) r); [|exact Hr].
  apply capped_nonneg; lra.
Qed.

(** A property of the state that holds before every attempt, and a
    property of the way an attempt may end the loop, give a property of
    the way the decorated call ends. *)
Lemma wrapper_loop_post {A : Type} (P : state -> Prop)
    (Post : outcome A exception -> state -> Prop)
    (max_retries : Z) (base_delay : Q)
    (func : nat -> state -> outcome A exception * state) (random : nat -> Q) :
  (0 <= base_delay)%Q -> (forall k, (0 <= random k)%Q) ->
  (forall k s, P s ->
     match func k s with
     | (Returned v, s') => Post (Returned v) s'
     | (Raised (Transient e), s') =>
         P s' /\ forall message, Post (Raised (MaxRetriesExceededError message (Some e))) s'
     | (Raised e, s') => Post (Raised e) s'
     end) ->
  forall n a last s,
    (Z.of_nat a + Z.of_nat n = max_retries + 1)%Z -> 1 <= n -> P s ->
    Post (snd (fst (wrapper_loop max_retries base_delay 60 2 true func random
                      (seq a n) last s)))
         (snd (wrapper_loop max_retries base_delay 60 2 true func random (seq a n) last s)).
Proof.
  intros Hb Hr Hstep. induction n as [|n IH]; intros a last s Han Hn HP; [lia|].
  simpl. specialize (Hstep a s HP).
  destruct (func a s) as [[v|e] s1]; simpl; [exact Hstep|].
  destruct e as [e| | | | |]; simpl; try exact Hstep.
  destruct Hstep as [HP1 Hmax].
  destruct (Z.eqb_spec (Z.of_nat a) max_retries) as [Ha | Ha]; simpl; [apply Hmax|].
  rewrite (jitter_accepted base_delay a (random a) Hb (Hr a)).
  specialize (IH (S a) (Some e) s1).
  destruct (wrapper_loop max_retries base_delay 60 2 true func random (seq (S a) n)
              (Some e) s1) as [[trace result] s2].
  simpl in *. apply IH; [lia | lia | exact HP1].
Qed.

(** The [state] property of a breaker that is CLOSED. *)
Lemma state_closed (cb : CircuitBreaker) (now : Q) :
  _state cb = CLOSED -> PaymentHandlers.state cb now = (CLOSED, cb).
Proof.
  intros Hc. unfold PaymentHandlers.state. rewrite Hc. reflexivity.
Qed.

(** One call through a breaker, of a function that reads and writes
    nothing but the database. *)
Lemma call_spec {A : Type} (c : circuit) (t : tick)
    (func : state -> outcome A exception * state) (s : state) :
  (forall s1, db_circuit (snd (func s1)) = db_circuit s1
              /\ payment_circuit (snd (func s1)) = payment_circuit s1
              /\ metrics (snd (func s1)) = metrics s1) ->
  (forall s1 s2, db s1 = db s2 ->
     fst (func s1) = fst (func s2) /\ db (snd (func s1)) = db (snd (func s2))) ->
  let run := call c t func s in
  same_counts (metrics s) (metrics (snd run))
  /\ (forall c', c' <> c -> get c' (snd run) = get c' s)
  /\ (((exists message, fst run = Raised (CircuitOpenError message))
       /\ db (snd run) = db s)
      \/ (fst run = fst (func s) /\ db (snd run) = db (snd (func s))
          /\ forall v, fst run = Returned v -> _state (get c (snd run)) = CLOSED))
  /\ (_state (get c s) = CLOSED ->
      fst run = fst (func s) /\ db (snd run) = db (snd (func s))).
Proof.
  intros Hframe Hreads. cbv zeta. unfold call.
  destruct (PaymentHandlers.state (get c s) (clock_state t)) as [current cb] eqn:Hstate.
  assert (Hclosed : _state (get c s) = CLOSED -> current = CLOSED).
  { intros Hc. rewrite (state_closed _ _ Hc) in Hstate. now injection Hstate as <- _. }
  assert (Hinvoke :
    forall s1, db s1 = db s -> metrics s1 = metrics s ->
      (forall c', c' <> c -> get c' s1 = get c' s) ->
      let run := match func s1 with
                 | (Returned result, s2) => (Returned result, set c s2 (_on_success (get c s2)))
                 | (Raised e, s2) => (Raised e, _on_failure c (clock_failure t) s2)
                 end in
      same_counts (metrics s) (metrics (snd run))
      /\ (forall c', c' <> c -> get c' (snd run) = get c' s)
      /\ fst run = fst (func s) /\ db (snd run) = db (snd (func s))
      /\ forall v, fst run = Returned v -> _state (get c (snd run)) = CLOSED).
  { intros s1 Hdb Hm Hother. cbv zeta.
    destruct (Hreads s1 s Hdb) as [Hfst Hsnd].
    destruct (Hframe s1) as (Hf1 & Hf2 & Hf3).
    destruct (func s1) as [[v|e] s2]; simpl in *.
    - rewrite <- Hfst. split; [|split; [|split; [|split]]].
      + destruct c; simpl; rewrite Hf3, Hm; apply same_counts_refl.
      + intros c' Hc'. rewrite <- (Hother c' Hc').
        destruct c, c'; simpl; congruence.
      + reflexivity.
      + destruct c; simpl; exact Hsnd.
      + intros _ _. destruct c; reflexivity.
    - rewrite <- Hfst. unfold _on_failure.
      destruct (failure_threshold _ <=? _)%Z; (split; [|split; [|split; [|split]]]).
      + destruct c; simpl; rewrite Hf3, Hm; apply same_counts_break.
      + intros c' Hc'. rewrite <- (Hother c' Hc').
        destruct c, c'; simpl; congruence.
      + reflexivity.
      + destruct c; simpl; exact Hsnd.
      + discriminate.
      + destruct c; simpl; rewrite Hf3, Hm; apply same_counts_refl.
      + intros c' Hc'. rewrite <- (Hother c' Hc').
        destruct c, c'; simpl; congruence.
      + reflexivity.
      + destruct c; simpl; exact Hsnd.
      + discriminate. }
  assert (Hset : forall cb', db (set c s cb') = db s /\ metrics (set c s cb') = metrics s
                             /\ forall c', c' <> c -> get c' (set c s cb') = get c' s).
  { intros cb'. destruct c; simpl; (split; [|split]); try reflexivity;
      intros [] Hc'; simpl; congruence. }
  destruct current.
  - destruct (Hset cb) as (H1 & H2 & H3).
    destruct (Hinvoke (set c s cb) H1 H2 H3) as (Ha & Hb & Hc & Hd & He).
    split; [exact Ha | split; [exact Hb | split; [right; auto | auto]]].
  - split; [|split; [|split]].
    + destruct c; simpl; apply same_counts_break.
    + intros c' Hc'. destruct c, c'; simpl; congruence.
    + left. split; [eauto|]. destruct c; reflexivity.
    + intros Hc. specialize (Hclosed Hc). discriminate.
  - assert (Hset2 : forall cb' cb'',
               db (set c (set c s cb') cb'') = db s
               /\ metrics (set c (set c s cb') cb'') = metrics s
               /\ forall c', c' <> c -> get c' (set c (set c s cb') cb'') = get c' s).
    { intros cb' cb''. destruct c; simpl; (split; [|split]); try reflexivity;
        intros [] Hc'; simpl; congruence. }
    destruct (Hset2 cb (set_half_open_calls cb (_half_open_calls cb + 1))) as (H1 & H2 & H3).
    destruct (Hinvoke _ H1 H2 H3) as (Ha & Hb & Hc & Hd & He).
    split; [exact Ha | split; [exact Hb | split; [right; auto | auto]]].
Qed.

(** The breaker after [call] is the one [PaymentHandlers.call] computes
    from how the function ends, for a function that leaves the breaker
    alone and reads nothing but the database. *)
Lemma call_breaker_agrees {A : Type} (c : circuit) (t : tick)
    (func : state -> outcome A exception * state) (s : state) :
  (forall s1, get c (snd (func s1)) = get c s1) ->
  (forall s1 s2, db s1 = db s2 -> fst (func s1) = fst (func s2)) ->
  get c (snd (call c t func s))
  = snd (PaymentHandlers.call (get c s)
           {| PaymentHandlers.now_state := clock_state t;
              PaymentHandlers.func_result := fst (func s);
              PaymentHandlers.now_failure := clock_failure t |}).
Proof.
  intros Hframe Hreads.
  unfold call, PaymentHandlers.call, PaymentHandlers.invoke.
  cbn [PaymentHandlers.now_state PaymentHandlers.func_result PaymentHandlers.now_failure].
  destruct (PaymentHandlers.state (get c s) (clock_state t)) as [current cb].
  assert (Hinvoke :
    forall s1 cb1, db s1 = db s -> get c s1 = cb1 ->
      get c (snd match func s1 with
                 | (Returned result, s2) => (Returned result, set c s2 (_on_success (get c s2)))
                 | (Raised e, s2) => (Raised e, _on_failure c (clock_failure t) s2)
                 end)
      = snd match fst (func s) with
            | Returned result =>
                (Returned (E := PaymentHandlers.error exception) result, _on_success cb1)
            | Raised e =>
                (Raised (PaymentHandlers.Propagated e),
                 PaymentHandlers._on_failure cb1 (clock_failure t))
            end).
  { intros s1 cb1 Hdb Hcb. rewrite <- (Hreads s1 s Hdb).
    specialize (Hframe s1). rewrite Hcb in Hframe.
    destruct (func s1) as [[v|e] s2]; simpl in *.
    - rewrite Hframe. destruct c; reflexivity.
    - unfold _on_failure, PaymentHandlers._on_failure. rewrite Hframe.
      destruct (failure_threshold _ <=? _)%Z; destruct c; reflexivity. }
  destruct current.
  - apply Hinvoke; destruct c; reflexivity.
  - destruct c; reflexivity.
  - apply Hinvoke; destruct c; reflexivity.
Qed.

Lemma range_3 : range (3 + 1) = seq 0 4.
Proof. reflexivity. Qed.

(** [_write_audit_log] ends at its first attempt. *)
Lemma write_audit_log_spec (entry0 : audit_entry) (w : ticks) (s : state) :
  let run := _write_audit_log entry0 w s in
  let s' := snd run in
  same_counts (metrics s) (metrics s')
  /\ payment_circuit s' = payment_circuit s
  /\ _balances (db s') = _balances (db s)
  /\ length (invocations (fst (fst run))) = 1
  /\ delays (fst (fst run)) = []
  /\ match snd (fst run) with
     | Returned _ =>
         _audit_log (db s') = _audit_log (db s) ++ [set_timestamp entry0 (utcnow (w 0))]
         /\ _state (db_circuit s') = CLOSED
     | Raised e =>
         _audit_log (db s') = _audit_log (db s)
         /\ exists message, e = CircuitOpenError message
     end
  /\ (_state (db_circuit s) = CLOSED -> snd (fst run) = Returned tt).
Proof.
  cbv zeta. unfold _write_audit_log, retry_with_backoff.
  change (range (2 + 1)) with [0; 1; 2]. cbn [wrapper_loop].
  pose proof (call_spec Database (w 0)
                (fun s => (Returned tt, set_db s (add_audit_log (db s) entry0 (w 0)))) s)
    as Hcall.
  cbv zeta in Hcall.
  destruct Hcall as (Hm & Hother & Hcases & Hclosed).
  { intros s1. simpl. auto. }
  { intros s1 s2 Hdb. simpl. now rewrite Hdb. }
  specialize (Hother PaymentService). simpl in Hother, Hclosed.
  destruct (call Database (w 0) _ s) as [[v|e] s1]; simpl in *.
  - destruct Hcases as [[(message & Hmsg) _] | (_ & Hdb & Hst)]; [discriminate|].
    rewrite Hdb. simpl.
    split; [exact Hm|]. split; [apply Hother; discriminate|].
    split; [reflexivity|]. split; [reflexivity|]. split; [reflexivity|].
    split; [split; [reflexivity | now apply (Hst v)]|].
    intros Hc. destruct v. reflexivity.
  - destruct Hcases as [[(message & Hmsg) Hdb] | (Hfst & _)]; [|discriminate].
    injection Hmsg as ->. simpl. rewrite Hdb.
    split; [exact Hm|]. split; [apply Hother; discriminate|].
    split; [reflexivity|]. split; [reflexivity|]. split; [reflexivity|].
    split; [split; [reflexivity | eauto]|].
    intros Hc. destruct (Hclosed Hc) as [Hfst _]. discriminate.
Qed.

(** What [do_update] does to the database. *)
Lemma do_update_spec (user_id : option Z) (amount : Q) (operation : string) (t : tick)
    (s : state) :
  let run := do_update user_id amount operation t s in
  db_circuit (snd run) = db_circuit s
  /\ payment_circuit (snd run) = payment_circuit s
  /\ metrics (snd run) = metrics s
  /\ _audit_log (db (snd run)) = _audit_log (db s)
  /\ match fst run with
     | Returned new_balance =>
         _balances (db (snd run)) = <[user_id := new_balance]> (_balances (db s))
         /\ ((operation = "credit" /\ new_balance = (Decimal.add (balance s user_id) amount))
             \/ (operation = "debit"
                 /\ new_balance = (Decimal.sub (balance s user_id) amount)
                 /\ ~ (new_balance < 0)%Q))
     | Raised e =>
         db (snd run) = db s
         /\ match e with
            | Transient _ => True
            | BalanceUpdateError current amount' =>
                operation = "debit" /\ current = balance s user_id /\ amount' = amount
                /\ (Decimal.sub current amount < 0)%Q
            | ValueError message =>
                operation <> "credit" /\ operation <> "debit"
                /\ message = ("Unknown operation: " ++ operation)%string
            | _ => False
            end
     end.
Proof.
  cbv zeta. unfold do_update, get_balance, update_balance, balance.
  destruct (lt (draw t) (1 # 10)); simpl; [repeat split|].
  destruct (String.eqb_spec operation "credit") as [-> | Hcredit].
  { destruct (lt (second_draw t) (1 # 10)); simpl; repeat split; auto. }
  destruct (String.eqb_spec operation "debit") as [-> | Hdebit].
  { destruct (lt (Decimal.sub (default 0%Q (_balances (db s) !! user_id)) amount) 0) eqn:Hneg; simpl.
    - repeat split; auto.
      unfold lt in Hneg. apply negb_true_iff in Hneg.
      apply Qnot_le_lt. intros Hle. apply Qle_bool_iff in Hle. congruence.
    - assert (Hnot : ~ (Decimal.sub (default 0%Q (_balances (db s) !! user_id)) amount < 0)%Q).
      { unfold lt in Hneg. apply negb_false_iff in Hneg. apply Qle_bool_iff in Hneg.
        now apply Qle_not_lt. }
      destruct (lt (second_draw t) (1 # 10)); simpl; repeat split; auto. }
  simpl. repeat split; auto.
Qed.

Lemma do_update_reads_db (user_id : option Z) (amount : Q) (operation : string) (t : tick)
    (s1 s2 : state) :
  db s1 = db s2 ->
  fst (do_update user_id amount operation t s1) = fst (do_update user_id amount operation t s2)
  /\ db (snd (do_update user_id amount operation t s1))
     = db (snd (do_update user_id amount operation t s2)).
Proof.
  intros Hdb. unfold do_update, get_balance, update_balance. rewrite Hdb.
  destruct (lt (draw t) (1 # 10)); simpl; [auto|].
  destruct (String.eqb operation "credit").
  { destruct (lt (second_draw t) (1 # 10)); simpl; auto. }
  destruct (String.eqb operation "debit"); [|simpl; auto].
  destruct (lt _ 0); simpl; [auto|].
  destruct (lt (second_draw t) (1 # 10)); simpl; auto.
Qed.

(** [_update_user_balance] writes the balance once, when it returns, and
    not at all when it raises. *)
Lemma update_user_balance_spec (user_id : option Z) (amount : Q) (operation : string)
    (w : ticks) (s : state) :
  drawn w ->
  let run := _update_user_balance user_id amount operation w s in
  let s' := snd run in
  same_counts (metrics s) (metrics s')
  /\ payment_circuit s' = payment_circuit s
  /\ _audit_log (db s') = _audit_log (db s)
  /\ match snd (fst run) with
     | Returned new_balance =>
         _balances (db s') = <[user_id := new_balance]> (_balances (db s))
         /\ _state (db_circuit s') = CLOSED
         /\ ((operation = "credit" /\ new_balance = (Decimal.add (balance s user_id) amount))
             \/ (operation = "debit"
                 /\ new_balance = (Decimal.sub (balance s user_id) amount)
                 /\ ~ (new_balance < 0)%Q))
     | Raised e =>
         _balances (db s') = _balances (db s)
         /\ match e with
            | CircuitOpenError _ | MaxRetriesExceededError _ _ => True
            | BalanceUpdateError current amount' =>
                operation = "debit" /\ current = balance s user_id /\ amount' = amount
                /\ (Decimal.sub current amount < 0)%Q
            | ValueError message =>
                operation <> "credit" /\ operation <> "debit"
                /\ message = ("Unknown operation: " ++ operation)%string
            | _ => False
            end
     end.
Proof.
  intros Hw. cbv zeta. unfold _update_user_balance, retry_with_backoff. rewrite range_3.
  apply (wrapper_loop_post
           (fun s1 => quiet s s1 /\ payment_circuit s1 = payment_circuit s)
           (fun r s' =>
              same_counts (metrics s) (metrics s')
              /\ payment_circuit s' = payment_circuit s
              /\ _audit_log (db s') = _audit_log (db s)
              /\ match r with
                 | Returned new_balance =>
                     _balances (db s') = <[user_id := new_balance]> (_balances (db s))
                     /\ _state (db_circuit s') = CLOSED
                     /\ ((operation = "credit"
                          /\ new_balance = (Decimal.add (balance s user_id) amount))
                         \/ (operation = "debit"
                             /\ new_balance = (Decimal.sub (balance s user_id) amount)
                             /\ ~ (new_balance < 0)%Q))
                 | Raised e =>
                     _balances (db s') = _balances (db s)
                     /\ match e with
                        | CircuitOpenError _ | MaxRetriesExceededError _ _ => True
                        | BalanceUpdateError current amount' =>
                            operation = "debit" /\ current = balance s user_id
                            /\ amount' = amount /\ (Decimal.sub current amount < 0)%Q
                        | ValueError message =>
                            operation <> "credit" /\ operation <> "debit"
                            /\ message = ("Unknown operation: " ++ operation)%string
                        | _ => False
                        end
                 end));
    [lra | exact Hw | | lia | lia | split; [apply quiet_refl | reflexivity]].
  intros k s1 [[Hdb Hcounts] Hpay].
  pose proof (call_spec Database (w k) (do_update user_id amount operation (w k)) s1)
    as Hcall.
  cbv zeta in Hcall.
  destruct Hcall as (Hm & Hother & Hcases & _).
  { intros s0. destruct (do_update_spec user_id amount operation (w k) s0)
      as (H1 & H2 & H3 & _). auto. }
  { intros s0 s2. apply do_update_reads_db. }
  specialize (Hother PaymentService). simpl in Hother.
  assert (Hm' : same_counts (metrics s)
                  (metrics (snd (call Database (w k)
                                   (do_update user_id amount operation (w k)) s1))))
    by (eapply same_counts_trans; eassumption).
  assert (Hpay' : payment_circuit (snd (call Database (w k)
                                          (do_update user_id amount operation (w k)) s1))
                  = payment_circuit s)
    by (rewrite Hother by discriminate; exact Hpay).
  pose proof (do_update_spec user_id amount operation (w k) s1) as Hupd.
  cbv zeta in Hupd. destruct Hupd as (_ & _ & _ & Hlog & Hupd).
  assert (Hbal : balance s1 user_id = balance s user_id) by (unfold balance; now rewrite Hdb).
  rewrite Hbal in Hupd.
  destruct (call Database (w k) (do_update user_id amount operation (w k)) s1)
    as [r s2]. simpl in *.
  destruct Hcases as [[(message & ->) Hsame] | (-> & Hdb2 & Hclosed)].
  - rewrite Hsame, Hdb. auto.
  - rewrite Hdb2, Hlog. rewrite Hdb in *.
    destruct (fst (do_update user_id amount operation (w k) s1)) as [nb|e].
    + destruct Hupd as (Hb & Hop). rewrite Hb.
      split; [exact Hm'|]. split; [exact Hpay'|]. split; [reflexivity|].
      split; [reflexivity|]. split; [exact (Hclosed nb eq_refl) | exact Hop].
    + destruct Hupd as (Hsame & He). rewrite Hsame in *.
      destruct e as [e| | | | |]; try contradiction.
      * split; [split; [split; [exact Hdb2 | exact Hm'] | exact Hpay']|].
        intros message. auto.
      * auto.
      * auto.
Qed.

(** [_fetch_and_verify_payment] leaves the database alone. *)
Lemma fetch_and_verify_spec (payment_id : option string) (w : ticks) (s : state) :
  drawn w ->
  let run := _fetch_and_verify_payment payment_id w s in
  let s' := snd run in
  quiet s s'
  /\ db_circuit s' = db_circuit s
  /\ match snd (fst run) with
     | Returned details =>
         details_payment_id details = payment_id
         /\ verified details = true
         /\ exists k, details_amount details = inject_Z (randint (w k))
     | Raised (CircuitOpenError _) | Raised (MaxRetriesExceededError _ _) => True
     | Raised _ => False
     end.
Proof.
  intros Hw. cbv zeta. unfold _fetch_and_verify_payment, retry_with_backoff.
  rewrite range_3.
  apply (wrapper_loop_post
           (fun s1 => quiet s s1 /\ db_circuit s1 = db_circuit s)
           (fun r s' =>
              quiet s s'
              /\ db_circuit s' = db_circuit s
              /\ match r with
                 | Returned details =>
                     details_payment_id details = payment_id
                     /\ verified details = true
                     /\ exists k, details_amount details = inject_Z (randint (w k))
                 | Raised (CircuitOpenError _) | Raised (MaxRetriesExceededError _ _) => True
                 | Raised _ => False
                 end));
    [lra | exact Hw | | lia | lia | split; [apply quiet_refl | reflexivity]].
  intros k s1 [[Hdb Hcounts] Hcirc].
  pose proof (call_spec PaymentService (w k)
                (fun s0 => (verify_payment payment_id (w k), s0)) s1) as Hcall.
  cbv zeta in Hcall.
  destruct Hcall as (Hm & Hother & Hcases & _).
  { intros s0. simpl. auto. }
  { intros s0 s2 Heq. simpl. auto. }
  specialize (Hother Database). simpl in Hother.
  assert (Hm' : same_counts (metrics s)
                  (metrics (snd (call PaymentService (w k)
                                   (fun s0 => (verify_payment payment_id (w k), s0)) s1))))
    by (eapply same_counts_trans; eassumption).
  assert (Hcirc' : db_circuit (snd (call PaymentService (w k)
                                      (fun s0 => (verify_payment payment_id (w k), s0)) s1))
                   = db_circuit s)
    by (rewrite Hother by discriminate; exact Hcirc).
  destruct (call PaymentService (w k) (fun s0 => (verify_payment payment_id (w k), s0)) s1)
    as [r s2]. simpl in *.
  assert (Hq : quiet s s2).
  { split; [|exact Hm']. destruct Hcases as [[_ ->] | (_ & -> & _)]; exact Hdb. }
  destruct Hcases as [[(message & ->) _] | (-> & _ & _)]; [auto|].
  unfold verify_payment. destruct (lt (draw (w k)) (15 # 100)); simpl.
  - split; [split; [exact Hq | exact Hcirc'] | auto].
  - repeat (split; [auto|]). eauto.
Qed.

(** X20. [handle_payment_succeeded] credits the balance exactly when
    it reports success, for every event whose [user_id] is an int or
    absent, every state of the database, the breakers and the metrics, and
    whatever the mocks do (the jitter draws being not negative, as
    [random.random()] gives them).  For such an event it never raises.
    When it returns [success], the balance of the user of the event is the
    [Decimal] sum (the sum rounded to 28 significant digits) of the old
    balance and the amount the payment service verified, and no other
    balance changed; one [payment_credited] entry with that amount and the
    new balance was appended to the audit log; and the metrics count one
    more payment succeeded, one more balance update and, by a [Decimal] sum
    again, the amount.  When it returns
    [failed], no balance changed, the audit log is as it was or longer by
    one [payment_failed] entry with the error, and the metrics count one
    more payment failed.  In particular the audit entry cannot fail once
    the balance is written: the update leaves the database breaker
    closed. *)
Theorem payment_is_credited_iff_success (event : event_dict) (ρ : succeeded_world)
    (s : state) :
  drawn (verify_ticks ρ) -> drawn (update_ticks ρ) ->
  let run := handle_payment_succeeded event ρ s in
  let s' := snd run in
  let credited := (payments_succeeded (metrics s') - payments_succeeded (metrics s))%Z in
  let failed := (payments_failed (metrics s') - payments_failed (metrics s))%Z in
  match fst run with
  | Returned (Success user_id amount new_balance) =>
      user_id = event_user_id event
      /\ (exists k, amount = inject_Z (randint (verify_ticks ρ k)))
      /\ new_balance = (Decimal.add (balance s user_id) amount)
      /\ _balances (db s') = <[user_id := new_balance]> (_balances (db s))
      /\ _audit_log (db s')
         = _audit_log (db s)
           ++ [ {| action := "payment_credited";
                   entry_user_id := user_id;
                   entry_payment_id := event_payment_id event;
                   entry_amount := Some amount;
                   entry_new_balance := Some new_balance;
                   entry_error := None;
                   entry_reason := None;
                   entry_refund_id := None;
                   timestamp := Some (utcnow (audit_ticks ρ 0)) |} ]
      /\ credited = 1%Z /\ failed = 0%Z
      /\ balance_updates (metrics s') = (balance_updates (metrics s) + 1)%Z
      /\ total_amount_processed (metrics s')
         = (Decimal.add (total_amount_processed (metrics s)) amount)
  | Returned (Failed message) =>
      _balances (db s') = _balances (db s)
      /\ (_audit_log (db s') = _audit_log (db s)
          \/ _audit_log (db s')
             = _audit_log (db s)
               ++ [ {| action := "payment_failed";
                       entry_user_id := event_user_id event;
                       entry_payment_id := event_payment_id event;
                       entry_amount := None;
                       entry_new_balance := None;
                       entry_error := Some message;
                       entry_reason := None;
                       entry_refund_id := None;
                       timestamp := Some (utcnow (failure_audit_ticks ρ 0)) |} ])
      /\ credited = 0%Z /\ failed = 1%Z
      /\ balance_updates (metrics s') = balance_updates (metrics s)
      /\ total_amount_processed (metrics s') = total_amount_processed (metrics s)
  | _ => False
  end.
Proof.
  intros Hv Hu. cbv zeta.
  assert (Hfail : forall message s1,
            _balances (db s1) = _balances (db s) ->
            _audit_log (db s1) = _audit_log (db s) ->
            same_counts (metrics s) (metrics s1) ->
            let run := payment_not_credited event ρ message s1 in
            fst run = Returned (Failed message)
            /\ _balances (db (snd run)) = _balances (db s)
            /\ (_audit_log (db (snd run)) = _audit_log (db s)
                \/ _audit_log (db (snd run))
                   = _audit_log (db s)
                     ++ [ {| action := "payment_failed";
                             entry_user_id := event_user_id event;
                             entry_payment_id := event_payment_id event;
                             entry_amount := None;
                             entry_new_balance := None;
                             entry_error := Some message;
                             entry_reason := None;
                             entry_refund_id := None;
                             timestamp := Some (utcnow (failure_audit_ticks ρ 0)) |} ])
            /\ (payments_succeeded (metrics (snd run)) - payments_succeeded (metrics s) = 0)%Z
            /\ (payments_failed (metrics (snd run)) - payments_failed (metrics s) = 1)%Z
            /\ balance_updates (metrics (snd run)) = balance_updates (metrics s)
            /\ total_amount_processed (metrics (snd run)) = total_amount_processed (metrics s)).
  { intros message s1 Hb Hl Hc. cbv zeta. unfold payment_not_credited.
    match goal with
    | |- context [_write_audit_log ?e ?w ?s0] =>
        pose proof (write_audit_log_spec e w s0) as Haudit
    end.
    cbv zeta in Haudit. destruct Haudit as (Hm & _ & Hbal & _ & _ & Hres & _).
    match goal with
    | |- context [_write_audit_log ?e ?w ?s0] =>
        destruct (_write_audit_log e w s0) as [[trace written] s2]
    end.
    simpl in *.
    destruct Hc as (c1 & c2 & c3 & c4 & c5 & c6 & c7 & c8 & c9).
    destruct Hm as (m1 & m2 & m3 & m4 & m5 & m6 & m7 & m8 & m9). simpl in *.
    split; [reflexivity|]. split; [congruence|].
    split; [destruct written as [v|e]; [right | left];
            destruct Hres as [Hres _]; rewrite Hres, Hl; reflexivity|].
    repeat split; try lia; congruence. }
  unfold handle_payment_succeeded, credit_payment.
  pose proof (fetch_and_verify_spec (event_payment_id event) (verify_ticks ρ) s Hv) as Hver.
  cbv zeta in Hver. destruct Hver as ([Hdb1 Hc1] & Hcirc1 & Hres1).
  destruct (_fetch_and_verify_payment (event_payment_id event) (verify_ticks ρ) s)
    as [[trace1 verified0] s1].
  simpl in *.
  destruct verified0 as [details|e].
  2:{ destruct e; try contradiction.
      - destruct (Hfail message s1) as (H1 & H2 & H3 & H4 & H5 & H6 & H7);
          [congruence | congruence | exact Hc1 |].
        rewrite H1. auto 10.
      - destruct (Hfail message s1) as (H1 & H2 & H3 & H4 & H5 & H6 & H7);
          [congruence | congruence | exact Hc1 |].
        rewrite H1. auto 10. }
  destruct Hres1 as (_ & _ & Hamount).
  pose proof (update_user_balance_spec (event_user_id event) (details_amount details)
                "credit" (update_ticks ρ) s1 Hu) as Hupd.
  cbv zeta in Hupd. destruct Hupd as (Hc2 & _ & Hlog2 & Hres2).
  assert (Hbal1 : balance s1 (event_user_id event) = balance s (event_user_id event))
    by (unfold balance; now rewrite Hdb1).
  rewrite Hbal1, Hdb1 in Hres2. rewrite Hdb1 in Hlog2.
  destruct (_update_user_balance (event_user_id event) (details_amount details) "credit"
              (update_ticks ρ) s1) as [[trace2 updated] s2].
  simpl in *.
  assert (Hc12 : same_counts (metrics s) (metrics s2))
    by (eapply same_counts_trans; eassumption).
  destruct updated as [new_balance|e].
  2:{ destruct Hres2 as (Hb2 & He).
      destruct e; try contradiction.
      - destruct (Hfail message s2) as (H1 & H2 & H3 & H4 & H5 & H6 & H7);
          [exact Hb2 | exact Hlog2 | exact Hc12 |].
        rewrite H1. auto 10.
      - destruct (Hfail message s2) as (H1 & H2 & H3 & H4 & H5 & H6 & H7);
          [exact Hb2 | exact Hlog2 | exact Hc12 |].
        rewrite H1. auto 10.
      - destruct He as (He & _). discriminate.
      - destruct He as (He & _). now destruct He. }
  destruct Hres2 as (Hb2 & Hclosed & [(_ & Hnew) | (Hop & _)]); [|discriminate].
  match goal with
  | |- context [_write_audit_log ?e ?w ?s0] =>
      pose proof (write_audit_log_spec e w s0) as Haudit
  end.
  cbv zeta in Haudit. destruct Haudit as (Hm3 & _ & Hbal3 & _ & _ & Hres3 & Hreturns).
  specialize (Hreturns Hclosed).
  match goal with
  | |- context [_write_audit_log ?e ?w ?s0] =>
      destruct (_write_audit_log e w s0) as [[trace3 written] s3]
  end.
  simpl in *. subst written. simpl.
  destruct Hres3 as (Hlog3 & _).
  destruct Hc12 as (c1 & c2 & c3 & c4 & c5 & c6 & c7 & c8 & c9).
  destruct Hm3 as (m1 & m2 & m3 & m4 & m5 & m6 & m7 & m8 & m9). simpl in *.
  split; [reflexivity|]. split; [exact Hamount|]. split; [exact Hnew|].
  split; [congruence|]. split; [rewrite Hlog3, Hlog2; reflexivity|].
  repeat split; try lia; congruence.
Qed.

Lemma payment_is_credited_iff_success_witness :
  balance (snd (handle_payment_succeeded first_event calm_world initial_state)) (Some 1%Z)
  = (Decimal.add 1000 (inject_Z 42)).
Proof.
  pose proof (payment_is_credited_iff_success first_event calm_world initial_state)
    as Hcredited.
  cbv zeta in Hcredited.
  assert (Hres : fst (handle_payment_succeeded first_event calm_world initial_state)
                 = Returned (Success (Some 1%Z) (inject_Z 42) (Decimal.add 1000 (inject_Z 42))))
    by reflexivity.
  rewrite Hres in Hcredited.
  destruct Hcredited as (_ & _ & _ & Hbalances & _).
  - intros k. unfold calm_world, calm, Qle. simpl. lia.
  - intros k. unfold calm_world, calm, Qle. simpl. lia.
  - unfold balance. rewrite Hbalances. now rewrite lookup_insert_eq.
Defined.




(** X23. The retry around [_write_audit_log] is never used:
    [add_audit_log] cannot fail, so the call makes one attempt and never
    sleeps.  It returns, with the entry appended under the timestamp of
    that attempt, whenever the database breaker is CLOSED; it can only
    raise [CircuitOpenError], and then the log is as it was.  The balances
    are never touched. *)
Theorem audit_log_is_written_at_once (entry0 : audit_entry) (w : ticks) (s : state) :
  let run := _write_audit_log entry0 w s in
  let s' := snd run in
  length (invocations (fst (fst run))) = 1
  /\ delays (fst (fst run)) = []
  /\ _balances (db s') = _balances (db s)
  /\ match snd (fst run) with
     | Returned _ =>
         _audit_log (db s') = _audit_log (db s) ++ [set_timestamp entry0 (utcnow (w 0))]
     | Raised e =>
         _audit_log (db s') = _audit_log (db s)
         /\ exists message, e = CircuitOpenError message
     end
  /\ (_state (db_circuit s) = CLOSED -> snd (fst run) = Returned tt).
Proof.
  cbv zeta.
  destruct (write_audit_log_spec entry0 w s) as (_ & _ & Hb & Hn & Hd & Hres & Hc).
  repeat (split; [assumption|]). split; [|exact Hc].
  destruct (snd (fst (_write_audit_log entry0 w s))); [apply Hres | exact Hres].
Qed.

(** X22. [handle_payment_failed] never raises and never touches a
    balance.  It returns [logged] with one [payment_failed] entry appended
    to the audit log, carrying the reason of the event or ["unknown"],
    whenever the database breaker is CLOSED; otherwise it may return
    [error], for a [CircuitOpenError], and then the log is as it was. *)
Theorem failed_payment_is_logged (event : event_dict) (w : ticks) (s : state) :
  let run := handle_payment_failed event w s in
  let s' := snd run in
  _balances (db s') = _balances (db s)
  /\ match fst run with
     | Returned (Logged alert_sent) =>
         alert_sent = true
         /\ _audit_log (db s')
            = _audit_log (db s)
              ++ [ {| action := "payment_failed";
                      entry_user_id := event_user_id event;
                      entry_payment_id := event_payment_id event;
                      entry_amount := None;
                      entry_new_balance := None;
                      entry_error := None;
                      entry_reason := Some (default "unknown" (event_reason event));
                      entry_refund_id := None;
                      timestamp := Some (utcnow (w 0)) |} ]
     | Returned (Error e) =>
         _audit_log (db s') = _audit_log (db s)
         /\ exists message, e = CircuitOpenError message
     | _ => False
     end
  /\ (_state (db_circuit s) = CLOSED -> fst run = Returned (Logged true)).
Proof.
  cbv zeta. unfold handle_payment_failed.
  match goal with
  | |- context [_write_audit_log ?e ?w ?s0] =>
      pose proof (write_audit_log_spec e w s0) as Haudit
  end.
  cbv zeta in Haudit. destruct Haudit as (_ & _ & Hb & _ & _ & Hres & Hc).
  match goal with
  | |- context [_write_audit_log ?e ?w ?s0] =>
      destruct (_write_audit_log e w s0) as [[trace written] s1]
  end.
  simpl in *.
  destruct written as [v|e]; simpl.
  - split; [exact Hb|]. split; [split; [reflexivity | apply Hres] | reflexivity].
  - split; [exact Hb|]. split; [exact Hres|].
    intros Hclosed. specialize (Hc Hclosed). discriminate.
Qed.




End PaymentHandlersMoreProofs.
